(** * mgt-search-results: cache, thumbnail augmentation and paging

    A shallow embedding of
    [packages/mgt-components/src/components/mgt-search-results/mgt-search-results.ts]
    (class [MgtSearchResults]) together with the properties its
    specification states about it.

    Conventions of the embedding.
    - A JavaScript [number] is an integer [Z]; a number that may be
      [undefined], [null] or NaN is an [option Z], all three being falsy
      and making every comparison false.  Non-integral values are outside
      the model.  The quotient [total / size], the only place where the
      component divides, keeps JavaScript's infinities and NaN ([jsnum]).
    - A property is optional in the model exactly when the component itself
      guards it ([?.], [||], a truthiness test) somewhere in the file.
    - Where the code tells [undefined] from [null] (the [!==] of the
      [queryString] setter, a property handed to [JSON.stringify]) the
      value is a [nullable]; a truthiness test sees it through [defined].
    - A thrown exception is a value of [exn]; code that can throw returns an
      [outcome].
    - Everything the component calls but does not define (signed-in state of
      the provider, the cache store, [Date.now], [JSON.parse] of a cached
      payload, the Graph request, the two batches) is a field of [Host]. *)

From Stdlib Require Import ZArith Lia Ascii.
From stdpp Require Import base tactics option list strings pretty gmap.

Set Warnings "-register-all".

(* ------------------------------------------------------------------ *)
(** ** JavaScript values as the component uses them *)

Module JS.

Inductive exn : Type :=
| TypeError (msg : string)
| SyntaxError (msg : string)
| HostError (msg : string).

Inductive outcome (A : Type) : Type :=
| Ok (a : A)
| Throw (e : exn).
Arguments Ok {A} a.
Arguments Throw {A} e.

(** Truthiness of a number: [0], [undefined] and [null] are falsy. *)
Definition truthy_num (n : option Z) : bool :=
  match n with
  | Some z => negb (z =? 0)%Z
  | None => false
  end.

(** [a || b] on numbers. *)
Definition or_num (a b : option Z) : option Z :=
  if truthy_num a then a else b.

(** [a > b]; any comparison with [undefined] (NaN) is false. *)
Definition gt_num (a b : option Z) : bool :=
  match a, b with
  | Some x, Some y => (y <? x)%Z
  | _, _ => false
  end.

(** [a - b]; [undefined] makes the difference NaN. *)
Definition sub_num (a b : option Z) : option Z :=
  match a, b with
  | Some x, Some y => Some (x - y)%Z
  | _, _ => None
  end.

(** A value that may also be [undefined] or [null], for the properties
    where the component tells the two apart: [!==] compares them as
    different values, and [JSON.stringify] leaves out a property that is
    [undefined] and prints one that is [null]. *)
Inductive nullable (A : Type) : Type :=
| Undefined
| Null
| Val (a : A).
Arguments Undefined {A}.
Arguments Null {A}.
Arguments Val {A} a.

#[global] Instance nullable_eq_dec {A} `{EqDecision A} : EqDecision (nullable A).
Proof. solve_decision. Defined.

(** What a truthiness test, [||] or [?.] sees of such a value: [undefined]
    and [null] alike are no value. *)
Definition defined {A} (x : nullable A) : option A :=
  match x with
  | Val a => Some a
  | Undefined | Null => None
  end.
Coercion defined : nullable >-> option.

(** Truthiness of a string: [undefined], [null] and the empty string are
    falsy. *)
Definition truthy_str (s : option string) : bool :=
  match s with
  | Some EmptyString | None => false
  | Some (String _ _) => true
  end.

(** [s.endsWith(suffix)]. *)
Definition endsWith (s suffix : string) : bool :=
  (String.length suffix <=? String.length s)%nat &&
  String.eqb
    (String.substring (String.length s - String.length suffix)
               (String.length suffix) s)
    suffix.

(** A possibly undefined string inside a template literal. *)
Definition tpl (s : option string) : string := default "undefined" s.

(** [i.toString()] of an array index. *)
Definition toString (i : nat) : string := pretty i.

(** Results of a division as [Math.ceil] and the comparisons see it. *)
Inductive jsnum : Type :=
| Num (z : Z)
| PosInf
| NegInf
| NaN.

(** [Math.floor(a / 2)]. *)
Definition floor_half (a : Z) : Z := (a / 2)%Z.

(** [Math.ceil(a / 2)]. *)
Definition ceil_half (a : Z) : Z := (- ((- a) / 2))%Z.

(** [Math.ceil(total / size)], [total] possibly undefined. *)
Definition ceil_quot (total : option Z) (size : Z) : jsnum :=
  match total with
  | None => NaN
  | Some t =>
      if (size =? 0)%Z then
        if (0 <? t)%Z then PosInf
        else if (t <? 0)%Z then NegInf
        else NaN
      else Num (- ((- t) / size))%Z
  end.

(** [i < q]. *)
Definition lt_jsnum (i : Z) (q : jsnum) : bool :=
  match q with
  | Num z => (i <? z)%Z
  | PosInf => true
  | NegInf | NaN => false
  end.

(** [i === q]. *)
Definition eq_jsnum (i : Z) (q : jsnum) : bool :=
  match q with
  | Num z => (i =? z)%Z
  | _ => false
  end.

End JS.

Import JS.

(* ------------------------------------------------------------------ *)
(** ** JSON values and [JSON.stringify] *)

Module JSON.

(** Objects keep their properties in insertion order. *)
Inductive json : Type :=
| JUndefined
| JNull
| JBool (b : bool)
| JNum (z : Z)
| JStr (s : string)
| JArr (items : list json)
| JObj (props : list (string * json)).

Definition dquote : ascii := "034"%char.
Definition backslash : ascii := "092"%char.

Definition hex_digit (n : nat) : ascii :=
  default "0"%char (String.get n "0123456789abcdef").

(** The escape of one character inside a JSON string. *)
Definition escape_char (c : ascii) : string :=
  let n := nat_of_ascii c in
  if (n =? 34)%nat then String backslash (String dquote EmptyString)
  else if (n =? 92)%nat then String backslash (String backslash EmptyString)
  else if (n =? 8)%nat then String backslash "b"
  else if (n =? 12)%nat then String backslash "f"
  else if (n =? 10)%nat then String backslash "n"
  else if (n =? 13)%nat then String backslash "r"
  else if (n =? 9)%nat then String backslash "t"
  else if (n <? 32)%nat then
    String backslash
      ("u00" +:+ String (hex_digit (n / 16)) (String (hex_digit (n mod 16)) EmptyString))
  else String c EmptyString.

Fixpoint escape (s : string) : string :=
  match s with
  | EmptyString => EmptyString
  | String c rest => escape_char c +:+ escape rest
  end.

Definition quote (s : string) : string :=
  String dquote (escape s +:+ String dquote EmptyString).

(** [JSON.stringify]; [None] is the result [undefined].  A property whose
    value is [undefined] is left out of an object, and printed as [null]
    inside an array. *)
Fixpoint stringify (j : json) : option string :=
  match j with
  | JUndefined => None
  | JNull => Some "null"
  | JBool b => Some (if b then "true" else "false")
  | JNum z => Some (pretty z)
  | JStr s => Some (quote s)
  | JArr items =>
      Some ("[" +:+
            String.concat "," (map (fun x => default "null" (stringify x)) items)
            +:+ "]")
  | JObj props =>
      Some ("{" +:+
            String.concat ","
              (omap (fun p => (fun s => quote (fst p) +:+ ":" +:+ s)
                                <$> stringify (snd p)) props)
            +:+ "}")
  end.

(** The string a call of [JSON.stringify] on an object or array yields. *)
Definition stringify_string (j : json) : string :=
  default EmptyString (stringify j).

Definition is_undefined (j : json) : bool :=
  match j with JUndefined => true | _ => false end.

(** The part of a value that [JSON.stringify] looks at: the properties
    that hold [undefined] are dropped, the others stay in their order. *)
Fixpoint defined_part (j : json) : json :=
  match j with
  | JArr items => JArr (map defined_part items)
  | JObj props =>
      JObj (omap (fun p => if is_undefined (snd p) then None
                           else Some (fst p, defined_part (snd p))) props)
  | _ => j
  end.

(** Test helper: writes a JSON text with apostrophes in place of double
    quotes. *)
Fixpoint unq (s : string) : string :=
  match s with
  | EmptyString => EmptyString
  | String c rest =>
      String (if (nat_of_ascii c =? 39)%nat then dquote else c) (unq rest)
  end.

End JSON.

Import JSON.

(* ------------------------------------------------------------------ *)
(** ** The search response *)

(** [interface Thumbnail { url?: string }]. *)
Record Thumbnail : Type := mkThumbnail { url : option string }.

Record ParentReference : Type := mkParentReference {
  siteId : option string;
  driveId : option string
}.

(** The properties of [hit.resource] the component reads or writes. *)
Record Resource : Type := mkResource {
  odata_type : string;                (* resource['@odata.type'] *)
  id : string;
  size : option Z;
  webUrl : option string;
  parentReference : ParentReference;
  thumbnail : option Thumbnail
}.

Record SearchHit : Type := mkSearchHit {
  hitId : string;
  resource : Resource
}.

Record SearchHitsContainer : Type := mkSearchHitsContainer {
  hits : option (list SearchHit);
  total : option Z;
  moreResultsAvailable : option bool
}.

Record SearchResponse : Type := mkSearchResponse {
  hitsContainers : list SearchHitsContainer
}.

(** The body of the search request's answer, [response.value[...]]. *)
Record Response : Type := mkResponse {
  value : list SearchResponse
}.

#[global] Instance Thumbnail_eq_dec : EqDecision Thumbnail.
Proof. solve_decision. Defined.
#[global] Instance ParentReference_eq_dec : EqDecision ParentReference.
Proof. solve_decision. Defined.
#[global] Instance Resource_eq_dec : EqDecision Resource.
Proof. solve_decision. Defined.
#[global] Instance SearchHit_eq_dec : EqDecision SearchHit.
Proof. solve_decision. Defined.
#[global] Instance SearchHitsContainer_eq_dec : EqDecision SearchHitsContainer.
Proof. solve_decision. Defined.
#[global] Instance SearchResponse_eq_dec : EqDecision SearchResponse.
Proof. solve_decision. Defined.
#[global] Instance Response_eq_dec : EqDecision Response.
Proof. solve_decision. Defined.

(** [response?.value[0]?.hitsContainers[0]]. *)
Definition first_container (r : option Response) : option SearchHitsContainer :=
  r ≫= λ r, value r !! 0%nat ≫= λ v, hitsContainers v !! 0%nat.

(* ------------------------------------------------------------------ *)
(** ** The component *)

Record MgtSearchResults : Type := mkMgtSearchResults {
  _queryString : nullable string;
  queryTemplate : option string;
  _entityTypes : list string;
  scopes : option (list string);
  contentSources : nullable (list string);
  version : string;
  _size : Z;
  pagingMax : Z;
  fetchThumbnail : bool;
  fields : option (list string);
  enableTopResults : bool;
  cacheEnabled : bool;
  cacheInvalidationPeriod : option Z;
  response : option Response;
  isRefreshing : bool;
  _currentPage : Z;
  error : option exn;
  isLoadingState : bool
}.

Definition SEARCH_ENDPOINT : string := "/search/query".
Definition MAX_PAGE_SIZE : Z := 1000.
Definition DEFAULT_FIELDS : list string :=
  ["webUrl"; "lastModifiedBy"; "lastModifiedDateTime"; "summary";
   "displayName"; "name"].

(** The component as its field initialisers leave it. *)
Definition initial : MgtSearchResults := {|
  _queryString := Undefined;
  queryTemplate := None;
  _entityTypes := ["driveItem"; "listItem"; "site"];
  scopes := Some [];
  contentSources := Val [];
  version := "v1.0";
  _size := 10;
  pagingMax := 7;
  fetchThumbnail := false;
  fields := None;
  enableTopResults := false;
  cacheEnabled := false;
  cacheInvalidationPeriod := Some 30000%Z;
  response := None;
  isRefreshing := false;
  _currentPage := 1;
  error := None;
  isLoadingState := false
|}.

Definition with_queryString (v : nullable string) (c : MgtSearchResults) :=
  {| _queryString := v; queryTemplate := queryTemplate c;
     _entityTypes := _entityTypes c; scopes := scopes c;
     contentSources := contentSources c; version := version c;
     _size := _size c; pagingMax := pagingMax c;
     fetchThumbnail := fetchThumbnail c; fields := fields c;
     enableTopResults := enableTopResults c; cacheEnabled := cacheEnabled c;
     cacheInvalidationPeriod := cacheInvalidationPeriod c;
     response := response c; isRefreshing := isRefreshing c;
     _currentPage := _currentPage c; error := error c;
     isLoadingState := isLoadingState c |}.

Definition with_currentPage (v : Z) (c : MgtSearchResults) :=
  {| _queryString := _queryString c; queryTemplate := queryTemplate c;
     _entityTypes := _entityTypes c; scopes := scopes c;
     contentSources := contentSources c; version := version c;
     _size := _size c; pagingMax := pagingMax c;
     fetchThumbnail := fetchThumbnail c; fields := fields c;
     enableTopResults := enableTopResults c; cacheEnabled := cacheEnabled c;
     cacheInvalidationPeriod := cacheInvalidationPeriod c;
     response := response c; isRefreshing := isRefreshing c;
     _currentPage := v; error := error c;
     isLoadingState := isLoadingState c |}.

Definition with_size (v : Z) (c : MgtSearchResults) :=
  {| _queryString := _queryString c; queryTemplate := queryTemplate c;
     _entityTypes := _entityTypes c; scopes := scopes c;
     contentSources := contentSources c; version := version c;
     _size := v; pagingMax := pagingMax c;
     fetchThumbnail := fetchThumbnail c; fields := fields c;
     enableTopResults := enableTopResults c; cacheEnabled := cacheEnabled c;
     cacheInvalidationPeriod := cacheInvalidationPeriod c;
     response := response c; isRefreshing := isRefreshing c;
     _currentPage := _currentPage c; error := error c;
     isLoadingState := isLoadingState c |}.

Definition with_response (v : option Response) (c : MgtSearchResults) :=
  {| _queryString := _queryString c; queryTemplate := queryTemplate c;
     _entityTypes := _entityTypes c; scopes := scopes c;
     contentSources := contentSources c; version := version c;
     _size := _size c; pagingMax := pagingMax c;
     fetchThumbnail := fetchThumbnail c; fields := fields c;
     enableTopResults := enableTopResults c; cacheEnabled := cacheEnabled c;
     cacheInvalidationPeriod := cacheInvalidationPeriod c;
     response := v; isRefreshing := isRefreshing c;
     _currentPage := _currentPage c; error := error c;
     isLoadingState := isLoadingState c |}.

Definition with_error (v : option exn) (c : MgtSearchResults) :=
  {| _queryString := _queryString c; queryTemplate := queryTemplate c;
     _entityTypes := _entityTypes c; scopes := scopes c;
     contentSources := contentSources c; version := version c;
     _size := _size c; pagingMax := pagingMax c;
     fetchThumbnail := fetchThumbnail c; fields := fields c;
     enableTopResults := enableTopResults c; cacheEnabled := cacheEnabled c;
     cacheInvalidationPeriod := cacheInvalidationPeriod c;
     response := response c; isRefreshing := isRefreshing c;
     _currentPage := _currentPage c; error := v;
     isLoadingState := isLoadingState c |}.

Definition with_isRefreshing (v : bool) (c : MgtSearchResults) :=
  {| _queryString := _queryString c; queryTemplate := queryTemplate c;
     _entityTypes := _entityTypes c; scopes := scopes c;
     contentSources := contentSources c; version := version c;
     _size := _size c; pagingMax := pagingMax c;
     fetchThumbnail := fetchThumbnail c; fields := fields c;
     enableTopResults := enableTopResults c; cacheEnabled := cacheEnabled c;
     cacheInvalidationPeriod := cacheInvalidationPeriod c;
     response := response c; isRefreshing := v;
     _currentPage := _currentPage c; error := error c;
     isLoadingState := isLoadingState c |}.

Definition with_isLoadingState (v : bool) (c : MgtSearchResults) :=
  {| _queryString := _queryString c; queryTemplate := queryTemplate c;
     _entityTypes := _entityTypes c; scopes := scopes c;
     contentSources := contentSources c; version := version c;
     _size := _size c; pagingMax := pagingMax c;
     fetchThumbnail := fetchThumbnail c; fields := fields c;
     enableTopResults := enableTopResults c; cacheEnabled := cacheEnabled c;
     cacheInvalidationPeriod := cacheInvalidationPeriod c;
     response := response c; isRefreshing := isRefreshing c;
     _currentPage := _currentPage c; error := error c;
     isLoadingState := v |}.

(** *** Accessors *)

(** [get queryString()]. *)
Definition queryString (c : MgtSearchResults) : nullable string :=
  _queryString c.

(** [get currentPage()]. *)
Definition currentPage (c : MgtSearchResults) : Z := _currentPage c.

(** [get size()]. *)
Definition size_ (c : MgtSearchResults) : Z := _size c.

(** [set size(value)]: the page size is capped at [MAX_PAGE_SIZE]. *)
Definition set_size (value : Z) (c : MgtSearchResults) : MgtSearchResults :=
  if (MAX_PAGE_SIZE <? value)%Z then with_size MAX_PAGE_SIZE c
  else with_size value c.

(** [get from()]. *)
Definition from (c : MgtSearchResults) : Z :=
  ((currentPage c - 1) * size_ c)%Z.

(** What a setter asks of the base class [MgtTemplatedComponent]. *)
Inductive Request : Type :=
| RequestStateUpdate (force : bool).

(** [set queryString(value)].  [this._queryString !== value] is strict
    inequality: [undefined], [null] and every string differ from one
    another.  [setLoadingState(true)] is the base class's assignment to
    [isLoadingState]; [requestStateUpdate(true)] is returned as a request,
    the base class runs [loadState] for it. *)
Definition set_queryString (value : nullable string) (c : MgtSearchResults)
  : MgtSearchResults * list Request :=
  if decide (_queryString c = value) then (c, [])
  else
    (with_isLoadingState true (with_currentPage 1 (with_queryString value c)),
     [RequestStateUpdate true]).

(** [set currentPage(value)]. *)
Definition set_currentPage (value : Z) (c : MgtSearchResults)
  : MgtSearchResults * list Request :=
  if decide (_currentPage c = value) then (c, [])
  else (with_currentPage value c, [RequestStateUpdate true]).

(* ------------------------------------------------------------------ *)
(** ** Request options and the cache key *)

Definition jstrings (l : list string) : json := JArr (map JStr l).

(** [x ? x : undefined] for a number, a boolean and a string. *)
Definition num_or_undefined (z : Z) : json :=
  if (z =? 0)%Z then JUndefined else JNum z.
Definition bool_or_undefined (b : bool) : json :=
  if b then JBool true else JUndefined.
Definition str_or_undefined (s : option string) : json :=
  match s with
  | Some (String a r) => JStr (String a r)
  | _ => JUndefined
  end.

(** A string or an array of strings that may be [undefined] or [null], as
    the value of a property. *)
Definition opt_str (s : nullable string) : json :=
  match s with
  | Val s => JStr s
  | Null => JNull
  | Undefined => JUndefined
  end.
Definition opt_strings (l : nullable (list string)) : json :=
  match l with
  | Val l => jstrings l
  | Null => JNull
  | Undefined => JUndefined
  end.

(** [getFields()]. *)
Definition getFields (c : MgtSearchResults) : json :=
  match fields c with
  | Some fs => jstrings (DEFAULT_FIELDS ++ fs)
  | None => JUndefined
  end.

(** [this.entityTypes.includes(name)]. *)
Definition includes (name : string) (l : list string) : bool :=
  bool_decide (name ∈ l).

(** [getRequestOptions()]: the object literal in the order it is written,
    then [contentSources] and [query.queryTemplate] added to it. *)
Definition getRequestOptions (c : MgtSearchResults) : json :=
  let query :=
    [("queryString", opt_str (queryString c))] ++
    (if String.eqb (version c) "beta"
     then [("queryTemplate", str_or_undefined (queryTemplate c))]
     else []) in
  JObj
    ([("entityTypes", jstrings (_entityTypes c));
      ("query", JObj query);
      ("from", num_or_undefined (from c));
      ("size", num_or_undefined (size_ c));
      ("fields", getFields c);
      ("enableTopResults", bool_or_undefined (enableTopResults c))] ++
     (if includes "externalItem" (_entityTypes c)
      then [("contentSources", opt_strings (contentSources c))]
      else [])).

(** The object handed to [JSON.stringify] for the key (loadState, lines
    454-457). *)
Definition keyObject (endpoint_version : string) (requestOptions : json) : json :=
  JObj [("endpoint", JStr (endpoint_version +:+ SEARCH_ENDPOINT));
        ("requestOptions", requestOptions)].

Definition cacheKey (c : MgtSearchResults) : string :=
  stringify_string (keyObject (version c) (getRequestOptions c)).

(* ------------------------------------------------------------------ *)
(** ** Paging *)

(** [{ number: n }], an entry of the array [getActivePages] returns. *)
Record Page : Type := mkPage { number : Z }.

#[global] Instance Page_eq_dec : EqDecision Page.
Proof. solve_decision. Defined.

(** [pagingRequired(hitsContainer)]:
    [hitsContainer?.moreResultsAvailable ||
     this.currentPage * this.size < hitsContainer?.total]. *)
Definition pagingRequired (c : MgtSearchResults)
    (hitsContainer : option SearchHitsContainer) : bool :=
  default false (hitsContainer ≫= moreResultsAvailable) ||
  gt_num (hitsContainer ≫= total) (Some (currentPage c * size_ c)%Z).

(** The inner [getFirstPage] of [getActivePages]. *)
Definition getFirstPage (c : MgtSearchResults) : Z :=
  let medianPage := (currentPage c - floor_half (pagingMax c) - 1)%Z in
  if (floor_half (pagingMax c) <=? medianPage)%Z then medianPage else 0%Z.

(** A [for (...; cond; ++i) pages.push({ number: i + 1 })] loop.  The fuel
    is an upper bound of the number of iterations the condition allows
    ([pages_for_fuel] below), so the loop always leaves through its
    condition. *)
Fixpoint pages_for (fuel : nat) (cond : Z → list Page → bool)
    (i : Z) (pages : list Page) : list Page :=
  match fuel with
  | O => pages
  | S fuel' =>
      if cond i pages
      then pages_for fuel' cond (i + 1)%Z (pages ++ [mkPage (i + 1)])
      else pages
  end.

(** [getActivePages(totalResults)]. *)
Definition getActivePages (c : MgtSearchResults) (totalResults : option Z)
  : list Page :=
  let firstPage := getFirstPage c in
  if (pagingMax c - currentPage c <? firstPage + 1)%Z
     || (pagingMax c =? currentPage c)%Z
  then
    let bound := (pagingMax c + (currentPage c - 1))%Z in
    pages_for (Z.to_nat (bound - (firstPage + 1)))
      (λ i pages,
         lt_jsnum i (ceil_quot totalResults (size_ c))
         && (i <? bound)%Z
         && (Z.of_nat (length pages) <? pagingMax c - 2)%Z)
      (firstPage + 1)%Z []
  else
    pages_for (Z.to_nat (pagingMax c - firstPage))
      (λ i _, (i <? pagingMax c)%Z)
      firstPage [].

(** What [renderFirstPage] puts in front of the page buttons. *)
Inductive FirstPage : Type :=
| NoFirstPage                       (* [nothing] *)
| FirstPageButton (dots : option Z) (* button "1", then the "..." button
                                       and the page it jumps to *).

(** One button of [renderAllPages]. *)
Record PageButton : Type := mkPageButton {
  pb_number : Z;
  pb_active : bool   (* class [search-results-page-active] *)
}.

(** The children of [<div class="search-results-pages">]. *)
Record Footer : Type := mkFooter {
  previousPage : bool;
  firstPage : FirstPage;
  allPages : list PageButton;
  nextPage : bool
}.

(** [renderPreviousPage()]: rendered when [currentPage > 1]. *)
Definition renderPreviousPage (c : MgtSearchResults) : bool :=
  (1 <? currentPage c)%Z.

(** [renderFirstPage(pages)]. *)
Definition renderFirstPage (c : MgtSearchResults) (pages : list Page)
  : FirstPage :=
  if existsb (λ page, (number page =? 1)%Z) pages then NoFirstPage
  else FirstPageButton
         (if (0 <? currentPage c - floor_half (pagingMax c))%Z
          then Some (currentPage c - ceil_half (pagingMax c))%Z
          else None).

(** [renderAllPages(pages)]. *)
Definition renderAllPages (c : MgtSearchResults) (pages : list Page)
  : list PageButton :=
  map (λ page, mkPageButton (number page) (number page =? currentPage c)%Z)
      pages.

(** [isLastPage()]; reading through a missing response or container
    throws. *)
Definition isLastPage (c : MgtSearchResults) : outcome bool :=
  match first_container (response c) with
  | Some hc => Ok (eq_jsnum (currentPage c) (ceil_quot (total hc) (size_ c)))
  | None => Throw (TypeError "Cannot read properties of undefined")
  end.

(** [renderNextPage()]: rendered unless on the last page. *)
Definition renderNextPage (c : MgtSearchResults) : outcome bool :=
  match isLastPage c with
  | Ok b => Ok (negb b)
  | Throw e => Throw e
  end.

(** [renderFooter(hitsContainer)]; [Ok None] is the result [undefined]. *)
Definition renderFooter (c : MgtSearchResults)
    (hitsContainer : option SearchHitsContainer) : outcome (option Footer) :=
  if pagingRequired c hitsContainer then
    let pages := getActivePages c (hitsContainer ≫= total) in
    match renderNextPage c with
    | Ok next =>
        Ok (Some {| previousPage := renderPreviousPage c;
                    firstPage := renderFirstPage c pages;
                    allPages := renderAllPages c pages;
                    nextPage := next |})
    | Throw e => Throw e
    end
  else Ok None.

(** The footer as [render] asks for it:
    [this.renderFooter(this.response?.value[0]?.hitsContainers[0])]. *)
Definition footerTemplate (c : MgtSearchResults) : outcome (option Footer) :=
  renderFooter c (first_container (response c)).

(** A response holding one container with the given paging metadata. *)
Definition response_of_container (hc : SearchHitsContainer) : Response :=
  {| value := [ {| hitsContainers := [hc] |} ] |}.

(** The component of the paging example: 95 results, pages of 10, page 5,
    at most 7 page buttons. *)
Definition paging_example : MgtSearchResults :=
  with_response
    (Some (response_of_container
             {| hits := Some []; total := Some 95%Z;
                moreResultsAvailable := Some false |}))
    (with_currentPage 5 (with_queryString (Val "contoso") initial)).

(* ------------------------------------------------------------------ *)
(** ** The host: everything [loadState] calls but does not define *)

(** [CacheService.config], the part the component reads. *)
Record CacheConfig : Type := mkCacheConfig {
  isEnabled : bool;
  response_isEnabled : bool;                  (* config.response.isEnabled *)
  response_invalidationPeriod : option Z;     (* config.response.invalidationPeriod *)
  defaultInvalidationPeriod : option Z
}.

(** [interface CacheResponse extends CacheItem { response?: string }]. *)
Record CacheResponse : Type := mkCacheResponse {
  cr_response : option string;
  timeCached : option Z
}.

(** The body of one answer inside a batch. *)
Record BatchContent : Type := mkBatchContent {
  content_url : option string;              (* value.content.url *)
  content_thumbnailWebUrl : option string   (* value.content.thumbnailWebUrl *)
}.

Record BatchResponse : Type := mkBatchResponse {
  content : BatchContent
}.

(** A request added with [batch.get(id, path)]. *)
Record BatchRequest : Type := mkBatchRequest {
  req_id : string;
  req_path : string
}.

(** [Map<string, BatchResponse>], in iteration order. *)
Definition BatchMap : Type := list (string * BatchResponse).

Record Host : Type := mkHost {
  (** [provider && provider.state === ProviderState.SignedIn] *)
  signedIn : bool;
  config : CacheConfig;
  (** [Date.now()] *)
  now : Z;
  (** [await cache.getValue(key)]; [Ok None] when the store has no entry *)
  getValue : string → outcome (option CacheResponse);
  (** [JSON.parse(text)]; [Ok None] when the text is a falsy JSON value *)
  JSON_parse : string → outcome (option Response);
  (** [JSON.stringify(response)] of a response body *)
  JSON_stringify_response : Response → string;
  (** [await graph.api(...).version(v).middlewareOptions(scopes).post(body)] *)
  post : string → list string → json → outcome (option Response);
  (** [await thumbnailBatch.executeAll()] *)
  executeAll : list BatchRequest → outcome (option BatchMap);
  (** [await thumbnailBatchBeta.executeAll()] *)
  executeAllBeta : list BatchRequest → outcome (option BatchMap)
}.

(** What [loadState] does to the outside, and to the hits of the response
    it is working on, in the order it does it. *)
Inductive Event : Type :=
| EvCacheGet (key : string)
| EvPost (api_version : string) (scopes : list string) (body : json)
| EvExecuteAll (beta : bool) (requests : list BatchRequest)
| EvThumbnail (index : nat) (t : Thumbnail)
| EvCachePut (key : string) (payload : string)
| EvDataChange (response : option Response) (error : option exn).

(** [getResponseInvalidationTime(currentInvalidationPeriod)]. *)
Definition getResponseInvalidationTime (h : Host)
    (currentInvalidationPeriod : option Z) : option Z :=
  or_num (or_num currentInvalidationPeriod
                 (response_invalidationPeriod (config h)))
         (defaultInvalidationPeriod (config h)).

(** [getIsResponseCacheEnabled()]. *)
Definition getIsResponseCacheEnabled (h : Host) : bool :=
  response_isEnabled (config h) && isEnabled (config h).

(** [shouldRetrieveCache()]. *)
Definition shouldRetrieveCache (h : Host) (c : MgtSearchResults) : bool :=
  getIsResponseCacheEnabled h && cacheEnabled c && negb (isRefreshing c).

(** [shouldUpdateCache()]. *)
Definition shouldUpdateCache (h : Host) (c : MgtSearchResults) : bool :=
  getIsResponseCacheEnabled h && cacheEnabled c.

(* ------------------------------------------------------------------ *)
(** ** Thumbnails *)

Definition driveItemType : string := "#microsoft.graph.driveItem".
Definition listItemType : string := "#microsoft.graph.listItem".

(** The test of lines 484-488. *)
Definition eligible (r : Resource) : bool :=
  (gt_num (size r) (Some 0%Z)
   || match webUrl r with Some u => endsWith u ".aspx" | None => false end)
  && (String.eqb (odata_type r) driveItemType
      || String.eqb (odata_type r) listItemType).

Definition isListItem (r : Resource) : bool :=
  String.eqb (odata_type r) listItemType.

Definition pagePath (r : Resource) : string :=
  "/sites/" +:+ tpl (siteId (parentReference r)) +:+ "/pages/" +:+ id r.

Definition thumbnailPath (r : Resource) : string :=
  "/drives/" +:+ tpl (driveId (parentReference r)) +:+ "/items/" +:+ id r
  +:+ "/thumbnails/0/medium".

(** The loop of lines 482-501, from index [i] on: the requests added to
    [thumbnailBatch] and to [thumbnailBatchBeta]. *)
Fixpoint buildBatches (i : nat) (hs : list SearchHit)
  : list BatchRequest * list BatchRequest :=
  match hs with
  | [] => ([], [])
  | element :: rest =>
      let '(batch, batchBeta) := buildBatches (S i) rest in
      let r := resource element in
      if eligible r then
        if isListItem r
        then (batch, mkBatchRequest (toString i) (pagePath r) :: batchBeta)
        else (mkBatchRequest (toString i) (thumbnailPath r) :: batch, batchBeta)
      else (batch, batchBeta)
  end.

(** [hits[key]] for a string key: the element stored under the property
    named [key], if the array has one. *)
Fixpoint lookup_key_from (i : nat) (hs : list SearchHit) (key : string)
  : option (nat * SearchHit) :=
  match hs with
  | [] => None
  | element :: rest =>
      if String.eqb (toString i) key then Some (i, element)
      else lookup_key_from (S i) rest key
  end.

Definition lookup_key (hs : list SearchHit) (key : string)
  : option (nat * SearchHit) := lookup_key_from 0 hs key.

(** [result.resource.thumbnail = thumbnail]. *)
Definition set_thumbnail (t : Thumbnail) (element : SearchHit) : SearchHit :=
  let r := resource element in
  {| hitId := hitId element;
     resource := {| odata_type := odata_type r; id := id r; size := size r;
                    webUrl := webUrl r; parentReference := parentReference r;
                    thumbnail := Some t |} |}.

(** The thumbnail [augmentResponse] builds for one entry. *)
Definition thumbnailFor (result : SearchHit) (v : BatchResponse) : Thumbnail :=
  if isListItem (resource result)
  then {| url := content_thumbnailWebUrl (content v) |}
  else {| url := content_url (content v) |}.

(** The [for (const [key, value] of thumbnailResponse)] loop.  The hits are
    updated in place, so the updates made before an exception stay. *)
Fixpoint augmentEntries (hs : list SearchHit) (entries : BatchMap)
  : list SearchHit * list Event * outcome unit :=
  match entries with
  | [] => (hs, [], Ok ())
  | (key, v) :: rest =>
      match lookup_key hs key with
      | None =>
          (hs, [], Throw (TypeError "Cannot read properties of undefined"))
      | Some (i, result) =>
          let t := thumbnailFor result v in
          let '(hs', evs, r) :=
            augmentEntries (<[i := set_thumbnail t result]> hs) rest in
          (hs', EvThumbnail i t :: evs, r)
      end
  end.

(** [augmentResponse(thumbnailResponse)]. *)
Definition augmentResponse (hs : list SearchHit)
    (thumbnailResponse : option BatchMap)
  : list SearchHit * list Event * outcome unit :=
  match thumbnailResponse with
  | Some (e :: es) => augmentEntries hs (e :: es)
  | _ => (hs, [], Ok ())
  end.

(** Lines 520-525: both batches run and merged inside [try { } catch { }].
    Whatever is thrown inside is dropped; the hits are returned as the
    statements executed so far left them. *)
Definition augmentThumbnails (h : Host) (hs : list SearchHit)
  : list SearchHit * list Event :=
  let '(batch, batchBeta) := buildBatches 0 hs in
  match executeAll h batch with
  | Throw _ => (hs, [EvExecuteAll false batch])
  | Ok m1 =>
      let '(hs1, evs1, r1) := augmentResponse hs m1 in
      match r1 with
      | Throw _ => (hs1, EvExecuteAll false batch :: evs1)
      | Ok _ =>
          match executeAllBeta h batchBeta with
          | Throw _ =>
              (hs1, EvExecuteAll false batch :: evs1
                    ++ [EvExecuteAll true batchBeta])
          | Ok m2 =>
              let '(hs2, evs2, _) := augmentResponse hs1 m2 in
              (hs2, EvExecuteAll false batch :: evs1
                    ++ EvExecuteAll true batchBeta :: evs2)
          end
      end
  end.

(* ------------------------------------------------------------------ *)
(** ** [loadState] *)

(** The statements of [loadState] run on the component and the trace of
    events so far; a statement that throws leaves both as they are at that
    point. *)
Definition St : Type := MgtSearchResults * list Event.
Definition M (A : Type) : Type := St → St * outcome A.

Definition ret {A} (a : A) : M A := λ s, (s, Ok a).
Definition throw {A} (e : exn) : M A := λ s, (s, Throw e).
Definition bind {A B} (m : M A) (k : A → M B) : M B :=
  λ s, match m s with
       | (s', Ok a) => k a s'
       | (s', Throw e) => (s', Throw e)
       end.
Definition await {A} (o : outcome A) : M A := λ s, (s, o).
Definition emit (es : list Event) : M unit :=
  λ s, ((fst s, snd s ++ es), Ok ()).

Notation "'let*' x ':=' m 'in' k" := (bind m (λ x, k))
  (at level 10, x name, m at level 100, k at level 200, only parsing).
Notation "m ';;' k" := (bind m (λ _, k))
  (at level 100, k at level 200, right associativity, only parsing).

(** [if (!equals(this.response, response)) { this.response = response; }];
    [equals] is structural equality. *)
Definition assigned (r : option Response) (c : MgtSearchResults)
  : MgtSearchResults :=
  if decide (response c = r) then c else with_response r c.

Definition assign_response (r : option Response) : M unit :=
  λ s, ((assigned r (fst s), snd s), Ok ()).

(** [JSON.parse(result.response)]; [JSON.parse(undefined)] throws. *)
Definition parse_payload (h : Host) (payload : option string)
  : outcome (option Response) :=
  match payload with
  | Some text => JSON_parse h text
  | None => Throw (SyntaxError "undefined is not valid JSON")
  end.

(** Whether an entry cached at [timeCached] is still trusted (line 463):
    [getResponseInvalidationTime(period) > Date.now() - result.timeCached]. *)
Definition isFresh (h : Host) (c : MgtSearchResults) (result : CacheResponse)
  : bool :=
  gt_num (getResponseInvalidationTime h (cacheInvalidationPeriod c))
         (sub_num (Some (now h)) (timeCached result)).

(** Lines 461-465, the body of [if (this.shouldRetrieveCache())]. *)
Definition readCache (h : Host) (c : MgtSearchResults) (key : string)
  : M (option Response) :=
  let* result :=
    (if getIsResponseCacheEnabled h
     then emit [EvCacheGet key] ;; await (getValue h key)
     else ret None) in
  match result with
  | Some result =>
      if isFresh h c result
      then await (parse_payload h (cr_response result))
      else ret None
  | None => ret None
  end.

(** Lines 460-466: [if (this.shouldRetrieveCache()) { ... }], the local
    [response] staying [null] otherwise. *)
Definition cacheStage (h : Host) (c : MgtSearchResults) (key : string)
  : M (option Response) :=
  if shouldRetrieveCache h c then readCache h c key else ret None.

(** Replaces [response.value[0].hitsContainers[0].hits]. *)
Definition set_hits (hs : list SearchHit) (r : Response) : Response :=
  {| value :=
       alter (λ v,
                {| hitsContainers :=
                     alter (λ hc, {| hits := Some hs; total := total hc;
                                     moreResultsAvailable :=
                                       moreResultsAvailable hc |})
                           0%nat (hitsContainers v) |})
             0%nat (value r) |}.

(** Lines 478-526, the body of [if (this.fetchThumbnail)].  Reading
    [response.value[0].hitsContainers[0].hits.length] throws when any link
    of that chain is missing; this happens outside the inner [try]. *)
Definition thumbnailPhase (h : Host) (r : option Response)
  : M (option Response) :=
  match first_container r ≫= hits with
  | None => throw (TypeError "Cannot read properties of undefined")
  | Some hs =>
      let '(hs', evs) := augmentThumbnails h hs in
      emit evs ;; ret (set_hits hs' <$> r)
  end.

(** [this.scopes && this.scopes.length] selects the scopes handed to the
    request. *)
Definition requestScopes (c : MgtSearchResults) : list string :=
  default [] (scopes c).

(** Lines 532-535: [if (this.shouldUpdateCache() && response)] the response
    is written to the store. *)
Definition storeEvents (h : Host) (c : MgtSearchResults) (key : string)
    (r : option Response) : list Event :=
  match r with
  | Some body =>
      if shouldUpdateCache h c
      then [EvCachePut key (JSON_stringify_response h body)]
      else []
  | None => []
  end.

(** Lines 469-535, the body of [if (!response)]. *)
Definition fetchPath (h : Host) (c : MgtSearchResults) (key : string)
    (requestOptions : json) : M (option Response) :=
  let body := JObj [("requests", JArr [requestOptions])] in
  emit [EvPost (version c) (requestScopes c) body] ;;
  let* r := await (post h (version c) (requestScopes c) body) in
  let* r := (if fetchThumbnail c then thumbnailPhase h r else ret r) in
  assign_response r ;;
  emit (storeEvents h c key r) ;;
  ret r.

(** Lines 451-540, the body of the outer [try].  The properties of [this]
    it reads but never assigns are taken from [c]. *)
Definition tryBlock (h : Host) (c : MgtSearchResults) : M unit :=
  let requestOptions := getRequestOptions c in
  let key := stringify_string (keyObject (version c) requestOptions) in
  let* cached := cacheStage h c key in
  let* r :=
    match cached with
    | Some _ => ret cached
    | None => fetchPath h c key requestOptions
    end in
  assign_response r.

(** Lines 541-547: [catch (e) { this.error = e; }], then
    [if (this.response) { this.error = null; }]. *)
Definition catchAndClear (r : outcome unit) (c : MgtSearchResults)
  : MgtSearchResults :=
  let c := match r with
           | Ok _ => c
           | Throw e => with_error (Some e) c
           end in
  match response c with
  | Some _ => with_error None c
  | None => c
  end.

(** [loadState()]: the component after the call and the events of the
    call. *)
Definition loadState (h : Host) (c : MgtSearchResults) : St :=
  let c := with_error None c in
  if negb (signedIn h) then (c, [])
  else
    let '(c, tr) :=
      if truthy_str (queryString c) then
        let '((c, tr), r) := tryBlock h c (c, []) in
        (catchAndClear r c, tr)
      else (with_response None c, []) in
    let c := with_isRefreshing false c in
    (c, tr ++ [EvDataChange (response c) (error c)]).

(* ------------------------------------------------------------------ *)
(** ** Observations on a run of [loadState] *)

Definition isPost (e : Event) : bool :=
  match e with EvPost _ _ _ => true | _ => false end.

Definition isExecuteAll (beta : bool) (e : Event) : bool :=
  match e with EvExecuteAll b _ => Bool.eqb b beta | _ => false end.

Definition isThumbnail (e : Event) : bool :=
  match e with EvThumbnail _ _ => true | _ => false end.

(** The number of search requests sent during a run. *)
Definition posts (tr : list Event) : nat := length (List.filter isPost tr).

(** What the cache stage of [loadState] yields for the local [response],
    and the events it causes. *)
Definition cacheResult (h : Host) (c : MgtSearchResults)
  : outcome (option Response) :=
  snd (cacheStage h c (cacheKey c) (c, [])).

Definition cacheEvents (h : Host) (c : MgtSearchResults) : list Event :=
  snd (fst (cacheStage h c (cacheKey c) (c, []))).

(** The host with another cache store behind [getValue]. *)
Definition with_getValue (g : string → outcome (option CacheResponse))
    (h : Host) : Host :=
  {| signedIn := signedIn h; config := config h; now := now h;
     getValue := g; JSON_parse := JSON_parse h;
     JSON_stringify_response := JSON_stringify_response h;
     post := post h; executeAll := executeAll h;
     executeAllBeta := executeAllBeta h |}.

(** The request body [{ requests: [requestOptions] }] of the component. *)
Definition requestBody (c : MgtSearchResults) : json :=
  JObj [("requests", JArr [getRequestOptions c])].

(** The hits of a response body, when it has the chain
    [value[0].hitsContainers[0].hits]. *)
Definition hits_of (r : option Response) : option (list SearchHit) :=
  first_container r ≫= hits.

(** A run of consecutive page numbers with as many pages before [p] as
    after it. *)
Definition centered_on (p : Z) (l : list Z) : Prop :=
  ∃ k : nat, l = seqZ (p - Z.of_nat k) (2 * Z.of_nat k + 1).

(** Every thumbnail is attached after both batches have been awaited. *)
Definition thumbnails_after_both_batches (tr : list Event) : Prop :=
  ∀ pre i t suf,
    tr = pre ++ EvThumbnail i t :: suf →
    existsb (isExecuteAll false) pre = true ∧
    existsb (isExecuteAll true) pre = true.

(* ------------------------------------------------------------------ *)
(** ** Concrete components, responses and hosts *)

Module Examples.

Definition parent : ParentReference :=
  {| siteId := Some "site-1"; driveId := Some "drive-1" |}.

Definition hit_site : SearchHit :=
  {| hitId := "h-site";
     resource := {| odata_type := "#microsoft.graph.site"; id := "s";
                    size := None; webUrl := Some "https://contoso/sites/a";
                    parentReference := parent; thumbnail := None |} |}.

Definition hit_person : SearchHit :=
  {| hitId := "h-person";
     resource := {| odata_type := "#microsoft.graph.person"; id := "p";
                    size := None; webUrl := None;
                    parentReference := parent; thumbnail := None |} |}.

Definition hit_file : SearchHit :=
  {| hitId := "h-file";
     resource := {| odata_type := driveItemType; id := "f";
                    size := Some 2048%Z;
                    webUrl := Some "https://contoso/docs/plan.docx";
                    parentReference := parent; thumbnail := None |} |}.

Definition hit_page : SearchHit :=
  {| hitId := "h-page";
     resource := {| odata_type := listItemType; id := "n";
                    size := None;
                    webUrl := Some "https://contoso/SitePages/news.aspx";
                    parentReference := parent; thumbnail := None |} |}.

Definition response_with (hs : list SearchHit) : Response :=
  response_of_container
    {| hits := Some hs; total := Some (Z.of_nat (length hs));
       moreResultsAvailable := Some false |}.

(** A component searching for "contoso". *)
Definition component (fetch cache : bool) (held : option Response)
  : MgtSearchResults :=
  {| _queryString := Val "contoso"; queryTemplate := None;
     _entityTypes := ["driveItem"; "listItem"; "site"];
     scopes := Some []; contentSources := Val []; version := "v1.0";
     _size := 10; pagingMax := 7; fetchThumbnail := fetch;
     fields := None; enableTopResults := false; cacheEnabled := cache;
     cacheInvalidationPeriod := Some 30000%Z; response := held;
     isRefreshing := false; _currentPage := 1; error := None;
     isLoadingState := true |}.

Definition config_default : CacheConfig :=
  {| isEnabled := true; response_isEnabled := true;
     response_invalidationPeriod := None;
     defaultInvalidationPeriod := Some 3600000%Z |}.

(** A batch that answers every request with the given thumbnail urls. *)
Definition batch_ok (u : string) (reqs : list BatchRequest)
  : outcome (option BatchMap) :=
  Ok (Some (map (λ r, (req_id r,
                       {| content :=
                            {| content_url := Some (u +:+ req_id r);
                               content_thumbnailWebUrl :=
                                 Some (u +:+ "page-" +:+ req_id r) |} |}))
                reqs)).

Definition batch_fails (reqs : list BatchRequest)
  : outcome (option BatchMap) :=
  Throw (HostError "Failed to fetch").

(** A signed-in host at time [t] whose store holds [entry] under every
    key, whose [JSON.parse] yields [parsed] and whose search request
    yields [answer]. *)
Definition host (t : Z) (entry : option CacheResponse)
    (parsed answer : outcome (option Response))
    (batch batchBeta : list BatchRequest → outcome (option BatchMap))
  : Host :=
  {| signedIn := true; config := config_default; now := t;
     getValue := λ _, Ok entry;
     JSON_parse := λ _, parsed;
     JSON_stringify_response := λ _, "<response>";
     post := λ _ _ _, answer;
     executeAll := batch;
     executeAllBeta := batchBeta |}.

Definition network_error : exn := HostError "Failed to fetch".
Definition bad_json : exn := SyntaxError "Unexpected end of JSON input".

(** Only the hit at index 2 is of a supported kind. *)
Definition hits_one_file : list SearchHit := [hit_site; hit_person; hit_file].

(** A drive item at index 0 and a page (list item) at index 1. *)
Definition hits_file_and_page : list SearchHit := [hit_file; hit_page].

Definition thumbs : string := "https://thumbs/".

(** No cache entry; the search answers [hs]; both batches answer. *)
Definition host_online (hs : list SearchHit) : Host :=
  host 0 None (Ok None) (Ok (Some (response_with hs)))
       (batch_ok thumbs) (batch_ok thumbs).

(** As [host_online], but the beta batch fails. *)
Definition host_beta_fails (hs : list SearchHit) : Host :=
  host 0 None (Ok None) (Ok (Some (response_with hs)))
       (batch_ok thumbs) batch_fails.

(** As [host_online], but the v1.0 batch fails. *)
Definition host_batch_fails (hs : list SearchHit) : Host :=
  host 0 None (Ok None) (Ok (Some (response_with hs)))
       batch_fails (batch_ok thumbs).

(** The search request fails. *)
Definition host_offline : Host :=
  host 0 None (Ok None) (Throw network_error) batch_fails batch_fails.

(** An entry written at time 1000. *)
Definition entry : CacheResponse :=
  {| cr_response := Some "{...}"; timeCached := Some 1000%Z |}.

(** At time [t] the store holds [entry], whose payload parses to the
    response with [hits_one_file]; the network is down. *)
Definition host_cached (t : Z) : Host :=
  host t (Some entry) (Ok (Some (response_with hits_one_file)))
       (Throw network_error) batch_fails batch_fails.

(** At time 5000 the store holds [entry], whose payload does not parse;
    the network is up. *)
Definition host_bad_payload : Host :=
  host 5000 (Some entry) (Throw bad_json)
       (Ok (Some (response_with hits_one_file)))
       (batch_ok thumbs) (batch_ok thumbs).

End Examples.
(* ------------------------------------------------------------------ *)
(** ** Page navigation and refresh *)

(** What a click handler asks for besides assigning properties. *)
Inductive Action : Type :=
| Update (r : Request)
| ScrollToFirstResult.

(** [this.currentPage = value; this.scrollToFirstResult();], the body the
    four page handlers share. *)
Definition goToPage (value : Z) (c : MgtSearchResults)
  : MgtSearchResults * list Action :=
  (fst (set_currentPage value c),
   (Update <$> snd (set_currentPage value c)) ++ [ScrollToFirstResult]).

(** [onPageClick(pageNumber)]. *)
Definition onPageClick (pageNumber : Z) (c : MgtSearchResults) :=
  goToPage pageNumber c.

(** [onFirstPageClick()]. *)
Definition onFirstPageClick (c : MgtSearchResults) := goToPage 1 c.

(** [onPageBackClick(page)]: [this.currentPage--]. *)
Definition onPageBackClick (c : MgtSearchResults) :=
  goToPage (currentPage c - 1) c.

(** [onPageNextClick(page)]: [this.currentPage++]. *)
Definition onPageNextClick (c : MgtSearchResults) :=
  goToPage (currentPage c + 1) c.

(** The pages the controls of a rendered footer lead to, each through the
    handler its template wires to it. *)
Definition footer_targets (c : MgtSearchResults) (f : Footer) : list Z :=
  (if previousPage f then [currentPage (fst (onPageBackClick c))] else []) ++
  match firstPage f with
  | NoFirstPage => []
  | FirstPageButton dots =>
      currentPage (fst (onFirstPageClick c)) ::
      match dots with
      | Some target => [currentPage (fst (onPageClick target c))]
      | None => []
      end
  end ++
  map (λ b, currentPage (fst (onPageClick (pb_number b) c))) (allPages f) ++
  (if nextPage f then [currentPage (fst (onPageNextClick c))] else []).

(** [clearState()]. *)
Definition clearState (c : MgtSearchResults) : MgtSearchResults :=
  with_response None c.

(** [refresh(hardRefresh)]. *)
Definition refresh (hardRefresh : bool) (c : MgtSearchResults)
  : MgtSearchResults * list Request :=
  let c := with_isRefreshing true c in
  let c := if hardRefresh then clearState c else c in
  (c, [RequestStateUpdate hardRefresh]).

(* ------------------------------------------------------------------ *)
(** ** The kind of a result and the view that renders it *)

(** [s.split(sep)] for a one-character separator. *)
Fixpoint split_on (sep : ascii) (s : string) : list string :=
  match s with
  | EmptyString => [EmptyString]
  | String ch rest =>
      if Ascii.eqb ch sep then EmptyString :: split_on sep rest
      else match split_on sep rest with
           | seg :: segs => String ch seg :: segs
           | [] => [String ch EmptyString]
           end
  end.

Definition dot : ascii := "."%char.

(** [getResourceType(resource)]:
    [resource['@odata.type'].split('.').pop()]. *)
Definition getResourceType (r : Resource) : string :=
  default EmptyString (last (split_on dot (odata_type r))).

(** What [renderResult] renders a hit with. *)
Inductive ResultView : Type :=
| TemplateView (name : string)
| DriveItemView
| SiteView
| PersonView
| ListView
| ListItemView
| BookmarkView
| DefaultView.

(** [renderResult(result)]; [hasTemplate] is the base class's test for a
    template of that name among the component's children. *)
Definition renderResult (hasTemplate : string → bool) (result : SearchHit)
  : ResultView :=
  let type := getResourceType (resource result) in
  if hasTemplate ("result-" +:+ type) then TemplateView ("result-" +:+ type)
  else
    let t := odata_type (resource result) in
    if String.eqb t "#microsoft.graph.driveItem" then DriveItemView
    else if String.eqb t "#microsoft.graph.site" then SiteView
    else if String.eqb t "#microsoft.graph.person" then PersonView
    else if String.eqb t "#microsoft.graph.drive" then ListView
    else if String.eqb t "#microsoft.graph.list" then ListView
    else if String.eqb t "#microsoft.graph.listItem" then ListItemView
    else if String.eqb t "#microsoft.graph.search.bookmark" then BookmarkView
    else DefaultView.

(** The views that show [resource.thumbnail.url] when it is there
    ([renderDriveItem] and [renderListItem]). *)
Definition shows_thumbnail (v : ResultView) : bool :=
  match v with
  | DriveItemView | ListItemView => true
  | _ => false
  end.

(* ------------------------------------------------------------------ *)
(** ** Reading back an escaped string *)

Definition hex_value (ch : ascii) : nat :=
  let n := nat_of_ascii ch in
  if (n <? 58)%nat then (n - 48)%nat else (n - 87)%nat.

(** The character an escape sequence at the head of a string stands for,
    and the rest of the string. *)
Definition unescape_head (s : string) : option (ascii * string) :=
  match s with
  | EmptyString => None
  | String b rest =>
      if negb (nat_of_ascii b =? 92)%nat then Some (b, rest)
      else
        match rest with
        | EmptyString => None
        | String k rest' =>
            let n := nat_of_ascii k in
            if (n =? 34)%nat then Some (dquote, rest')
            else if (n =? 92)%nat then Some (backslash, rest')
            else if (n =? 98)%nat then Some (ascii_of_nat 8, rest')
            else if (n =? 102)%nat then Some (ascii_of_nat 12, rest')
            else if (n =? 110)%nat then Some (ascii_of_nat 10, rest')
            else if (n =? 114)%nat then Some (ascii_of_nat 13, rest')
            else if (n =? 116)%nat then Some (ascii_of_nat 9, rest')
            else
              match rest' with
              | String _ (String _ (String h1 (String h2 rest''))) =>
                  Some (ascii_of_nat (16 * hex_value h1 + hex_value h2), rest'')
              | _ => None
              end
        end
  end.

(* ------------------------------------------------------------------ *)
(** ** mgt-teams-provider *)

Module Teams.

(** [Configuration] of msal, the part the provider fills in. *)
Record MsalConfiguration : Type := mkMsalConfiguration {
  auth_authority : string;
  auth_clientId : string
}.

Record TeamsConfig : Type := mkTeamsConfig {
  cfg_authPopupUrl : string;
  cfg_clientId : string;
  cfg_scopes : option (list string);
  cfg_msalOptions : option MsalConfiguration;
  cfg_baseURL : option string
}.

(** The properties of [MgtTeamsProvider]. *)
Record MgtTeamsProvider : Type := mkMgtTeamsProvider {
  clientId : string;
  authPopupUrl : string;
  authority : option string;
  scopes : option string;
  baseUrl : option string
}.

Definition comma : ascii := ","%char.

(** [initializeProvider()]: the configuration the [TeamsProvider] is
    created with and made the global provider, [None] when the method does
    nothing.  [validateBaseURL] is the helper of mgt-element, [None] being
    its [undefined]. *)
Definition initializeProvider (validateBaseURL : string → option string)
    (p : MgtTeamsProvider) : option TeamsConfig :=
  if truthy_str (Some (clientId p)) && truthy_str (Some (authPopupUrl p)) then
    let config_scopes :=
      match scopes p with
      | Some (String a r) =>
          let scope := split_on comma (String a r) in
          if (0 <? length scope)%nat then Some scope else None
      | _ => None
      end in
    let config_msalOptions :=
      match authority p with
      | Some (String a r) =>
          Some {| auth_authority := String a r; auth_clientId := clientId p |}
      | _ => None
      end in
    let config_baseURL :=
      match baseUrl p with
      | Some (String a r) =>
          match validateBaseURL (String a r) with
          | Some (String a' r') => Some (String a' r')
          | _ => None
          end
      | _ => None
      end in
    Some {| cfg_authPopupUrl := authPopupUrl p; cfg_clientId := clientId p;
            cfg_scopes := config_scopes; cfg_msalOptions := config_msalOptions;
            cfg_baseURL := config_baseURL |}
  else None.

End Teams.

(* ------------------------------------------------------------------ *)
(** ** mgt-dot-options *)

Module DotOptions.

(** The [open] property and, in the order they ran, the names of the
    options whose handler was called. *)
Record Menu : Type := mkMenu {
  open : option bool;
  called : list string
}.

(** [!this.open]; [undefined] counts as closed. *)
Definition toggled (o : option bool) : option bool :=
  Some (negb (default false o)).

(** The events the component listens to.  Every handler of the component
    stops the propagation of the event it handles, so a click on the dots
    or on an option does not reach the listener on [window].  The handlers
    of the options, which the page supplies, are taken to return and to
    leave the menu alone. *)
Inductive DomEvent : Type :=
| ClickDots
| KeydownDots (code : string)
| ClickOption (name : string)
| KeydownOption (name : string) (code : string)
| ClickElsewhere.

(** [onDotClick], [onDotKeydown], the two handlers of [getMenuOption] and
    [_clickHandler]. *)
Definition handle (m : Menu) (e : DomEvent) : Menu :=
  match e with
  | ClickDots => {| open := toggled (open m); called := called m |}
  | KeydownDots code =>
      if String.eqb code "Enter"
      then {| open := toggled (open m); called := called m |}
      else m
  | ClickOption name => {| open := Some false; called := called m ++ [name] |}
  | KeydownOption name code =>
      if String.eqb code "Enter" || String.eqb code "Space"
      then {| open := Some false; called := called m ++ [name] |}
      else m
  | ClickElsewhere => {| open := Some false; called := called m |}
  end.

Definition handle_all (m : Menu) (es : list DomEvent) : Menu :=
  foldl handle m es.

(** The option an event chooses, if it chooses one. *)
Definition chosen (e : DomEvent) : option string :=
  match e with
  | ClickOption name => Some name
  | KeydownOption name code =>
      if String.eqb code "Enter" || String.eqb code "Space" then Some name
      else None
  | _ => None
  end.

(** Whether an event closes the menu whatever its state. *)
Definition closes (e : DomEvent) : bool :=
  match e with
  | ClickElsewhere => true
  | _ => bool_decide (is_Some (chosen e))
  end.

End DotOptions.

(* ------------------------------------------------------------------ *)
(** ** More observations on a run *)

Definition isCacheGet (e : Event) : bool :=
  match e with EvCacheGet _ => true | _ => false end.

Definition isCachePut (e : Event) : bool :=
  match e with EvCachePut _ _ => true | _ => false end.

(** The events that reach something outside the component: the store, the
    search endpoint, a batch. *)
Definition isExternal (e : Event) : bool :=
  match e with
  | EvCacheGet _ | EvPost _ _ _ | EvExecuteAll _ _ | EvCachePut _ _ => true
  | EvThumbnail _ _ | EvDataChange _ _ => false
  end.

(** The events of the thumbnail augmentation. *)
Definition isBatchEvent (e : Event) : bool :=
  match e with
  | EvExecuteAll _ _ | EvThumbnail _ _ => true
  | _ => false
  end.

(** A hit with its thumbnail taken away: what the augmentation must not
    change. *)
Definition without_thumbnail (element : SearchHit) : SearchHit :=
  let r := resource element in
  {| hitId := hitId element;
     resource := {| odata_type := odata_type r; id := id r; size := size r;
                    webUrl := webUrl r; parentReference := parentReference r;
                    thumbnail := None |} |}.

(** Whether a character occurs in a string. *)
Fixpoint has_char (ch : ascii) (s : string) : bool :=
  match s with
  | EmptyString => false
  | String a rest => Ascii.eqb a ch || has_char ch rest
  end.

(** The text of an object with the given members. *)
Definition obj_text (members : list string) : string :=
  "{" +:+ String.concat "," members +:+ "}".

(* ------------------------------------------------------------------ *)
(** ** The cache key as a text

    What [JSON.stringify] prints for the object of lines 454-457 and the
    object [getRequestOptions] builds, written out member by member: a
    member whose value is [undefined] is not printed, one whose value is
    [null] is printed as [null]. *)

(** The member [key:text] of an object, or nothing. *)
Definition member_text (key : string) (text : option string) : list string :=
  match text with
  | Some t => [quote key +:+ ":" +:+ t]
  | None => []
  end.

(** An array of strings. *)
Definition strings_text (l : list string) : string :=
  "[" +:+ String.concat "," (quote <$> l) +:+ "]".

(** [x ? x : undefined] for a number. *)
Definition number_text (z : Z) : option string :=
  if (z =? 0)%Z then None else Some (pretty z).

Definition query_text (c : MgtSearchResults) : string :=
  obj_text
    (member_text "queryString"
       (match queryString c with
        | Val q => Some (quote q)
        | Null => Some "null"
        | Undefined => None
        end) ++
     (if String.eqb (version c) "beta"
      then member_text "queryTemplate"
             (if truthy_str (queryTemplate c) then quote <$> queryTemplate c
              else None)
      else [])).

Definition requestOptions_text (c : MgtSearchResults) : string :=
  obj_text
    (member_text "entityTypes" (Some (strings_text (_entityTypes c))) ++
     member_text "query" (Some (query_text c)) ++
     member_text "from" (number_text (from c)) ++
     member_text "size" (number_text (size_ c)) ++
     member_text "fields"
       ((λ fs, strings_text (DEFAULT_FIELDS ++ fs)) <$> fields c) ++
     member_text "enableTopResults"
       (if enableTopResults c then Some "true" else None) ++
     (if includes "externalItem" (_entityTypes c)
      then member_text "contentSources"
             (match contentSources c with
              | Val l => Some (strings_text l)
              | Null => Some "null"
              | Undefined => None
              end)
      else [])).

(** The key for the endpoint of version [v] and request options printed
    as [options]. *)
Definition key_text (v : string) (options : string) : string :=
  obj_text
    (member_text "endpoint" (Some (quote (v +:+ "/search/query"))) ++
     member_text "requestOptions" (Some options)).

(* ================================================================== *)
(** * Properties *)

(** ** JavaScript values *)

Example endsWith_aspx :
  endsWith "https://contoso/SitePages/news.aspx" ".aspx" = true ∧
  endsWith "https://contoso/docs/plan.docx" ".aspx" = false ∧
  endsWith "spx" ".aspx" = false.
Proof. repeat split; reflexivity. Qed.

Example ceil_quot_samples :
  ceil_quot (Some 95%Z) 10 = Num 10 ∧
  ceil_quot (Some 100%Z) 10 = Num 10 ∧
  ceil_quot (Some 95%Z) 0 = PosInf ∧
  ceil_quot None 10 = NaN.
Proof. repeat split; reflexivity. Qed.

Example eligible_samples :
  eligible (resource Examples.hit_file) = true ∧
  eligible (resource Examples.hit_page) = true ∧
  eligible (resource Examples.hit_site) = false ∧
  eligible (resource Examples.hit_person) = false.
Proof. repeat split; reflexivity. Qed.

(** [hits[key]] finds an element only under the decimal name of its index. *)
Example lookup_key_samples :
  lookup_key Examples.hits_one_file "2" = Some (2%nat, Examples.hit_file) ∧
  lookup_key Examples.hits_one_file "02" = None ∧
  lookup_key Examples.hits_one_file "3" = None.
Proof. repeat split; vm_compute; reflexivity. Qed.

(** ** JSON *)

Lemma json_nested_ind (P : json → Prop) :
  P JUndefined → P JNull → (∀ b, P (JBool b)) → (∀ z, P (JNum z)) →
  (∀ s, P (JStr s)) →
  (∀ items, Forall P items → P (JArr items)) →
  (∀ props, Forall (λ p, P (snd p)) props → P (JObj props)) →
  ∀ j, P j.
Proof.
  intros Hu Hn Hb Hz Hs Ha Ho.
  fix IH 1. intros [| | b | z | s | items | props].
  - exact Hu.
  - exact Hn.
  - apply Hb.
  - apply Hz.
  - apply Hs.
  - apply Ha. induction items as [|x items IHitems]; constructor;
      [apply IH | exact IHitems].
  - apply Ho. induction props as [|x props IHprops]; constructor;
      [apply IH | exact IHprops].
Qed.

Lemma is_undefined_defined_part j :
  is_undefined (defined_part j) = is_undefined j.
Proof. destruct j; reflexivity. Qed.

Lemma stringify_undefined j : is_undefined j = true → stringify j = None.
Proof. destruct j; simpl; congruence. Qed.

Lemma stringify_defined_part j : stringify (defined_part j) = stringify j.
Proof.
  induction j as [| | b | z | s | items IH | props IH] using json_nested_ind;
    try reflexivity.
  - simpl.
    assert (map (λ x, default "null" (stringify x)) (map defined_part items)
            = map (λ x, default "null" (stringify x)) items) as ->;
      [|reflexivity].
    induction IH as [|x items Hx _ IHitems]; simpl; [reflexivity|].
    rewrite Hx, IHitems. reflexivity.
  - simpl.
    match goal with
    | |- Some (_ +:+ String.concat _ ?l1 +:+ _)
         = Some (_ +:+ String.concat _ ?l2 +:+ _) =>
        assert (l1 = l2) as ->; [|reflexivity]
    end.
    induction IH as [|[k v] props Hx _ IHprops]; [reflexivity|].
    cbn [omap list_omap fst snd] in *.
    destruct (is_undefined v) eqn:Hv.
    + rewrite (stringify_undefined v Hv). cbn [fmap option_fmap option_map].
      exact IHprops.
    + cbn [omap list_omap fst snd]. rewrite Hx, IHprops. reflexivity.
Qed.

Lemma stringify_keyObject_ext v ro1 ro2 :
  stringify ro1 = stringify ro2 →
  stringify_string (keyObject v ro1) = stringify_string (keyObject v ro2).
Proof.
  intros H. unfold stringify_string, keyObject.
  cbn [stringify omap list_omap fst snd]. rewrite H. reflexivity.
Qed.

(** ** The cache key *)

Example cacheKey_initial :
  cacheKey (with_queryString (Val "contoso") initial) =
  unq "{'endpoint':'v1.0/search/query','requestOptions':{'entityTypes':['driveItem','listItem','site'],'query':{'queryString':'contoso'},'size':10}}".
Proof. vm_compute. reflexivity. Qed.

Example cacheKey_page3 :
  cacheKey (with_currentPage 3 (with_queryString (Val "a b") initial)) =
  unq "{'endpoint':'v1.0/search/query','requestOptions':{'entityTypes':['driveItem','listItem','site'],'query':{'queryString':'a b'},'from':20,'size':10}}".
Proof. vm_compute. reflexivity. Qed.


(** The builder does not sort the properties: the same properties written
    in another order give another key. *)
Example cacheKey_order_matters :
  stringify_string
    (keyObject "v1.0" (JObj [("from", JNum 10); ("size", JNum 10)])) ≠
  stringify_string
    (keyObject "v1.0" (JObj [("size", JNum 10); ("from", JNum 10)])).
Proof. vm_compute. discriminate. Qed.

(** The key of a component depends on the component only through the
    properties [getRequestOptions] reads and [version]. *)
Lemma cacheKey_same_state (c1 c2 : MgtSearchResults) :
  version c1 = version c2 →
  _entityTypes c1 = _entityTypes c2 →
  queryString c1 = queryString c2 →
  queryTemplate c1 = queryTemplate c2 →
  from c1 = from c2 →
  size_ c1 = size_ c2 →
  fields c1 = fields c2 →
  enableTopResults c1 = enableTopResults c2 →
  contentSources c1 = contentSources c2 →
  cacheKey c1 = cacheKey c2.
Proof.
  intros Hv He Hq Ht Hf Hs Hfs Het Hc.
  unfold cacheKey, getRequestOptions, getFields.
  rewrite Hv, He, Hq, Ht, Hf, Hs, Hfs, Het, Hc. reflexivity.
Qed.

Lemma list_bind_nil {A B} (f : A → list B) : [] ≫= f = [].
Proof. reflexivity. Qed.

(** [JSON.stringify] member by member. *)
Lemma stringify_JObj (props : list (string * json)) :
  stringify (JObj props) =
  Some (obj_text (props ≫= λ p, member_text (fst p) (stringify (snd p)))).
Proof.
  assert (H : omap (λ p, (λ s, quote (fst p) +:+ ":" +:+ s)
                           <$> stringify (snd p)) props
              = props ≫= λ p, member_text (fst p) (stringify (snd p))).
  { induction props as [|[k v] props IH]; [reflexivity|].
    cbn [omap list_omap fst snd mbind list_bind]. rewrite IH.
    destruct (stringify v); reflexivity. }
  unfold obj_text. cbn [stringify]. rewrite H. reflexivity.
Qed.

Lemma stringify_jstrings (l : list string) :
  stringify (jstrings l) = Some (strings_text l).
Proof.
  assert (H : map (λ x, default "null" (stringify x)) (map JStr l)
              = quote <$> l).
  { induction l as [|x l IH]; [reflexivity|].
    cbn [map fmap list_fmap]. f_equal. exact IH. }
  unfold jstrings, strings_text. cbn [stringify]. rewrite H. reflexivity.
Qed.

Lemma stringify_num_or_undefined (z : Z) :
  stringify (num_or_undefined z) = number_text z.
Proof. unfold num_or_undefined, number_text. destruct (z =? 0)%Z; reflexivity. Qed.

Lemma stringify_query (c : MgtSearchResults) :
  stringify
    (JObj ([("queryString", opt_str (queryString c))] ++
           (if String.eqb (version c) "beta"
            then [("queryTemplate", str_or_undefined (queryTemplate c))]
            else []))) =
  Some (query_text c).
Proof.
  rewrite stringify_JObj. unfold query_text. do 2 f_equal.
  rewrite bind_app, bind_singleton. cbn [fst snd]. f_equal.
  - destruct (queryString c); reflexivity.
  - destruct (String.eqb (version c) "beta"); [|reflexivity].
    rewrite bind_singleton. cbn [fst snd].
    destruct (queryTemplate c) as [[|a r]|]; reflexivity.
Qed.

Lemma stringify_getFields (c : MgtSearchResults) :
  stringify (getFields c) =
  (λ fs, strings_text (DEFAULT_FIELDS ++ fs)) <$> fields c.
Proof.
  unfold getFields. destruct (fields c) as [fs|]; [|reflexivity].
  apply stringify_jstrings.
Qed.

Lemma stringify_opt_strings (l : nullable (list string)) :
  stringify (opt_strings l) =
  match l with
  | Val l => Some (strings_text l)
  | Null => Some "null"
  | Undefined => None
  end.
Proof. destruct l as [| |l]; try reflexivity. apply stringify_jstrings. Qed.

(** The object [getRequestOptions] builds is printed as
    [requestOptions_text]. *)
Lemma stringify_getRequestOptions (c : MgtSearchResults) :
  stringify (getRequestOptions c) = Some (requestOptions_text c).
Proof.
  unfold getRequestOptions. cbv zeta. rewrite stringify_JObj.
  unfold requestOptions_text. do 2 f_equal.
  rewrite bind_app, !bind_cons, list_bind_nil, app_nil_r. cbn [fst snd].
  rewrite stringify_jstrings, stringify_query, !stringify_num_or_undefined,
    stringify_getFields, <- !app_assoc.
  do 5 f_equal.
  f_equal; [destruct (enableTopResults c); reflexivity|].
  destruct (includes "externalItem" (_entityTypes c)); [|reflexivity].
  rewrite bind_singleton. cbn [fst snd].
  rewrite stringify_opt_strings. reflexivity.
Qed.

(** The key built from an object that is printed as [t]. *)
Lemma keyObject_text (v : string) (ro : json) (t : string) :
  stringify ro = Some t →
  stringify_string (keyObject v ro) = key_text v t.
Proof.
  intros H. unfold stringify_string, keyObject. rewrite stringify_JObj.
  rewrite !bind_cons, list_bind_nil, app_nil_r. cbn [fst snd stringify].
  rewrite H. reflexivity.
Qed.

Lemma string_app_assoc (a b c : string) :
  (a +:+ b) +:+ c = a +:+ (b +:+ c).
Proof.
  induction a as [|ch a IH]; [reflexivity|].
  change (String ch ((a +:+ b) +:+ c) = String ch (a +:+ (b +:+ c))).
  f_equal. exact IH.
Qed.

Lemma key_text_unfold (v t : string) :
  key_text v t =
  "{" +:+ quote "endpoint" +:+ ":" +:+ quote (v +:+ "/search/query")
  +:+ "," +:+ quote "requestOptions" +:+ ":" +:+ t +:+ "}".
Proof.
  unfold key_text, obj_text, member_text. cbn [app String.concat].
  rewrite !string_app_assoc. reflexivity.
Qed.

(** C9. The cache key of a component is the JSON text of
    [{endpoint, requestOptions}]: the object with the member [endpoint],
    the version followed by [/search/query], and the member
    [requestOptions], the text of the object [getRequestOptions] builds,
    which has the members [entityTypes], [query], [from], [size],
    [fields], [enableTopResults] and [contentSources] in this order, those
    that are [undefined] left out.  The builder gives two option objects
    with the same defined properties in the same order the same key, the
    text of [{endpoint, requestOptions}] for the text they are printed as;
    so every such object built for the state of the component gives the key
    of the component. *)
Theorem cache_key_deterministic
    (c : MgtSearchResults) (ro1 ro2 : json) (t : string) :
  defined_part ro1 = defined_part ro2 →
  stringify ro1 = Some t →
  (stringify_string (keyObject (version c) ro1) =
     "{" +:+ quote "endpoint" +:+ ":" +:+ quote (version c +:+ "/search/query")
     +:+ "," +:+ quote "requestOptions" +:+ ":" +:+ t +:+ "}" ∧
   stringify_string (keyObject (version c) ro2) =
     stringify_string (keyObject (version c) ro1)) ∧
  cacheKey c = key_text (version c) (requestOptions_text c) ∧
  (defined_part ro1 = defined_part (getRequestOptions c) →
   t = requestOptions_text c ∧
   stringify_string (keyObject (version c) ro1) = cacheKey c ∧
   stringify_string (keyObject (version c) ro2) = cacheKey c).
Proof.
  intros Heq Ht.
  assert (Ht2 : stringify ro2 = Some t).
  { rewrite <- (stringify_defined_part ro2), <- Heq, stringify_defined_part.
    exact Ht. }
  assert (Hkey : cacheKey c = key_text (version c) (requestOptions_text c)).
  { unfold cacheKey. apply keyObject_text, stringify_getRequestOptions. }
  split; [split|split].
  - rewrite (keyObject_text _ ro1 t Ht). apply key_text_unfold.
  - rewrite (keyObject_text _ ro1 t Ht), (keyObject_text _ ro2 t Ht2).
    reflexivity.
  - exact Hkey.
  - intros Hc.
    assert (Hro : t = requestOptions_text c).
    { pose proof (stringify_getRequestOptions c) as Hg.
      rewrite <- (stringify_defined_part (getRequestOptions c)), <- Hc,
        stringify_defined_part, Ht in Hg. congruence. }
    rewrite (keyObject_text _ ro1 t Ht), (keyObject_text _ ro2 t Ht2), Hkey,
      Hro.
    repeat split.
Qed.

Lemma cache_key_deterministic_witness :
  let c := with_currentPage 3 (with_queryString (Val "a b") initial) in
  let ro1 := getRequestOptions c in
  let ro2 := JObj [("entityTypes", jstrings ["driveItem"; "listItem"; "site"]);
                   ("query", JObj [("queryString", JStr "a b");
                                   ("queryTemplate", JUndefined)]);
                   ("from", JNum 20); ("size", JNum 10)] in
  let t := unq "{'entityTypes':['driveItem','listItem','site'],'query':{'queryString':'a b'},'from':20,'size':10}" in
  (defined_part ro1 = defined_part ro2 ∧ stringify ro1 = Some t) ∧
  stringify_string (keyObject "v1.0" ro2) = cacheKey c ∧
  cacheKey c =
    unq "{'endpoint':'v1.0/search/query','requestOptions':{'entityTypes':['driveItem','listItem','site'],'query':{'queryString':'a b'},'from':20,'size':10}}".
Proof.
  intros c ro1 ro2 t.
  assert (H1 : defined_part ro1 = defined_part ro2) by reflexivity.
  assert (H2 : stringify ro1 = Some t) by (vm_compute; reflexivity).
  split; [split; [exact H1 | exact H2]|].
  destruct (cache_key_deterministic c ro1 ro2 t H1 H2)
    as ((Htext & _) & _ & Hsame).
  destruct (Hsame eq_refl) as (_ & Hk1 & Hk2).
  split; [exact Hk2|].
  rewrite <- Hk1. exact Htext.
Defined.

(** ** The [queryString] property *)

(** C10. Assigning a value that differs from the current query string
    ([!==]: [undefined], [null] and the strings all differ from one
    another) stores it, resets the current page to 1 and requests a forced
    reload; assigning the current value changes nothing, neither the query
    string nor the current page, and requests nothing. *)
Theorem set_queryString_resets_page
    (c : MgtSearchResults) (v : nullable string) :
  (queryString c ≠ v →
     queryString (fst (set_queryString v c)) = v ∧
     currentPage (fst (set_queryString v c)) = 1%Z ∧
     snd (set_queryString v c) = [RequestStateUpdate true]) ∧
  (queryString c = v → set_queryString v c = (c, [])).
Proof.
  unfold set_queryString, queryString.
  destruct (decide (_queryString c = v)) as [Heq|Hne]; split; intros H;
    simpl; try contradiction; auto.
Qed.

Example set_queryString_new :
  let c := with_currentPage 4 (with_queryString (Val "contoso") initial) in
  currentPage (fst (set_queryString (Val "fabrikam") c)) = 1%Z ∧
  currentPage (fst (set_queryString (Val "contoso") c)) = 4%Z.
Proof. split; reflexivity. Qed.

(** [null] assigned to a component whose query string is still [undefined]
    is a change ([undefined !== null]), assigned once more it is none. *)
Example set_queryString_null :
  let c := with_currentPage 4 initial in
  set_queryString Null c =
    (with_isLoadingState true (with_currentPage 1 (with_queryString Null c)),
     [RequestStateUpdate true]) ∧
  set_queryString Undefined c = (c, []) ∧
  set_queryString Null (fst (set_queryString Null c)) =
    (fst (set_queryString Null c), []).
Proof. repeat split; reflexivity. Qed.

(** ** Paging *)

(** The fuel [getActivePages] gives its loops is never what stops them:
    when the condition implies [i < bound], the loop has left through its
    condition after at most [bound - i] rounds, and more fuel changes
    nothing. *)
Lemma pages_for_fuel (cond : Z → list Page → bool) (bound : Z) :
  (∀ i pages, cond i pages = true → (i < bound)%Z) →
  ∀ n i pages, (Z.to_nat (bound - i) ≤ n)%nat →
    pages_for n cond i pages = pages_for (Z.to_nat (bound - i)) cond i pages.
Proof.
  intros Hcond n. induction n as [|n IH]; intros i pages Hn.
  - replace (Z.to_nat (bound - i)) with 0%nat by lia. reflexivity.
  - simpl. destruct (cond i pages) eqn:Hc.
    + apply Hcond in Hc as Hlt.
      replace (Z.to_nat (bound - i)) with (S (Z.to_nat (bound - (i + 1)))) by lia.
      simpl. rewrite Hc. apply IH. lia.
    + destruct (Z.to_nat (bound - i)); simpl; [|rewrite Hc]; reflexivity.
Qed.

Lemma getActivePages_fuel (c : MgtSearchResults) (totalResults : option Z)
    (extra : nat) :
  getActivePages c totalResults =
  let firstPage := getFirstPage c in
  if (pagingMax c - currentPage c <? firstPage + 1)%Z
     || (pagingMax c =? currentPage c)%Z
  then
    let bound := (pagingMax c + (currentPage c - 1))%Z in
    pages_for (Z.to_nat (bound - (firstPage + 1)) + extra)
      (λ i pages,
         lt_jsnum i (ceil_quot totalResults (size_ c))
         && (i <? bound)%Z
         && (Z.of_nat (length pages) <? pagingMax c - 2)%Z)
      (firstPage + 1)%Z []
  else
    pages_for (Z.to_nat (pagingMax c - firstPage) + extra)
      (λ i _, (i <? pagingMax c)%Z)
      firstPage [].
Proof.
  unfold getActivePages. cbv zeta.
  destruct ((pagingMax c - currentPage c <? getFirstPage c + 1)%Z
            || (pagingMax c =? currentPage c)%Z); symmetry.
  - apply pages_for_fuel; [|lia].
    intros i pages H. apply andb_prop in H as [H _].
    apply andb_prop in H as [_ H]. apply Z.ltb_lt, H.
  - apply pages_for_fuel; [|lia].
    intros i pages H. apply Z.ltb_lt, H.
Qed.

(** [render] never fails on its footer: [isLastPage] is only reached when
    the response has the container it reads. *)
Lemma footerTemplate_total (c : MgtSearchResults) :
  ∃ f, footerTemplate c = Ok f.
Proof.
  unfold footerTemplate, renderFooter, renderNextPage, isLastPage.
  destruct (first_container (response c)) as [hc|] eqn:Hc.
  - destruct (pagingRequired c (Some hc)); eauto.
  - unfold pagingRequired. simpl. eauto.
Qed.

(** C8. On page 1, with no more results than one page holds and the
    backend not announcing more, paging is not required and no footer is
    rendered. *)
Theorem single_page_needs_no_paging
    (c : MgtSearchResults) (hc : SearchHitsContainer) (t : Z) :
  currentPage c = 1%Z →
  total hc = Some t →
  (t ≤ size_ c)%Z →
  moreResultsAvailable hc ≠ Some true →
  pagingRequired c (Some hc) = false ∧
  renderFooter c (Some hc) = Ok None ∧
  (first_container (response c) = Some hc → footerTemplate c = Ok None).
Proof.
  intros Hpage Htotal Hle Hmore.
  assert (Hreq : pagingRequired c (Some hc) = false).
  { unfold pagingRequired. simpl. rewrite Htotal, Hpage. simpl.
    destruct (moreResultsAvailable hc) as [[]|]; simpl; try congruence;
      apply Z.ltb_ge; lia. }
  assert (Hfoot : renderFooter c (Some hc) = Ok None).
  { unfold renderFooter. rewrite Hreq. reflexivity. }
  repeat split; [exact Hreq | exact Hfoot |].
  intros Hc. unfold footerTemplate. rewrite Hc. exact Hfoot.
Qed.

Lemma single_page_needs_no_paging_witness :
  let hc := {| hits := Some [Examples.hit_file]; total := Some 7%Z;
               moreResultsAvailable := Some false |} in
  let c := Examples.component false false (Some (response_of_container hc)) in
  (currentPage c = 1%Z ∧ size_ c = 10%Z ∧ total hc = Some 7%Z ∧
   first_container (response c) = Some hc) ∧
  pagingRequired c (Some hc) = false ∧
  footerTemplate c = Ok None.
Proof.
  intros hc c.
  split; [repeat split; reflexivity|].
  destruct (single_page_needs_no_paging c hc 7%Z) as (Hreq & _ & Hfoot);
    [reflexivity | reflexivity | vm_compute; discriminate | discriminate |].
  split; [exact Hreq | apply Hfoot; reflexivity].
Defined.

(** C6, as the code has it.  With 95 results, pages of 10, page 5 and at
    most 7 page buttons (the backend not announcing more results) the
    footer holds the previous-page control, the page buttons 1 to 7 with
    page 5 active, and the next-page control.  Page 1 being one of the
    page buttons, no separate first-page button and no ellipsis is
    rendered. *)
Theorem paging_example_layout
    (c : MgtSearchResults) (hc : SearchHitsContainer) :
  currentPage c = 5%Z →
  size_ c = 10%Z →
  pagingMax c = 7%Z →
  first_container (response c) = Some hc →
  total hc = Some 95%Z →
  moreResultsAvailable hc ≠ Some true →
  footerTemplate c =
  Ok (Some {| previousPage := true;
              firstPage := NoFirstPage;
              allPages := [mkPageButton 1 false; mkPageButton 2 false;
                           mkPageButton 3 false; mkPageButton 4 false;
                           mkPageButton 5 true; mkPageButton 6 false;
                           mkPageButton 7 false];
              nextPage := true |}).
Proof.
  intros Hpage Hsize Hmax Hc Htotal Hmore.
  unfold footerTemplate, renderFooter, renderNextPage, isLastPage,
    pagingRequired, getActivePages, getFirstPage, renderPreviousPage,
    renderFirstPage, renderAllPages.
  rewrite Hc. simpl. rewrite Htotal, Hpage, Hsize, Hmax.
  rewrite orb_true_r. reflexivity.
Qed.

Lemma paging_example_layout_witness :
  (currentPage paging_example = 5%Z ∧ size_ paging_example = 10%Z ∧
   pagingMax paging_example = 7%Z ∧
   (first_container (response paging_example) ≫= total) = Some 95%Z) ∧
  footerTemplate paging_example =
  Ok (Some {| previousPage := true;
              firstPage := NoFirstPage;
              allPages := [mkPageButton 1 false; mkPageButton 2 false;
                           mkPageButton 3 false; mkPageButton 4 false;
                           mkPageButton 5 true; mkPageButton 6 false;
                           mkPageButton 7 false];
              nextPage := true |}).
Proof.
  split; [repeat split; reflexivity|].
  apply (paging_example_layout paging_example
           {| hits := Some []; total := Some 95%Z;
              moreResultsAvailable := Some false |});
    try reflexivity; discriminate.
Defined.

(** C6, as the specification states it, fails on the code: at the example
    the footer has no explicit first-page button, and its run of page
    numbers, 1 to 7, is not centered on page 5. *)
Lemma paging_example_not_centered :
  ∃ f, footerTemplate paging_example = Ok (Some f) ∧
       ¬ (firstPage f ≠ NoFirstPage ∧
          centered_on 5 (pb_number <$> allPages f) ∧
          previousPage f = true ∧ nextPage f = true) ∧
       firstPage f = NoFirstPage ∧
       ¬ centered_on 5 (pb_number <$> allPages f).
Proof.
  eexists. split; [vm_compute; reflexivity|].
  assert (Hnc : ¬ centered_on 5 [1; 2; 3; 4; 5; 6; 7]%Z).
  { intros [k Hk].
    assert (k = 3%nat) as ->.
    { apply (f_equal length) in Hk. rewrite length_seqZ in Hk. simpl in Hk. lia. }
    vm_compute in Hk. discriminate Hk. }
  split; [|split]; simpl.
  - intros (Hfirst & _). apply Hfirst. reflexivity.
  - reflexivity.
  - exact Hnc.
Qed.

(** Further from the first page the window is centered on the current page
    and the first-page button with its ellipsis is there. *)
Example paging_page8 :
  footerTemplate (with_currentPage 8 paging_example) =
  Ok (Some {| previousPage := true;
              firstPage := FirstPageButton (Some 4%Z);
              allPages := [mkPageButton 6 false; mkPageButton 7 false;
                           mkPageButton 8 true; mkPageButton 9 false;
                           mkPageButton 10 false];
              nextPage := true |}).
Proof. vm_compute. reflexivity. Qed.

(** ** Running [loadState] *)

Arguments cacheKey : simpl never.
Arguments getRequestOptions : simpl never.
Arguments stringify_string : simpl never.
Arguments augmentThumbnails : simpl never.

(** The cache stage reads the component and the host, and only adds events
    to the trace. *)
Lemma cacheStage_run h c key (s : St) :
  cacheStage h c key s =
  ((fst s, snd s ++ snd (fst (cacheStage h c key (c, [])))),
   snd (cacheStage h c key (c, []))).
Proof.
  destruct s as [c0 tr0].
  unfold cacheStage, readCache, bind, emit, await, ret.
  destruct (shouldRetrieveCache h c); simpl; [|by rewrite app_nil_r].
  destruct (getIsResponseCacheEnabled h); simpl.
  - destruct (getValue h key) as [[result|]|e]; simpl; try reflexivity.
    destruct (isFresh h c result); reflexivity.
  - by rewrite app_nil_r.
Qed.

Lemma cacheStage_with_error h c e key :
  cacheStage h (with_error e c) key = cacheStage h c key.
Proof. reflexivity. Qed.

Lemma tryBlock_with_error h c e : tryBlock h (with_error e c) = tryBlock h c.
Proof. reflexivity. Qed.

(** The outer [try] in terms of its stages. *)
Lemma tryBlock_run h c (s : St) :
  tryBlock h c s =
  let s1 : St := (fst s, snd s ++ cacheEvents h c) in
  match cacheResult h c with
  | Throw e => (s1, Throw e)
  | Ok (Some r) => assign_response (Some r) s1
  | Ok None =>
      match fetchPath h c (cacheKey c) (getRequestOptions c) s1 with
      | (s2, Ok r) => assign_response r s2
      | (s2, Throw e) => (s2, Throw e)
      end
  end.
Proof.
  unfold tryBlock, bind. fold (cacheKey c).
  rewrite cacheStage_run. fold (cacheEvents h c). fold (cacheResult h c).
  destruct (cacheResult h c) as [[r|]|e]; reflexivity.
Qed.

Lemma response_assigned r c : response (assigned r c) = r.
Proof. unfold assigned. destruct (decide (response c = r)); auto. Qed.

Lemma error_assigned r c : error (assigned r c) = error c.
Proof. unfold assigned. destruct (decide (response c = r)); auto. Qed.

Lemma response_catchAndClear r c : response (catchAndClear r c) = response c.
Proof.
  unfold catchAndClear. destruct r as [u|e]; simpl;
    destruct (response c) eqn:Hr; simpl; auto.
Qed.

Lemma error_catchAndClear r c :
  error (catchAndClear r c) =
  match response c with
  | Some _ => None
  | None => match r with Ok _ => error c | Throw e => Some e end
  end.
Proof.
  unfold catchAndClear. destruct r as [u|e]; simpl;
    destruct (response c) eqn:Hr; simpl; auto.
Qed.

(** The fetch path in terms of what the host answers. *)
Lemma fetchPath_run h c key (s : St) :
  fetchPath h c key (getRequestOptions c) s =
  let s1 : St :=
    (fst s, snd s ++ [EvPost (version c) (requestScopes c) (requestBody c)]) in
  match post h (version c) (requestScopes c) (requestBody c) with
  | Throw e => (s1, Throw e)
  | Ok r =>
      if fetchThumbnail c then
        match hits_of r with
        | None =>
            (s1, Throw (TypeError "Cannot read properties of undefined"))
        | Some hs =>
            let r' := set_hits (fst (augmentThumbnails h hs)) <$> r in
            ((assigned r' (fst s),
              snd s1 ++ snd (augmentThumbnails h hs) ++ storeEvents h c key r'),
             Ok r')
        end
      else ((assigned r (fst s), snd s1 ++ storeEvents h c key r), Ok r)
  end.
Proof.
  destruct s as [c0 tr0].
  unfold fetchPath, bind, emit, await, ret, assign_response, thumbnailPhase,
    throw, hits_of.
  fold (requestBody c). simpl fst; simpl snd.
  destruct (post h (version c) (requestScopes c) (requestBody c)) as [r|e];
    [|reflexivity].
  destruct (fetchThumbnail c); [|reflexivity].
  destruct (first_container r ≫= hits) as [hs|]; [|reflexivity].
  destruct (augmentThumbnails h hs) as [hs' evs]. simpl.
  rewrite <- !app_assoc. reflexivity.
Qed.

(** [loadState] of a signed-in component with a query: the outer [try],
    then the [catch] and the clearing of the error, then the event. *)
Lemma loadState_signed_in h c :
  signedIn h = true →
  truthy_str (queryString c) = true →
  loadState h c =
  let c1 := fst (fst (tryBlock h c (with_error None c, []))) in
  let tr := snd (fst (tryBlock h c (with_error None c, []))) in
  let r := snd (tryBlock h c (with_error None c, [])) in
  (with_isRefreshing false (catchAndClear r c1),
   tr ++ [EvDataChange (response c1) (error (catchAndClear r c1))]).
Proof.
  intros Hs Hq. unfold loadState. rewrite Hs. simpl negb. cbv iota.
  change (queryString (with_error None c)) with (queryString c). rewrite Hq.
  rewrite tryBlock_with_error.
  destruct (tryBlock h c (with_error None c, [])) as [[c1 tr] r]. simpl.
  rewrite response_catchAndClear. reflexivity.
Qed.

(** *** The cases of a run *)

Ltac after_try :=
  unfold with_isRefreshing; cbn [response error fst snd assign_response app];
  rewrite ?response_catchAndClear, ?error_catchAndClear, ?response_assigned,
    ?error_assigned;
  change (response (with_error None ?x)) with (response x);
  change (error (with_error None ?x)) with (@None exn);
  rewrite <- ?app_assoc.

Section Runs.
Variables (h : Host) (c : MgtSearchResults).
Hypothesis Hsigned : signedIn h = true.
Hypothesis Hquery : truthy_str (queryString c) = true.

(** The cache yields a response: it becomes the component's response and
    nothing is requested. *)
Lemma loadState_cache_hit r :
  cacheResult h c = Ok (Some r) →
  response (fst (loadState h c)) = Some r ∧
  error (fst (loadState h c)) = None ∧
  snd (loadState h c) = cacheEvents h c ++ [EvDataChange (Some r) None].
Proof.
  intros Hc. rewrite (loadState_signed_in h c Hsigned Hquery).
  rewrite tryBlock_run, Hc. after_try. auto.
Qed.

(** Reading the cache throws: the exception ends the outer [try]. *)
Lemma loadState_cache_throw e :
  cacheResult h c = Throw e →
  let err := match response c with Some _ => None | None => Some e end in
  response (fst (loadState h c)) = response c ∧
  error (fst (loadState h c)) = err ∧
  snd (loadState h c) = cacheEvents h c ++ [EvDataChange (response c) err].
Proof.
  intros Hc. rewrite (loadState_signed_in h c Hsigned Hquery).
  rewrite tryBlock_run, Hc. after_try. auto.
Qed.

(** The search request throws. *)
Lemma loadState_post_throw e :
  cacheResult h c = Ok None →
  post h (version c) (requestScopes c) (requestBody c) = Throw e →
  let err := match response c with Some _ => None | None => Some e end in
  response (fst (loadState h c)) = response c ∧
  error (fst (loadState h c)) = err ∧
  snd (loadState h c) =
    cacheEvents h c ++
    [EvPost (version c) (requestScopes c) (requestBody c);
     EvDataChange (response c) err].
Proof.
  intros Hc Hp. rewrite (loadState_signed_in h c Hsigned Hquery).
  rewrite tryBlock_run, Hc. cbv zeta. rewrite fetchPath_run, Hp.
  after_try. auto.
Qed.

(** The search request answers and no thumbnails are asked for. *)
Lemma loadState_fetched r :
  cacheResult h c = Ok None →
  post h (version c) (requestScopes c) (requestBody c) = Ok r →
  fetchThumbnail c = false →
  response (fst (loadState h c)) = r ∧
  error (fst (loadState h c)) = None ∧
  snd (loadState h c) =
    cacheEvents h c ++
    [EvPost (version c) (requestScopes c) (requestBody c)] ++
    storeEvents h c (cacheKey c) r ++ [EvDataChange r None].
Proof.
  intros Hc Hp Hf. rewrite (loadState_signed_in h c Hsigned Hquery).
  rewrite tryBlock_run, Hc. cbv zeta. rewrite fetchPath_run, Hp, Hf.
  after_try. destruct r; auto.
Qed.

(** The search request answers and thumbnails are asked for, but the
    answer has no [value[0].hitsContainers[0].hits]. *)
Lemma loadState_fetched_no_hits r :
  cacheResult h c = Ok None →
  post h (version c) (requestScopes c) (requestBody c) = Ok r →
  fetchThumbnail c = true →
  hits_of r = None →
  let err := match response c with
             | Some _ => None
             | None => Some (TypeError "Cannot read properties of undefined")
             end in
  response (fst (loadState h c)) = response c ∧
  error (fst (loadState h c)) = err ∧
  snd (loadState h c) =
    cacheEvents h c ++
    [EvPost (version c) (requestScopes c) (requestBody c);
     EvDataChange (response c) err].
Proof.
  intros Hc Hp Hf Hh. rewrite (loadState_signed_in h c Hsigned Hquery).
  rewrite tryBlock_run, Hc. cbv zeta. rewrite fetchPath_run, Hp, Hf, Hh.
  after_try. auto.
Qed.

(** The search request answers with hits and thumbnails are asked for. *)
Lemma loadState_fetched_thumbnails r hs :
  cacheResult h c = Ok None →
  post h (version c) (requestScopes c) (requestBody c) = Ok r →
  fetchThumbnail c = true →
  hits_of r = Some hs →
  let r' := set_hits (fst (augmentThumbnails h hs)) <$> r in
  response (fst (loadState h c)) = r' ∧
  error (fst (loadState h c)) = None ∧
  snd (loadState h c) =
    cacheEvents h c ++
    [EvPost (version c) (requestScopes c) (requestBody c)] ++
    snd (augmentThumbnails h hs) ++
    storeEvents h c (cacheKey c) r' ++ [EvDataChange r' None].
Proof.
  intros Hc Hp Hf Hh. rewrite (loadState_signed_in h c Hsigned Hquery).
  rewrite tryBlock_run, Hc. cbv zeta. rewrite fetchPath_run, Hp, Hf, Hh.
  after_try. destruct r; auto.
Qed.

End Runs.

(** *** The cache stage *)

Lemma shouldRetrieveCache_enabled h c :
  shouldRetrieveCache h c = true → getIsResponseCacheEnabled h = true.
Proof.
  unfold shouldRetrieveCache. intros H.
  apply andb_prop in H as [H _]. apply andb_prop in H as [H _]. exact H.
Qed.

Lemma cacheStage_disabled h c :
  shouldRetrieveCache h c = false →
  cacheResult h c = Ok None ∧ cacheEvents h c = [].
Proof.
  intros H. unfold cacheResult, cacheEvents, cacheStage. rewrite H. auto.
Qed.

Lemma cacheStage_read h c :
  shouldRetrieveCache h c = true →
  cacheEvents h c = [EvCacheGet (cacheKey c)] ∧
  cacheResult h c =
  match getValue h (cacheKey c) with
  | Ok (Some entry) =>
      if isFresh h c entry then parse_payload h (cr_response entry)
      else Ok None
  | Ok None => Ok None
  | Throw e => Throw e
  end.
Proof.
  intros H. pose proof (shouldRetrieveCache_enabled h c H) as He.
  unfold cacheResult, cacheEvents, cacheStage, readCache, bind, emit, await, ret.
  rewrite H, He. simpl.
  destruct (getValue h (cacheKey c)) as [[entry|]|e]; simpl; auto.
  destruct (isFresh h c entry); simpl; auto.
Qed.

Lemma cacheEvents_cases h c :
  cacheEvents h c = [] ∨ cacheEvents h c = [EvCacheGet (cacheKey c)].
Proof.
  destruct (shouldRetrieveCache h c) eqn:H.
  - right. apply cacheStage_read, H.
  - left. apply cacheStage_disabled, H.
Qed.

(** Line 463 in arithmetic: the entry is trusted exactly when the period in
    force is a number and the time since [timeCached] is strictly below
    it. *)
Lemma isFresh_spec h c entry t :
  timeCached entry = Some t →
  isFresh h c entry = true ↔
  ∃ p, getResponseInvalidationTime h (cacheInvalidationPeriod c) = Some p ∧
       (now h - t < p)%Z.
Proof.
  intros Ht. unfold isFresh. rewrite Ht. simpl.
  destruct (getResponseInvalidationTime h (cacheInvalidationPeriod c)) as [p|];
    simpl.
  - rewrite Z.ltb_lt. split; [eauto|]. intros (p' & Hp & Hlt). congruence.
  - split; [discriminate|]. intros (p' & Hp & _). discriminate.
Qed.

(** *** Events *)

Lemma posts_app a b : posts (a ++ b) = (posts a + posts b)%nat.
Proof. unfold posts. rewrite List.filter_app, length_app. reflexivity. Qed.

Lemma posts_none tr : Forall (λ e, isPost e = false) tr → posts tr = 0%nat.
Proof.
  unfold posts. induction 1 as [|e tr He _ IH]; simpl; [reflexivity|].
  rewrite He. exact IH.
Qed.

Lemma posts_cacheEvents h c : posts (cacheEvents h c) = 0%nat.
Proof. destruct (cacheEvents_cases h c) as [-> | ->]; reflexivity. Qed.

Lemma posts_storeEvents h c key r : posts (storeEvents h c key r) = 0%nat.
Proof.
  unfold storeEvents. destruct r; [destruct (shouldUpdateCache h c)|];
    reflexivity.
Qed.

Lemma augmentEntries_events entries :
  ∀ hs, Forall (λ e, isThumbnail e = true)
               (snd (fst (augmentEntries hs entries))).
Proof.
  induction entries as [|[key v] rest IH]; intros hs; simpl; [constructor|].
  destruct (lookup_key hs key) as [[i result]|]; simpl; [|constructor].
  specialize (IH (<[i:=set_thumbnail (thumbnailFor result v) result]> hs)).
  destruct (augmentEntries _ rest) as [[hs' evs] r]. simpl in *.
  constructor; [reflexivity | exact IH].
Qed.

Lemma augmentResponse_events hs m :
  Forall (λ e, isThumbnail e = true) (snd (fst (augmentResponse hs m))).
Proof.
  unfold augmentResponse. destruct m as [[|e es]|]; simpl; try constructor.
  apply (augmentEntries_events (e :: es)).
Qed.

(** ** Thumbnails: order of the events *)

(** The shape of the events of lines 520-525. *)
Lemma augmentThumbnails_trace (h : Host) (hs : list SearchHit) :
  let batch := fst (buildBatches 0 hs) in
  let batchBeta := snd (buildBatches 0 hs) in
  ∃ evs1 rest,
    snd (augmentThumbnails h hs) = EvExecuteAll false batch :: evs1 ++ rest ∧
    Forall (λ e, isThumbnail e = true) evs1 ∧
    evs1 = match executeAll h batch with
           | Ok m1 => snd (fst (augmentResponse hs m1))
           | Throw _ => []
           end ∧
    (rest = [] ∨
     ∃ evs2, rest = EvExecuteAll true batchBeta :: evs2 ∧
             Forall (λ e, isThumbnail e = true) evs2 ∧
             ∀ m1 m2, executeAll h batch = Ok m1 →
                      executeAllBeta h batchBeta = Ok m2 →
                      evs2 = snd (fst (augmentResponse
                                         (fst (fst (augmentResponse hs m1))) m2))).
Proof.
  unfold augmentThumbnails.
  destruct (buildBatches 0 hs) as [batch batchBeta]. simpl fst; simpl snd.
  destruct (executeAll h batch) as [m1|e].
  - pose proof (augmentResponse_events hs m1) as Hev1.
    destruct (augmentResponse hs m1) as [[hs1 evs1] r1] eqn:Ha1.
    simpl in Hev1. destruct r1 as [u|e].
    + destruct (executeAllBeta h batchBeta) as [m2|e].
      * pose proof (augmentResponse_events hs1 m2) as Hev2.
        destruct (augmentResponse hs1 m2) as [[hs2 evs2] r2] eqn:Ha2.
        simpl in Hev2.
        exists evs1, (EvExecuteAll true batchBeta :: evs2). simpl.
        repeat split; auto. right. exists evs2. repeat split; auto.
        intros m1' m2' [= <-] [= <-]. rewrite Ha1. simpl. rewrite Ha2.
        reflexivity.
      * exists evs1, [EvExecuteAll true batchBeta]. simpl.
        repeat split; auto. right. exists []. repeat split; auto.
        intros m1' m2' _ [=].
    + exists evs1, []. simpl. rewrite app_nil_r. repeat split; auto.
  - exists [], []. simpl. repeat split; auto.
Qed.

Lemma posts_augmentThumbnails h hs : posts (snd (augmentThumbnails h hs)) = 0%nat.
Proof.
  destruct (augmentThumbnails_trace h hs) as (evs1 & rest & -> & H1 & _ & Hrest).
  apply posts_none. constructor; [reflexivity|].
  apply Forall_app. split.
  - eapply Forall_impl; [exact H1|]. intros [] He; simpl in *; congruence.
  - destruct Hrest as [-> | (evs2 & -> & H2 & _)]; constructor; [reflexivity|].
    eapply Forall_impl; [exact H2|]. intros [] He; simpl in *; congruence.
Qed.

(** ** Requests sent *)

Ltac count_posts :=
  rewrite ?posts_app, ?posts_cacheEvents, ?posts_augmentThumbnails,
    ?posts_storeEvents; reflexivity.

(** When the cache stage leaves the local [response] empty, exactly one
    search request is sent, whatever it answers. *)
Lemma posts_cache_miss h c :
  signedIn h = true →
  truthy_str (queryString c) = true →
  cacheResult h c = Ok None →
  posts (snd (loadState h c)) = 1%nat.
Proof.
  intros Hs Hq Hc.
  destruct (post h (version c) (requestScopes c) (requestBody c)) as [r|e] eqn:Hp.
  - destruct (fetchThumbnail c) eqn:Hf.
    + destruct (hits_of r) as [hs|] eqn:Hh.
      * destruct (loadState_fetched_thumbnails h c Hs Hq r hs Hc Hp Hf Hh)
          as (_ & _ & ->). count_posts.
      * destruct (loadState_fetched_no_hits h c Hs Hq r Hc Hp Hf Hh)
          as (_ & _ & ->). count_posts.
    + destruct (loadState_fetched h c Hs Hq r Hc Hp Hf) as (_ & _ & ->).
      count_posts.
  - destruct (loadState_post_throw h c Hs Hq e Hc Hp) as (_ & _ & ->).
    count_posts.
Qed.

(** When the cache stage yields a response or throws, no search request is
    sent. *)
Lemma posts_cache_hit h c r :
  signedIn h = true →
  truthy_str (queryString c) = true →
  cacheResult h c = Ok (Some r) →
  posts (snd (loadState h c)) = 0%nat.
Proof.
  intros Hs Hq Hc.
  destruct (loadState_cache_hit h c Hs Hq r Hc) as (_ & _ & ->). count_posts.
Qed.

Lemma posts_cache_throw h c e :
  signedIn h = true →
  truthy_str (queryString c) = true →
  cacheResult h c = Throw e →
  posts (snd (loadState h c)) = 0%nat.
Proof.
  intros Hs Hq Hc.
  destruct (loadState_cache_throw h c Hs Hq e Hc) as (_ & _ & ->). count_posts.
Qed.

(** A host whose store has no entry behaves, from the fetch path on, like
    the host it was made from. *)
Lemma loadState_as_absent h c :
  signedIn h = true →
  truthy_str (queryString c) = true →
  shouldRetrieveCache h c = true →
  cacheResult h c = Ok None →
  loadState h c = loadState (with_getValue (λ _, Ok None) h) c.
Proof.
  intros Hs Hq Hr Hc.
  set (h' := with_getValue (λ _, Ok None) h).
  assert (Hr' : shouldRetrieveCache h' c = true) by exact Hr.
  destruct (cacheStage_read h c Hr) as [Hev _].
  destruct (cacheStage_read h' c Hr') as [Hev' Hc'].
  change (getValue h' (cacheKey c)) with (@Ok (option CacheResponse) None) in Hc'.
  rewrite (loadState_signed_in h c Hs Hq).
  rewrite (loadState_signed_in h' c Hs Hq).
  rewrite !tryBlock_run, Hc, Hc', Hev, Hev'. reflexivity.
Qed.

(** ** Cache freshness *)

(** C2. For an entry cached at [t] whose payload parses, with [P] the
    period in force (the component's period, else the global response
    period, else the global default, a zero or undefined one being passed
    over): the cached response is used, and nothing requested, exactly
    when [now - t < P]; once [now - t >= P] the run is the run of a host
    whose store has no entry, and the search request is sent. *)
Theorem cache_used_iff_fresh
    (h : Host) (c : MgtSearchResults) (entry : CacheResponse) (t : Z)
    (r : Response) :
  signedIn h = true →
  truthy_str (queryString c) = true →
  shouldRetrieveCache h c = true →
  getValue h (cacheKey c) = Ok (Some entry) →
  timeCached entry = Some t →
  parse_payload h (cr_response entry) = Ok (Some r) →
  let P := getResponseInvalidationTime h (cacheInvalidationPeriod c) in
  P = (if truthy_num (cacheInvalidationPeriod c)
       then cacheInvalidationPeriod c
       else if truthy_num (response_invalidationPeriod (config h))
            then response_invalidationPeriod (config h)
            else defaultInvalidationPeriod (config h)) ∧
  ((∃ p, P = Some p ∧ (now h - t < p)%Z) ↔
   (response (fst (loadState h c)) = Some r ∧
    posts (snd (loadState h c)) = 0%nat)) ∧
  ((∀ p, P = Some p → (p ≤ now h - t)%Z) →
   loadState h c = loadState (with_getValue (λ _, Ok None) h) c ∧
   posts (snd (loadState h c)) = 1%nat).
Proof.
  intros Hs Hq Hr Hg Ht Hp P.
  destruct (cacheStage_read h c Hr) as [_ Hc]. rewrite Hg, Hp in Hc.
  pose proof (isFresh_spec h c entry t Ht) as Hfresh. fold P in Hfresh.
  split; [|split].
  - unfold P, getResponseInvalidationTime, or_num.
    destruct (truthy_num (cacheInvalidationPeriod c)) eqn:Ha; rewrite ?Ha;
      reflexivity.
  - destruct (isFresh h c entry) eqn:Hf.
    + split; [intros _|intros _; apply Hfresh; reflexivity].
      split; [apply (loadState_cache_hit h c Hs Hq r Hc)
             |apply (posts_cache_hit h c r Hs Hq Hc)].
    + split.
      * intros Hex. apply Hfresh in Hex. discriminate.
      * intros [_ Hposts]. rewrite (posts_cache_miss h c Hs Hq Hc) in Hposts.
        discriminate.
  - intros Hstale.
    destruct (isFresh h c entry) eqn:Hf.
    + destruct (proj1 Hfresh eq_refl) as (p & HP & Hlt).
      specialize (Hstale p HP). lia.
    + split; [apply (loadState_as_absent h c Hs Hq Hr Hc)
             |apply (posts_cache_miss h c Hs Hq Hc)].
Qed.

(** ** Failures *)

(** C4, as the code has it.  When reading the entry throws, or parsing the
    payload of a trusted entry throws, the exception ends the outer [try]:
    no search request is sent, the component keeps the response it held,
    and the exception is its error state unless it holds a response. *)
Theorem cache_failure_ends_the_load
    (h : Host) (c : MgtSearchResults) (e : exn) :
  signedIn h = true →
  truthy_str (queryString c) = true →
  shouldRetrieveCache h c = true →
  (getValue h (cacheKey c) = Throw e ∨
   ∃ entry, getValue h (cacheKey c) = Ok (Some entry) ∧
            isFresh h c entry = true ∧
            parse_payload h (cr_response entry) = Throw e) →
  let err := match response c with Some _ => None | None => Some e end in
  posts (snd (loadState h c)) = 0%nat ∧
  response (fst (loadState h c)) = response c ∧
  error (fst (loadState h c)) = err ∧
  snd (loadState h c) =
    [EvCacheGet (cacheKey c); EvDataChange (response c) err].
Proof.
  intros Hs Hq Hr Hfail err.
  destruct (cacheStage_read h c Hr) as [Hev Hc].
  assert (Hthrow : cacheResult h c = Throw e).
  { destruct Hfail as [Hg | (entry & Hg & Hf & Hp)]; rewrite Hg in Hc;
      [|rewrite Hf, Hp in Hc]; exact Hc. }
  destruct (loadState_cache_throw h c Hs Hq e Hthrow) as (Hresp & Herr & Htr).
  rewrite Hev in Htr. simpl in Htr.
  split; [exact (posts_cache_throw h c e Hs Hq Hthrow)|].
  split; [exact Hresp|]. split; [exact Herr | exact Htr].
Qed.

(** C7, as the code has it.  When the search request throws, the exception
    is caught and the request is sent once, with no retry; the exception is
    the component's error state when the component holds no response, and
    the error state is cleared when it holds one. *)
Theorem primary_failure_surfaced_unless_response_held
    (h : Host) (c : MgtSearchResults) (e : exn) :
  signedIn h = true →
  truthy_str (queryString c) = true →
  cacheResult h c = Ok None →
  post h (version c) (requestScopes c) (requestBody c) = Throw e →
  posts (snd (loadState h c)) = 1%nat ∧
  response (fst (loadState h c)) = response c ∧
  error (fst (loadState h c)) =
    match response c with Some _ => None | None => Some e end.
Proof.
  intros Hs Hq Hc Hp.
  destruct (loadState_post_throw h c Hs Hq e Hc Hp) as (Hresp & Herr & _).
  split; [exact (posts_cache_miss h c Hs Hq Hc)|].
  split; [exact Hresp | exact Herr].
Qed.

(** ** Thumbnails: requests and merging *)

Lemma toString_inj i j : toString i = toString j → i = j.
Proof. unfold toString. apply (inj pretty). Qed.

Lemma lookup_key_from_Some hs :
  ∀ j i element, hs !! i = Some element →
    lookup_key_from j hs (toString (j + i)) = Some ((j + i)%nat, element).
Proof.
  induction hs as [|x hs IH]; intros j i element Hi; [discriminate|].
  simpl. destruct i as [|i]; simpl in Hi.
  - rewrite Nat.add_0_r, String.eqb_refl. congruence.
  - destruct (String.eqb (toString j) (toString (j + S i))) eqn:E.
    + apply String.eqb_eq, toString_inj in E. lia.
    + replace (j + S i)%nat with (S j + i)%nat by lia. apply IH, Hi.
Qed.

Lemma lookup_key_toString hs i element :
  hs !! i = Some element → lookup_key hs (toString i) = Some (i, element).
Proof. intros H. apply (lookup_key_from_Some hs 0 i element H). Qed.

(** The requests of the v1.0 batch are those of the eligible hits that are
    not list items, addressed by index. *)
Lemma buildBatches_fst hs :
  ∀ j req, req ∈ fst (buildBatches j hs) ↔
    ∃ i element, hs !! i = Some element ∧
      eligible (resource element) = true ∧
      isListItem (resource element) = false ∧
      req = mkBatchRequest (toString (j + i)) (thumbnailPath (resource element)).
Proof.
  induction hs as [|x hs IH]; intros j req; simpl.
  - split; [intros H; inversion H | intros (i & el & H & _); discriminate].
  - specialize (IH (S j) req).
    destruct (buildBatches (S j) hs) as [b bb]. simpl in IH.
    assert (Htail : req ∈ b ↔
      ∃ i element, (x :: hs) !! S i = Some element ∧
        eligible (resource element) = true ∧
        isListItem (resource element) = false ∧
        req = mkBatchRequest (toString (j + S i))
                (thumbnailPath (resource element))).
    { rewrite IH. split; intros (i & el & H1 & H2 & H3 & H4);
        exists i, el; repeat split; auto;
        rewrite H4; do 2 f_equal; lia. }
    destruct (eligible (resource x)) eqn:He;
      [destruct (isListItem (resource x)) eqn:Hl|]; simpl.
    + rewrite Htail. split.
      * intros (i & el & H); exists (S i), el; exact H.
      * intros ([|i] & el & H1 & H2 & H3 & H4); [|eauto 7].
        simpl in H1. congruence.
    + rewrite elem_of_cons, Htail. split.
      * intros [-> | (i & el & H)]; [|exists (S i), el; exact H].
        exists 0%nat, x. rewrite Nat.add_0_r. auto.
      * intros ([|i] & el & H1 & H2 & H3 & H4); [|right; eauto 7].
        left. simpl in H1. injection H1 as <-. rewrite Nat.add_0_r in H4.
        exact H4.
    + rewrite Htail. split.
      * intros (i & el & H); exists (S i), el; exact H.
      * intros ([|i] & el & H1 & H2 & H3 & H4); [|eauto 7].
        simpl in H1. congruence.
Qed.

(** The requests of the beta batch are those of the eligible list items,
    addressed by index. *)
Lemma buildBatches_snd hs :
  ∀ j req, req ∈ snd (buildBatches j hs) ↔
    ∃ i element, hs !! i = Some element ∧
      eligible (resource element) = true ∧
      isListItem (resource element) = true ∧
      req = mkBatchRequest (toString (j + i)) (pagePath (resource element)).
Proof.
  induction hs as [|x hs IH]; intros j req; simpl.
  - split; [intros H; inversion H | intros (i & el & H & _); discriminate].
  - specialize (IH (S j) req).
    destruct (buildBatches (S j) hs) as [b bb]. simpl in IH.
    assert (Htail : req ∈ bb ↔
      ∃ i element, (x :: hs) !! S i = Some element ∧
        eligible (resource element) = true ∧
        isListItem (resource element) = true ∧
        req = mkBatchRequest (toString (j + S i))
                (pagePath (resource element))).
    { rewrite IH. split; intros (i & el & H1 & H2 & H3 & H4);
        exists i, el; repeat split; auto;
        rewrite H4; do 2 f_equal; lia. }
    destruct (eligible (resource x)) eqn:He;
      [destruct (isListItem (resource x)) eqn:Hl|]; simpl.
    + rewrite elem_of_cons, Htail. split.
      * intros [-> | (i & el & H)]; [|exists (S i), el; exact H].
        exists 0%nat, x. rewrite Nat.add_0_r. auto.
      * intros ([|i] & el & H1 & H2 & H3 & H4); [|right; eauto 7].
        left. simpl in H1. injection H1 as <-. rewrite Nat.add_0_r in H4.
        exact H4.
    + rewrite Htail. split.
      * intros (i & el & H); exists (S i), el; exact H.
      * intros ([|i] & el & H1 & H2 & H3 & H4); [|eauto 7].
        simpl in H1. congruence.
    + rewrite Htail. split.
      * intros (i & el & H); exists (S i), el; exact H.
      * intros ([|i] & el & H1 & H2 & H3 & H4); [|eauto 7].
        simpl in H1. congruence.
Qed.

(** Merging a batch response whose keys are distinct and name hits: no
    exception, and the hits change exactly at the named indices. *)
Lemma augmentEntries_spec (entries : BatchMap) :
  ∀ hs : list SearchHit,
    NoDup entries.*1 →
    (∀ key, key ∈ entries.*1 → ∃ i, key = toString i ∧ is_Some (hs !! i)) →
    snd (augmentEntries hs entries) = Ok () ∧
    length (fst (fst (augmentEntries hs entries))) = length hs ∧
    (∀ i v, (toString i, v) ∈ entries →
       ∃ element, hs !! i = Some element ∧
         fst (fst (augmentEntries hs entries)) !! i =
         Some (set_thumbnail (thumbnailFor element v) element)) ∧
    (∀ i, toString i ∉ entries.*1 →
       fst (fst (augmentEntries hs entries)) !! i = hs !! i).
Proof.
  induction entries as [|[key v] rest IH]; intros hs Hnd Hkeys.
  - simpl. repeat split; auto. intros i v H. inversion H.
  - simpl in Hnd. apply NoDup_cons in Hnd as [Hnotin Hnd].
    destruct (Hkeys key) as (i0 & -> & [el0 Hel0]); [left|].
    simpl. rewrite (lookup_key_toString hs i0 el0 Hel0).
    set (hs1 := <[i0:=set_thumbnail (thumbnailFor el0 v) el0]> hs).
    assert (Hlen1 : length hs1 = length hs) by apply length_insert.
    assert (Hkeys1 : ∀ key, key ∈ rest.*1 →
                       ∃ i, key = toString i ∧ is_Some (hs1 !! i)).
    { intros key Hk. destruct (Hkeys key) as (i & -> & Hi); [by right|].
      exists i. split; [reflexivity|].
      apply lookup_lt_is_Some. rewrite Hlen1. by apply lookup_lt_is_Some. }
    destruct (IH hs1 Hnd Hkeys1) as (Hr & Hlen & Hin & Hout).
    destruct (augmentEntries hs1 rest) as [[hs' evs] r]. simpl in *.
    split; [exact Hr|]. split; [by rewrite Hlen|]. split.
    + intros i v' Hmem. apply elem_of_cons in Hmem as [Heq | Hmem].
      * injection Heq as Hi ->. apply toString_inj in Hi as ->.
        exists el0. split; [exact Hel0|]. rewrite (Hout i0 Hnotin).
        apply list_lookup_insert_eq. by eapply lookup_lt_Some.
      * destruct (Hin i v' Hmem) as (el1 & H1 & H2).
        assert (Hne : i0 ≠ i).
        { intros ->. apply Hnotin. apply list_elem_of_fmap.
          exists (toString i, v'). auto. }
        unfold hs1 in H1. rewrite list_lookup_insert_ne in H1 by exact Hne.
        exists el1. auto.
    + intros i Hni. apply not_elem_of_cons in Hni as [Hne Hni].
      rewrite (Hout i Hni). apply list_lookup_insert_ne. congruence.
Qed.

Lemma augmentResponse_spec (m : option BatchMap) (hs : list SearchHit) :
  NoDup (default [] m).*1 →
  (∀ key, key ∈ (default [] m).*1 →
     ∃ i, key = toString i ∧ is_Some (hs !! i)) →
  snd (augmentResponse hs m) = Ok () ∧
  length (fst (fst (augmentResponse hs m))) = length hs ∧
  (∀ i v, (toString i, v) ∈ default [] m →
     ∃ element, hs !! i = Some element ∧
       fst (fst (augmentResponse hs m)) !! i =
       Some (set_thumbnail (thumbnailFor element v) element)) ∧
  (∀ i, toString i ∉ (default [] m).*1 →
     fst (fst (augmentResponse hs m)) !! i = hs !! i).
Proof.
  intros Hnd Hkeys. unfold augmentResponse.
  destruct m as [[|e es]|]; simpl in *.
  - repeat split; auto. intros i v H. inversion H.
  - apply (augmentEntries_spec (e :: es) hs Hnd Hkeys).
  - repeat split; auto. intros i v H. inversion H.
Qed.

(** Writing back the hits a response already has changes nothing. *)
Lemma set_hits_same r hs : hits_of (Some r) = Some hs → set_hits hs r = r.
Proof.
  unfold hits_of, first_container, set_hits. destruct r as [[|[hcs] vs]]; simpl;
    [discriminate|].
  destruct hcs as [|[hits0 total0 more0] hcs]; simpl; [discriminate|].
  intros [= ->]. reflexivity.
Qed.

Lemma hits_of_set_hits r hs hs' :
  hits_of (Some r) = Some hs → hits_of (Some (set_hits hs' r)) = Some hs'.
Proof.
  unfold hits_of, first_container, set_hits. destruct r as [[|[hcs] vs]]; simpl;
    [discriminate|].
  destruct hcs as [|[hits0 total0 more0] hcs]; simpl; [discriminate|].
  reflexivity.
Qed.

Lemma batch_ids hs key :
  key ∈ req_id <$> fst (buildBatches 0 hs) ↔
  ∃ i element, key = toString i ∧ hs !! i = Some element ∧
    eligible (resource element) = true ∧
    isListItem (resource element) = false.
Proof.
  rewrite list_elem_of_fmap. split.
  - intros (req & -> & Hreq). apply buildBatches_fst in Hreq
      as (i & el & H1 & H2 & H3 & ->). exists i, el. auto.
  - intros (i & el & -> & H1 & H2 & H3).
    exists (mkBatchRequest (toString i) (thumbnailPath (resource el))).
    split; [reflexivity|]. apply buildBatches_fst. exists i, el. auto.
Qed.

Lemma batchBeta_ids hs key :
  key ∈ req_id <$> snd (buildBatches 0 hs) ↔
  ∃ i element, key = toString i ∧ hs !! i = Some element ∧
    eligible (resource element) = true ∧
    isListItem (resource element) = true.
Proof.
  rewrite list_elem_of_fmap. split.
  - intros (req & -> & Hreq). apply buildBatches_snd in Hreq
      as (i & el & H1 & H2 & H3 & ->). exists i, el. auto.
  - intros (i & el & -> & H1 & H2 & H3).
    exists (mkBatchRequest (toString i) (pagePath (resource el))).
    split; [reflexivity|]. apply buildBatches_snd. exists i, el. auto.
Qed.

(** A request is issued for the index of a hit exactly when the hit is
    eligible. *)
Lemma request_iff_eligible hs i element :
  hs !! i = Some element →
  toString i ∈ req_id <$> (fst (buildBatches 0 hs) ++ snd (buildBatches 0 hs)) ↔
  eligible (resource element) = true.
Proof.
  intros Hi. rewrite fmap_app, elem_of_app, batch_ids, batchBeta_ids. split.
  - intros [(i' & el & Heq & H1 & H2 & _) | (i' & el & Heq & H1 & H2 & _)];
      apply toString_inj in Heq as <-; congruence.
  - intros He. destruct (isListItem (resource element)) eqn:Hl;
      [right | left]; exists i, element; auto.
Qed.

(** Both batches resolve with answers to requests that were made: every
    answer is attached at its index, with the url its kind of resource
    calls for, and the other hits stay as they were. *)
Lemma augmentThumbnails_ok h hs (m1 m2 : option BatchMap) :
  executeAll h (fst (buildBatches 0 hs)) = Ok m1 →
  executeAllBeta h (snd (buildBatches 0 hs)) = Ok m2 →
  NoDup (default [] m1).*1 →
  NoDup (default [] m2).*1 →
  (default [] m1).*1 ⊆ req_id <$> fst (buildBatches 0 hs) →
  (default [] m2).*1 ⊆ req_id <$> snd (buildBatches 0 hs) →
  let hs' := fst (augmentThumbnails h hs) in
  length hs' = length hs ∧
  (∀ i v, (toString i, v) ∈ default [] m1 →
     ∃ element, hs !! i = Some element ∧
       hs' !! i = Some (set_thumbnail {| url := content_url (content v) |}
                                      element)) ∧
  (∀ i v, (toString i, v) ∈ default [] m2 →
     ∃ element, hs !! i = Some element ∧
       hs' !! i =
       Some (set_thumbnail {| url := content_thumbnailWebUrl (content v) |}
                           element)) ∧
  (∀ i, toString i ∉ (default [] m1).*1 → toString i ∉ (default [] m2).*1 →
     hs' !! i = hs !! i).
Proof.
  intros He1 He2 Hnd1 Hnd2 Hsub1 Hsub2 hs'. subst hs'.
  unfold augmentThumbnails.
  destruct (buildBatches 0 hs) as [batch batchBeta] eqn:Hb.
  simpl fst in *; simpl snd in *. rewrite He1.
  assert (Hk1 : ∀ key, key ∈ (default [] m1).*1 →
            ∃ i el, key = toString i ∧ hs !! i = Some el ∧
                    isListItem (resource el) = false).
  { intros key Hk. apply Hsub1 in Hk.
    pose proof (proj1 (batch_ids hs key)) as Hids. rewrite Hb in Hids.
    destruct (Hids Hk) as (i & el & -> & H1 & _ & H3). eauto. }
  assert (Hk2 : ∀ key, key ∈ (default [] m2).*1 →
            ∃ i el, key = toString i ∧ hs !! i = Some el ∧
                    isListItem (resource el) = true).
  { intros key Hk. apply Hsub2 in Hk.
    pose proof (proj1 (batchBeta_ids hs key)) as Hids. rewrite Hb in Hids.
    destruct (Hids Hk) as (i & el & -> & H1 & _ & H3). eauto. }
  assert (Hdisj : ∀ i, toString i ∈ (default [] m1).*1 →
                       toString i ∈ (default [] m2).*1 → False).
  { intros i Hi1 Hi2.
    destruct (Hk1 _ Hi1) as (i1 & el1 & Heq1 & Hel1 & Hl1).
    destruct (Hk2 _ Hi2) as (i2 & el2 & Heq2 & Hel2 & Hl2).
    apply toString_inj in Heq1 as <-. apply toString_inj in Heq2 as <-.
    congruence. }
  destruct (augmentResponse_spec m1 hs Hnd1) as (Hr1 & Hlen1 & Hin1 & Hout1).
  { intros key Hk. destruct (Hk1 key Hk) as (i & el & -> & H & _). eauto. }
  destruct (augmentResponse hs m1) as [[hs1 evs1] r1]. simpl in *. subst r1.
  rewrite He2.
  destruct (augmentResponse_spec m2 hs1 Hnd2) as (Hr2 & Hlen2 & Hin2 & Hout2).
  { intros key Hk. destruct (Hk2 key Hk) as (i & el & -> & H & _).
    exists i. split; [reflexivity|]. apply lookup_lt_is_Some. rewrite Hlen1.
    by eapply lookup_lt_Some. }
  destruct (augmentResponse hs1 m2) as [[hs2 evs2] r2]. simpl in *.
  split; [congruence|]. split; [|split].
  - intros i v Hmem. destruct (Hin1 i v Hmem) as (el & Hel & Hnew).
    assert (Hkey : toString i ∈ (default [] m1).*1).
    { apply list_elem_of_fmap. exists (toString i, v). auto. }
    destruct (Hk1 _ Hkey) as (i' & el' & Heq & Hel' & Hl).
    apply toString_inj in Heq as <-. assert (el' = el) as -> by congruence.
    exists el. split; [exact Hel|].
    rewrite Hout2 by (intros Hi2; exact (Hdisj i Hkey Hi2)).
    rewrite Hnew. unfold thumbnailFor. rewrite Hl. reflexivity.
  - intros i v Hmem. destruct (Hin2 i v Hmem) as (el1 & Hel1 & Hnew).
    assert (Hkey : toString i ∈ (default [] m2).*1).
    { apply list_elem_of_fmap. exists (toString i, v). auto. }
    destruct (Hk2 _ Hkey) as (i' & el & Heq & Hel & Hl).
    apply toString_inj in Heq as <-.
    rewrite Hout1 in Hel1 by (intros Hi1; exact (Hdisj i Hi1 Hkey)).
    assert (el1 = el) as -> by congruence.
    exists el. split; [exact Hel|].
    rewrite Hnew. unfold thumbnailFor. rewrite Hl. reflexivity.
  - intros i Hn1 Hn2. rewrite (Hout2 i Hn2). exact (Hout1 i Hn1).
Qed.

Lemma augmentThumbnails_executes h hs :
  EvExecuteAll false (fst (buildBatches 0 hs)) ∈ snd (augmentThumbnails h hs) ∧
  (∀ m1, executeAll h (fst (buildBatches 0 hs)) = Ok m1 →
         snd (augmentResponse hs m1) = Ok () →
         EvExecuteAll true (snd (buildBatches 0 hs))
           ∈ snd (augmentThumbnails h hs)).
Proof.
  unfold augmentThumbnails.
  destruct (buildBatches 0 hs) as [batch batchBeta]. simpl fst; simpl snd.
  destruct (executeAll h batch) as [m1|e]; [|split; [left|discriminate]].
  destruct (augmentResponse hs m1) as [[hs1 evs1] r1] eqn:Ha. simpl.
  destruct r1 as [u|e].
  - destruct (executeAllBeta h batchBeta) as [m2|e].
    + destruct (augmentResponse hs1 m2) as [[hs2 evs2] r2]. simpl.
      split; [left|]. intros _ _ _. right. apply elem_of_app. right. left.
    + simpl. split; [left|]. intros _ _ _. right. apply elem_of_app. right.
      left.
  - split; [left|]. intros m1' [= <-] Hr. rewrite Ha in Hr. discriminate Hr.
Qed.

(** The test of lines 484-488, condition by condition. *)
Lemma eligible_spec (r : Resource) :
  eligible r = true ↔
  (gt_num (size r) (Some 0%Z) = true ∨
   ∃ u, webUrl r = Some u ∧ endsWith u ".aspx" = true) ∧
  (odata_type r = "#microsoft.graph.driveItem" ∨
   odata_type r = "#microsoft.graph.listItem").
Proof.
  unfold eligible, driveItemType, listItemType.
  rewrite andb_true_iff, !orb_true_iff, !String.eqb_eq.
  split; intros [H1 H2]; (split; [|exact H2]).
  - destruct H1 as [H1|H1]; [left; exact H1|right].
    destruct (webUrl r) as [u|]; [eauto | discriminate].
  - destruct H1 as [H1|(u & Hu & H1)]; [left; exact H1|right].
    rewrite Hu. exact H1.
Qed.

(** What [result.resource.thumbnail = thumbnail] leaves: the thumbnail is
    the one assigned, the rest of the hit is as it was. *)
Lemma set_thumbnail_spec (t : Thumbnail) (element : SearchHit) :
  thumbnail (resource (set_thumbnail t element)) = Some t ∧
  without_thumbnail (set_thumbnail t element) = without_thumbnail element.
Proof. split; reflexivity. Qed.

(** C1. With [fetchThumbnail] on and a search answer with hits [hs], the
    two batches are executed.  They hold a request with id [i] exactly for
    the indices [i] of the hits whose resource has [size > 0] or a [webUrl]
    ending in [.aspx], and whose [@odata.type] is
    [#microsoft.graph.driveItem] or [#microsoft.graph.listItem]: for a list
    item the request is in the beta batch and asks for the page, otherwise
    it is in the v1.0 batch and asks for the medium thumbnail of the drive
    item.  When both batches resolve with answers to requests that were
    made, the component's response has as many hits as [hs], and at every
    answered index [i] the hit is the one of [hs] with
    [resource.thumbnail] set to [{ url }], [url] being [content.url] of the
    answer of the v1.0 batch and [content.thumbnailWebUrl] of the answer of
    the beta batch; a hit without a request, that is one that does not meet
    the condition, is left as it was, thumbnail field included. *)
Theorem thumbnails_attached_by_index
    (h : Host) (c : MgtSearchResults) (r : Response) (hs : list SearchHit)
    (m1 m2 : option BatchMap) :
  signedIn h = true →
  truthy_str (queryString c) = true →
  cacheResult h c = Ok None →
  post h (version c) (requestScopes c) (requestBody c) = Ok (Some r) →
  fetchThumbnail c = true →
  hits_of (Some r) = Some hs →
  let batch := fst (buildBatches 0 hs) in
  let batchBeta := snd (buildBatches 0 hs) in
  executeAll h batch = Ok m1 →
  executeAllBeta h batchBeta = Ok m2 →
  NoDup (default [] m1).*1 →
  NoDup (default [] m2).*1 →
  (default [] m1).*1 ⊆ req_id <$> batch →
  (default [] m2).*1 ⊆ req_id <$> batchBeta →
  (EvExecuteAll false batch ∈ snd (loadState h c) ∧
   EvExecuteAll true batchBeta ∈ snd (loadState h c)) ∧
  (∀ i element, hs !! i = Some element →
     toString i ∈ req_id <$> (batch ++ batchBeta) ↔
     (gt_num (size (resource element)) (Some 0%Z) = true ∨
      ∃ u, webUrl (resource element) = Some u ∧ endsWith u ".aspx" = true) ∧
     (odata_type (resource element) = "#microsoft.graph.driveItem" ∨
      odata_type (resource element) = "#microsoft.graph.listItem")) ∧
  (∀ i element, hs !! i = Some element →
     toString i ∈ req_id <$> (batch ++ batchBeta) →
     let res := resource element in
     if decide (odata_type res = "#microsoft.graph.listItem")
     then {| req_id := toString i;
             req_path := "/sites/" +:+ tpl (siteId (parentReference res))
                         +:+ "/pages/" +:+ id res |} ∈ batchBeta
     else {| req_id := toString i;
             req_path := "/drives/" +:+ tpl (driveId (parentReference res))
                         +:+ "/items/" +:+ id res
                         +:+ "/thumbnails/0/medium" |} ∈ batch) ∧
  ∃ hs', hits_of (response (fst (loadState h c))) = Some hs' ∧
    length hs' = length hs ∧
    (∀ i v, (toString i, v) ∈ default [] m1 →
       ∃ element element', hs !! i = Some element ∧
         hs' !! i = Some element' ∧
         thumbnail (resource element') =
           Some {| url := content_url (content v) |} ∧
         without_thumbnail element' = without_thumbnail element) ∧
    (∀ i v, (toString i, v) ∈ default [] m2 →
       ∃ element element', hs !! i = Some element ∧
         hs' !! i = Some element' ∧
         thumbnail (resource element') =
           Some {| url := content_thumbnailWebUrl (content v) |} ∧
         without_thumbnail element' = without_thumbnail element) ∧
    (∀ i element, hs !! i = Some element →
       toString i ∉ req_id <$> (batch ++ batchBeta) →
       hs' !! i = Some element).
Proof.
  intros Hs Hq Hc Hp Hf Hh batch batchBeta He1 He2 Hnd1 Hnd2 Hsub1 Hsub2.
  destruct (loadState_fetched_thumbnails h c Hs Hq (Some r) hs Hc Hp Hf Hh)
    as (Hresp & _ & Htr).
  destruct (augmentThumbnails_ok h hs m1 m2 He1 He2 Hnd1 Hnd2 Hsub1 Hsub2)
    as (Hlen & Hv1 & Hbeta & Hout).
  destruct (augmentThumbnails_executes h hs) as [Hex1 Hex2].
  split; [|split; [|split]].
  - rewrite Htr. split.
    + apply elem_of_app. right. right. apply elem_of_app. left. exact Hex1.
    + apply elem_of_app. right. right. apply elem_of_app. left.
      apply (Hex2 m1 He1).
      apply (augmentResponse_spec m1 hs Hnd1).
      intros key Hk. apply Hsub1, batch_ids in Hk
        as (i & el & -> & H & _). eauto.
  - intros i el Hi. rewrite <- eligible_spec.
    apply request_iff_eligible, Hi.
  - intros i el Hi Hreq res.
    apply (request_iff_eligible hs i el Hi) in Hreq.
    destruct (decide (odata_type res = "#microsoft.graph.listItem"))
      as [Hl|Hl].
    + apply buildBatches_snd. exists i, el.
      split; [exact Hi|]. split; [exact Hreq|].
      split; [apply String.eqb_eq, Hl | reflexivity].
    + apply buildBatches_fst. exists i, el.
      split; [exact Hi|]. split; [exact Hreq|].
      split; [apply String.eqb_neq, Hl | reflexivity].
  - exists (fst (augmentThumbnails h hs)).
    split; [rewrite Hresp; apply (hits_of_set_hits r hs _ Hh)|].
    split; [exact Hlen|]. split; [|split].
    + intros i v Hmem. destruct (Hv1 i v Hmem) as (el & Hel & Hnew).
      exists el, (set_thumbnail {| url := content_url (content v) |} el).
      split; [exact Hel|]. split; [exact Hnew|]. apply set_thumbnail_spec.
    + intros i v Hmem. destruct (Hbeta i v Hmem) as (el & Hel & Hnew).
      exists el,
        (set_thumbnail {| url := content_thumbnailWebUrl (content v) |} el).
      split; [exact Hel|]. split; [exact Hnew|]. apply set_thumbnail_spec.
    + intros i el Hi Hne. rewrite <- Hi.
      rewrite fmap_app in Hne. apply not_elem_of_app in Hne as [Hn1 Hn2].
      apply Hout.
      * intros Hk. apply Hn1, Hsub1, Hk.
      * intros Hk. apply Hn2, Hsub2, Hk.
Qed.

(** C3, as the code has it.  A failing batch is caught inside
    [loadState]: the error state stays clear and the primary response is
    the component's response.  When the v1.0 batch fails, the beta batch is
    not executed and the hits are the primary hits, unchanged.  When the
    beta batch fails, the hits are the primary hits as the merge of the
    v1.0 answers left them. *)
Theorem thumbnail_failure_is_dropped
    (h : Host) (c : MgtSearchResults) (r : Response) (hs : list SearchHit)
    (e : exn) :
  signedIn h = true →
  truthy_str (queryString c) = true →
  cacheResult h c = Ok None →
  post h (version c) (requestScopes c) (requestBody c) = Ok (Some r) →
  fetchThumbnail c = true →
  hits_of (Some r) = Some hs →
  let batch := fst (buildBatches 0 hs) in
  let batchBeta := snd (buildBatches 0 hs) in
  (executeAll h batch = Throw e →
     augmentThumbnails h hs = (hs, [EvExecuteAll false batch]) ∧
     response (fst (loadState h c)) = Some r ∧
     error (fst (loadState h c)) = None) ∧
  (∀ m1, executeAll h batch = Ok m1 →
     executeAllBeta h batchBeta = Throw e →
     response (fst (loadState h c)) =
       Some (set_hits (fst (fst (augmentResponse hs m1))) r) ∧
     error (fst (loadState h c)) = None).
Proof.
  intros Hs Hq Hc Hp Hf Hh batch batchBeta.
  destruct (loadState_fetched_thumbnails h c Hs Hq (Some r) hs Hc Hp Hf Hh)
    as (Hresp & Herr & _).
  split.
  - intros He.
    assert (Ha : augmentThumbnails h hs = (hs, [EvExecuteAll false batch])).
    { subst batch batchBeta. unfold augmentThumbnails.
      destruct (buildBatches 0 hs) as [b bb] eqn:Hb. simpl in *. rewrite He.
      reflexivity. }
    split; [exact Ha|]. split; [|exact Herr].
    rewrite Hresp, Ha. simpl. rewrite (set_hits_same r hs Hh). reflexivity.
  - intros m1 He1 He2. split; [|exact Herr].
    rewrite Hresp. simpl. do 2 f_equal.
    subst batch batchBeta. unfold augmentThumbnails.
    destruct (buildBatches 0 hs) as [b bb] eqn:Hb. simpl in *. rewrite He1.
    destruct (augmentResponse hs m1) as [[hs1 evs1] [u|e1]]; simpl;
      [rewrite He2|]; reflexivity.
Qed.

(** C5, as the code has it.  The two batches run one after the other.  In
    the events of a load that fetches thumbnails, the execution of the v1.0
    batch comes first; the thumbnails of its response are attached right
    after it, before the beta batch is executed; the thumbnails of the beta
    batch's response are attached after the beta batch has been executed.
    No thumbnail of a batch is attached before that batch has resolved, but
    the v1.0 thumbnails do not wait for the beta batch. *)
Theorem thumbnails_follow_their_own_batch
    (h : Host) (c : MgtSearchResults) (r : Response) (hs : list SearchHit) :
  signedIn h = true →
  truthy_str (queryString c) = true →
  cacheResult h c = Ok None →
  post h (version c) (requestScopes c) (requestBody c) = Ok (Some r) →
  fetchThumbnail c = true →
  hits_of (Some r) = Some hs →
  let batch := fst (buildBatches 0 hs) in
  let batchBeta := snd (buildBatches 0 hs) in
  ∃ evs1 rest tail,
    snd (loadState h c) =
      cacheEvents h c ++
      EvPost (version c) (requestScopes c) (requestBody c) ::
      EvExecuteAll false batch :: evs1 ++ rest ++ tail ∧
    Forall (λ ev, isThumbnail ev = false) (cacheEvents h c) ∧
    Forall (λ ev, isThumbnail ev = true) evs1 ∧
    evs1 = match executeAll h batch with
           | Ok m1 => snd (fst (augmentResponse hs m1))
           | Throw _ => []
           end ∧
    (rest = [] ∨
     ∃ evs2, rest = EvExecuteAll true batchBeta :: evs2 ∧
             Forall (λ ev, isThumbnail ev = true) evs2 ∧
             ∀ m1 m2, executeAll h batch = Ok m1 →
                      executeAllBeta h batchBeta = Ok m2 →
                      evs2 = snd (fst (augmentResponse
                                         (fst (fst (augmentResponse hs m1))) m2))) ∧
    Forall (λ ev, isThumbnail ev = false) tail.
Proof.
  intros Hs Hq Hc Hp Hf Hh batch batchBeta.
  destruct (loadState_fetched_thumbnails h c Hs Hq (Some r) hs Hc Hp Hf Hh)
    as (_ & _ & Htr).
  destruct (augmentThumbnails_trace h hs)
    as (evs1 & rest & Hev & H1 & Hevs1 & Hrest).
  set (r' := set_hits (fst (augmentThumbnails h hs)) <$> Some r) in *.
  exists evs1, rest, (storeEvents h c (cacheKey c) r' ++ [EvDataChange r' None]).
  split; [|split; [|split; [|split; [|split]]]]; auto.
  - rewrite Htr, Hev. simpl. rewrite <- !app_assoc. reflexivity.
  - destruct (cacheEvents_cases h c) as [-> | ->]; repeat constructor.
  - apply Forall_app. split; [|repeat constructor].
    unfold storeEvents, r'. simpl.
    destruct (shouldUpdateCache h c); repeat constructor.
Qed.

(** ** The properties at concrete runs *)

Lemma thumbnails_attached_by_index_witness :
  let h := Examples.host_online Examples.hits_one_file in
  let c := Examples.component true false None in
  let hs := Examples.hits_one_file in
  (signedIn h = true ∧ fetchThumbnail c = true ∧ cacheResult h c = Ok None ∧
   post h (version c) (requestScopes c) (requestBody c)
     = Ok (Some (Examples.response_with hs)) ∧
   req_id <$> fst (buildBatches 0 hs) = ["2"] ∧
   req_id <$> snd (buildBatches 0 hs) = []) ∧
  ∃ hs', hits_of (response (fst (loadState h c))) = Some hs' ∧
    hs' !! 0%nat = Some Examples.hit_site ∧
    hs' !! 1%nat = Some Examples.hit_person ∧
    ∃ element', hs' !! 2%nat = Some element' ∧
      thumbnail (resource element') =
        Some {| url := Some "https://thumbs/2" |} ∧
      hitId element' = "h-file".
Proof.
  intros h c hs.
  split; [repeat split; reflexivity|].
  pose (v := {| content := {| content_url := Some "https://thumbs/2";
                              content_thumbnailWebUrl :=
                                Some "https://thumbs/page-2" |} |}).
  destruct (thumbnails_attached_by_index h c (Examples.response_with hs) hs
              (Some [("2", v)]) (Some [])
              eq_refl eq_refl eq_refl eq_refl eq_refl eq_refl eq_refl eq_refl
              (NoDup_singleton "2") (NoDup_nil_2 (A:=string))
              (λ k Hk, Hk) (λ k Hk, Hk))
    as (_ & _ & _ & hs' & Hh & _ & Hv1 & _ & Hne).
  exists hs'. split; [exact Hh|].
  split; [apply (Hne 0%nat);
          [reflexivity | apply (bool_decide_unpack _); vm_compute; exact I]|].
  split; [apply (Hne 1%nat);
          [reflexivity | apply (bool_decide_unpack _); vm_compute; exact I]|].
  destruct (Hv1 2%nat v) as (el & el' & Hel & Hel' & Hthumb & Hrest); [left|].
  injection Hel as <-. exists el'. split; [exact Hel'|].
  split; [exact Hthumb|].
  exact (f_equal hitId Hrest).
Defined.

Lemma cache_used_iff_fresh_witness :
  let h := Examples.host_cached 5000 in
  let c := Examples.component false true None in
  let r := Examples.response_with Examples.hits_one_file in
  (signedIn h = true ∧ shouldRetrieveCache h c = true ∧
   getValue h (cacheKey c) = Ok (Some Examples.entry) ∧
   timeCached Examples.entry = Some 1000%Z ∧
   parse_payload h (cr_response Examples.entry) = Ok (Some r) ∧
   getResponseInvalidationTime h (cacheInvalidationPeriod c) = Some 30000%Z ∧
   (now h - 1000 < 30000)%Z) ∧
  response (fst (loadState h c)) = Some r ∧
  posts (snd (loadState h c)) = 0%nat.
Proof.
  intros h c r.
  split; [repeat split; reflexivity|].
  destruct (cache_used_iff_fresh h c Examples.entry 1000%Z r
              eq_refl eq_refl eq_refl eq_refl eq_refl eq_refl)
    as (_ & Hiff & _).
  apply Hiff. exists 30000%Z. split; reflexivity.
Defined.

Lemma thumbnail_failure_is_dropped_witness :
  let hs := Examples.hits_file_and_page in
  let h := Examples.host_batch_fails hs in
  let c := Examples.component true false None in
  (signedIn h = true ∧ fetchThumbnail c = true ∧ cacheResult h c = Ok None ∧
   hits_of (Some (Examples.response_with hs)) = Some hs ∧
   executeAll h (fst (buildBatches 0 hs)) = Throw Examples.network_error) ∧
  response (fst (loadState h c)) = Some (Examples.response_with hs) ∧
  error (fst (loadState h c)) = None.
Proof.
  intros hs h c.
  split; [repeat split; reflexivity|].
  destruct (thumbnail_failure_is_dropped h c (Examples.response_with hs) hs
              Examples.network_error
              eq_refl eq_refl eq_refl eq_refl eq_refl eq_refl)
    as [Hv1 _].
  destruct (Hv1 eq_refl) as (_ & Hresp & Herr). split; assumption.
Defined.

Lemma cache_failure_ends_the_load_witness :
  let h := Examples.host_bad_payload in
  let c := Examples.component false true None in
  (signedIn h = true ∧ shouldRetrieveCache h c = true ∧
   getValue h (cacheKey c) = Ok (Some Examples.entry) ∧
   isFresh h c Examples.entry = true ∧
   parse_payload h (cr_response Examples.entry) = Throw Examples.bad_json) ∧
  posts (snd (loadState h c)) = 0%nat ∧
  error (fst (loadState h c)) = Some Examples.bad_json.
Proof.
  intros h c.
  split; [repeat split; reflexivity|].
  destruct (cache_failure_ends_the_load h c Examples.bad_json
              eq_refl eq_refl eq_refl)
    as (Hposts & _ & Herr & _).
  - right. exists Examples.entry. repeat split; reflexivity.
  - split; [exact Hposts | exact Herr].
Defined.

Lemma thumbnails_follow_their_own_batch_witness :
  let hs := Examples.hits_file_and_page in
  let h := Examples.host_online hs in
  let c := Examples.component true false None in
  (signedIn h = true ∧ fetchThumbnail c = true ∧ cacheResult h c = Ok None ∧
   hits_of (Some (Examples.response_with hs)) = Some hs) ∧
  ∃ evs1 rest tail,
    snd (loadState h c) =
      cacheEvents h c ++
      EvPost (version c) (requestScopes c) (requestBody c) ::
      EvExecuteAll false (fst (buildBatches 0 hs)) :: evs1 ++ rest ++ tail ∧
    evs1 = [EvThumbnail 0 {| url := Some "https://thumbs/0" |}].
Proof.
  intros hs h c.
  split; [repeat split; reflexivity|].
  destruct (thumbnails_follow_their_own_batch h c (Examples.response_with hs)
              hs eq_refl eq_refl eq_refl eq_refl eq_refl eq_refl)
    as (evs1 & rest & tail & Htr & _ & _ & Hevs1 & _).
  exists evs1, rest, tail. split; [exact Htr|].
  rewrite Hevs1. reflexivity.
Defined.

Lemma primary_failure_surfaced_unless_response_held_witness :
  let h := Examples.host_offline in
  let c := Examples.component false false None in
  (signedIn h = true ∧ cacheResult h c = Ok None ∧ response c = None ∧
   post h (version c) (requestScopes c) (requestBody c)
     = Throw Examples.network_error) ∧
  posts (snd (loadState h c)) = 1%nat ∧
  error (fst (loadState h c)) = Some Examples.network_error.
Proof.
  intros h c.
  split; [repeat split; reflexivity|].
  destruct (primary_failure_surfaced_unless_response_held h c
              Examples.network_error eq_refl eq_refl eq_refl eq_refl)
    as (Hposts & _ & Herr).
  split; [exact Hposts | exact Herr].
Defined.

(** ** Where the specification and the code part *)

(** C3, as stated, fails on the code.  The search answers a drive item and
    a page; the v1.0 batch resolves and the beta batch fails.  The failure
    is dropped, but the hits are not the primary hits any more: the drive
    item carries the thumbnail of the v1.0 batch. *)
Lemma beta_failure_leaves_thumbnails :
  let hs := Examples.hits_file_and_page in
  let h := Examples.host_beta_fails hs in
  let c := Examples.component true false None in
  executeAllBeta h (snd (buildBatches 0 hs)) = Throw Examples.network_error ∧
  error (fst (loadState h c)) = None ∧
  hits_of (response (fst (loadState h c))) =
    Some [set_thumbnail {| url := Some "https://thumbs/0" |} Examples.hit_file;
          Examples.hit_page] ∧
  hits_of (response (fst (loadState h c))) ≠ Some hs.
Proof.
  intros hs h c.
  split; [reflexivity|]. split; [reflexivity|].
  split; [vm_compute; reflexivity|]. vm_compute. discriminate.
Qed.

(** C4, as stated, fails on the code.  The store holds a trusted entry
    whose payload does not parse, and the network is up.  The run is not
    that of a cache miss: no search request is sent and the exception is
    the component's error state. *)
Lemma bad_payload_is_not_a_miss :
  let h := Examples.host_bad_payload in
  let c := Examples.component false true None in
  parse_payload h (cr_response Examples.entry) = Throw Examples.bad_json ∧
  posts (snd (loadState h c)) = 0%nat ∧
  error (fst (loadState h c)) = Some Examples.bad_json ∧
  response (fst (loadState h c)) = None ∧
  loadState h c ≠ loadState (with_getValue (λ _, Ok None) h) c ∧
  posts (snd (loadState (with_getValue (λ _, Ok None) h) c)) = 1%nat.
Proof.
  intros h c.
  repeat split; try (vm_compute; reflexivity).
  vm_compute. discriminate.
Qed.

(** C5, as stated, fails on the code.  The search answers a drive item and
    a page, and both batches resolve.  The thumbnail of the drive item is
    attached before the beta batch has been executed. *)
Lemma file_thumbnail_precedes_beta_batch :
  let hs := Examples.hits_file_and_page in
  let h := Examples.host_online hs in
  let c := Examples.component true false None in
  ¬ thumbnails_after_both_batches (snd (loadState h c)).
Proof.
  intros hs h c Hall.
  assert (Hex : ∃ pre i t suf,
             snd (loadState h c) = pre ++ EvThumbnail i t :: suf ∧
             existsb (isExecuteAll true) pre = false).
  { vm_compute. eexists [_; _], _, _, _. split; reflexivity. }
  destruct Hex as (pre & i & t & suf & Htr & Hpre).
  destruct (Hall pre i t suf Htr) as [_ Hbeta]. congruence.
Qed.

(** C7, as stated, fails on the code.  The component holds the response of
    an earlier load and the search request fails: the error state is
    clear, the earlier response stays. *)
Lemma request_failure_hidden_by_held_response :
  let held := Examples.response_with [Examples.hit_file] in
  let h := Examples.host_offline in
  let c := Examples.component false false (Some held) in
  post h (version c) (requestScopes c) (requestBody c)
    = Throw Examples.network_error ∧
  posts (snd (loadState h c)) = 1%nat ∧
  error (fst (loadState h c)) = None ∧
  response (fst (loadState h c)) = Some held.
Proof.
  intros held h c. repeat split; vm_compute; reflexivity.
Qed.

(* ================================================================== *)
(** * Further properties *)

(** ** The window of page buttons *)

Lemma pages_shift (acc : list Page) (i : Z) (k : nat) :
  (acc ++ [mkPage (i + 1)]) ++ (mkPage <$> seqZ (i + 1 + 1) (Z.of_nat k)) =
  acc ++ (mkPage <$> seqZ (i + 1) (Z.of_nat (S k))).
Proof.
  rewrite <- app_assoc. f_equal.
  rewrite (seqZ_cons (i + 1) (Z.of_nat (S k))) by lia.
  rewrite fmap_cons. cbn [app]. do 2 f_equal. f_equal; lia.
Qed.

(** A loop of [getActivePages] appends a run of consecutive pages: the
    condition held before each of them was pushed, and it fails after the
    last one unless the fuel is used up. *)
Lemma pages_for_run (fuel : nat) (cond : Z → list Page → bool) :
  ∀ i acc, ∃ k : nat,
    (k ≤ fuel)%nat ∧
    pages_for fuel cond i acc =
      acc ++ (mkPage <$> seqZ (i + 1) (Z.of_nat k)) ∧
    (∀ j : nat, (j < k)%nat →
       cond (i + Z.of_nat j)%Z
            (acc ++ (mkPage <$> seqZ (i + 1) (Z.of_nat j))) = true) ∧
    ((k < fuel)%nat →
       cond (i + Z.of_nat k)%Z
            (acc ++ (mkPage <$> seqZ (i + 1) (Z.of_nat k))) = false).
Proof.
  induction fuel as [|fuel IH]; intros i acc.
  - exists 0%nat. simpl. rewrite app_nil_r. repeat split; auto; lia.
  - simpl. destruct (cond i acc) eqn:Hc.
    + destruct (IH (i + 1)%Z (acc ++ [mkPage (i + 1)]))
        as (k & Hk & Heq & Ht & Hf).
      exists (S k). split; [lia|]. split; [|split].
      * rewrite Heq. apply pages_shift.
      * intros [|j] Hj.
        -- simpl. rewrite Z.add_0_r, app_nil_r. exact Hc.
        -- rewrite <- pages_shift.
           replace (i + Z.of_nat (S j))%Z with (i + 1 + Z.of_nat j)%Z by lia.
           apply Ht. lia.
      * intros Hlt. rewrite <- pages_shift.
        replace (i + Z.of_nat (S k))%Z with (i + 1 + Z.of_nat k)%Z by lia.
        apply Hf. lia.
    + exists 0%nat. simpl. rewrite Z.add_0_r, app_nil_r.
      repeat split; auto; lia.
Qed.

(** When the condition holds for the first [n] rounds and fails at round
    [n], the loop pushes exactly [n] pages. *)
Lemma pages_for_exact (fuel : nat) (cond : Z → list Page → bool) i acc
    (n : nat) :
  (n ≤ fuel)%nat →
  (∀ j : nat, (j < n)%nat →
     cond (i + Z.of_nat j)%Z
          (acc ++ (mkPage <$> seqZ (i + 1) (Z.of_nat j))) = true) →
  ((n < fuel)%nat →
     cond (i + Z.of_nat n)%Z
          (acc ++ (mkPage <$> seqZ (i + 1) (Z.of_nat n))) = false) →
  pages_for fuel cond i acc = acc ++ (mkPage <$> seqZ (i + 1) (Z.of_nat n)).
Proof.
  intros Hn Htrue Hfalse.
  destruct (pages_for_run fuel cond i acc) as (k & Hk & -> & Ht & Hf).
  destruct (lt_eq_lt_dec k n) as [[Hlt | ->] | Hgt]; [|reflexivity|].
  - rewrite (Htrue k Hlt) in Hf. discriminate Hf. lia.
  - rewrite (Ht n Hgt) in Hfalse. discriminate Hfalse. lia.
Qed.

Lemma number_mkPage (l : list Z) : number <$> (mkPage <$> l) = l.
Proof.
  induction l as [|x l IH]; [reflexivity|].
  rewrite !fmap_cons. simpl. f_equal. exact IH.
Qed.

Lemma getFirstPage_nonneg (c : MgtSearchResults) :
  (0 ≤ pagingMax c)%Z → (0 ≤ getFirstPage c)%Z.
Proof.
  intros Hpm. unfold getFirstPage, floor_half. cbv zeta.
  destruct (Z.leb_spec (pagingMax c / 2) (currentPage c - pagingMax c / 2 - 1));
    [|lia].
  assert (0 ≤ pagingMax c / 2)%Z by (apply Z.div_pos; lia). lia.
Qed.

(** Before page [pagingMax] the first of the two loops is not taken and
    the window starts at page 1. *)
Lemma near_start_branch (c : MgtSearchResults) :
  (0 ≤ pagingMax c)%Z →
  (currentPage c < pagingMax c)%Z →
  getFirstPage c = 0%Z ∧
  ((pagingMax c - currentPage c <? getFirstPage c + 1)%Z
   || (pagingMax c =? currentPage c)%Z) = false.
Proof.
  intros Hpm Hcp.
  assert (Hfirst : getFirstPage c = 0%Z).
  { unfold getFirstPage, floor_half. cbv zeta.
    destruct (Z.leb_spec (pagingMax c / 2)
                (currentPage c - pagingMax c / 2 - 1)); [|reflexivity].
    pose proof (Z.div_mod (pagingMax c) 2 ltac:(lia)).
    pose proof (Z.mod_pos_bound (pagingMax c) 2 ltac:(lia)). lia. }
  split; [exact Hfirst|]. rewrite Hfirst.
  apply orb_false_intro; [apply Z.ltb_ge | apply Z.eqb_neq]; lia.
Qed.

(** From page [pagingMax] on the first of the two loops is taken. *)
Lemma far_branch (c : MgtSearchResults) :
  (0 ≤ pagingMax c)%Z →
  (pagingMax c ≤ currentPage c)%Z →
  ((pagingMax c - currentPage c <? getFirstPage c + 1)%Z
   || (pagingMax c =? currentPage c)%Z) = true.
Proof.
  intros Hpm Hcp. pose proof (getFirstPage_nonneg c Hpm).
  apply orb_true_intro. left. apply Z.ltb_lt. lia.
Qed.

Lemma getActivePages_near_start
    (c : MgtSearchResults) (totalResults : option Z) :
  (0 ≤ pagingMax c)%Z →
  (currentPage c < pagingMax c)%Z →
  getActivePages c totalResults = mkPage <$> seqZ 1 (pagingMax c).
Proof.
  intros Hpm Hcp. destruct (near_start_branch c Hpm Hcp) as [Hfirst Hbranch].
  unfold getActivePages. cbv zeta. rewrite Hbranch, Hfirst.
  rewrite (pages_for_exact _ _ 0%Z [] (Z.to_nat (pagingMax c))).
  - simpl. do 2 f_equal. lia.
  - lia.
  - intros j Hj. apply Z.ltb_lt. lia.
  - lia.
Qed.

(** X1. On the first [pagingMax - 1] pages the page buttons are the pages
    1 to [pagingMax], whatever the number of results: the window is not
    cut at the last page of results. *)
Theorem window_near_start_ignores_total
    (c : MgtSearchResults) (totalResults : option Z) :
  (0 ≤ pagingMax c)%Z →
  (currentPage c < pagingMax c)%Z →
  number <$> getActivePages c totalResults = seqZ 1 (pagingMax c).
Proof.
  intros Hpm Hcp.
  rewrite (getActivePages_near_start c totalResults Hpm Hcp).
  apply number_mkPage.
Qed.

Lemma window_near_start_ignores_total_witness :
  let c := Examples.component false false None in
  ((0 ≤ pagingMax c)%Z ∧ (currentPage c < pagingMax c)%Z) ∧
  number <$> getActivePages c (Some 25%Z) = [1; 2; 3; 4; 5; 6; 7]%Z.
Proof.
  intros c. split; [split; vm_compute; congruence|].
  exact (window_near_start_ignores_total c (Some 25%Z)
           ltac:(vm_compute; congruence) ltac:(reflexivity)).
Defined.

Lemma length_pages_run (start : Z) (j : nat) :
  Z.of_nat (length ([] ++ (mkPage <$> seqZ start (Z.of_nat j)))) = Z.of_nat j.
Proof. simpl. rewrite length_fmap, length_seqZ. lia. Qed.

Lemma getActivePages_far
    (c : MgtSearchResults) (totalResults : option Z) :
  (0 ≤ pagingMax c)%Z →
  (pagingMax c ≤ currentPage c)%Z →
  ∃ n : nat,
    getActivePages c totalResults =
      mkPage <$> seqZ (getFirstPage c + 2) (Z.of_nat n) ∧
    (Z.of_nat n ≤ Z.max 0 (pagingMax c - 2))%Z ∧
    (∀ p, p ∈ seqZ (getFirstPage c + 2) (Z.of_nat n) →
       (2 ≤ p)%Z ∧
       lt_jsnum (p - 1) (ceil_quot totalResults (size_ c)) = true).
Proof.
  intros Hpm Hcp. pose proof (getFirstPage_nonneg c Hpm) as Hfp.
  unfold getActivePages. cbv zeta. rewrite (far_branch c Hpm Hcp).
  match goal with
  | |- context [pages_for ?fuel ?cond ?i []] =>
      destruct (pages_for_run fuel cond i []) as (k & _ & -> & Ht & _)
  end.
  exists k. simpl app.
  split; [do 2 f_equal; lia|]. split.
  - destruct k as [|k]; [lia|].
    specialize (Ht k ltac:(lia)). cbv beta in Ht.
    apply andb_prop in Ht as [_ Hlen]. rewrite length_pages_run in Hlen.
    apply Z.ltb_lt in Hlen. lia.
  - intros p Hp. apply elem_of_seqZ in Hp as [Hlo Hhi].
    split; [lia|].
    specialize (Ht (Z.to_nat (p - (getFirstPage c + 1 + 1))) ltac:(lia)).
    cbv beta in Ht. apply andb_prop in Ht as [Ht _].
    apply andb_prop in Ht as [Ht _].
    replace (getFirstPage c + 1 +
             Z.of_nat (Z.to_nat (p - (getFirstPage c + 1 + 1))))%Z
      with (p - 1)%Z in Ht by lia.
    exact Ht.
Qed.

(** X2. From page [pagingMax] on, the page buttons are a run of
    consecutive pages that starts at page [getFirstPage + 2], so never at
    page 1, is at most [pagingMax - 2] long, and has no page beyond the
    last page of results, [Math.ceil(totalResults / size)]. *)
Theorem window_far_from_start
    (c : MgtSearchResults) (totalResults : option Z) :
  (0 ≤ pagingMax c)%Z →
  (pagingMax c ≤ currentPage c)%Z →
  ∃ n : nat,
    number <$> getActivePages c totalResults =
      seqZ (getFirstPage c + 2) (Z.of_nat n) ∧
    (Z.of_nat n ≤ Z.max 0 (pagingMax c - 2))%Z ∧
    (∀ p, p ∈ number <$> getActivePages c totalResults →
       (2 ≤ p)%Z ∧
       lt_jsnum (p - 1) (ceil_quot totalResults (size_ c)) = true).
Proof.
  intros Hpm Hcp.
  destruct (getActivePages_far c totalResults Hpm Hcp) as (n & -> & Hn & Hp).
  exists n. rewrite number_mkPage. auto.
Qed.

Lemma window_far_from_start_witness :
  let c := with_currentPage 9 paging_example in
  ((0 ≤ pagingMax c)%Z ∧ (pagingMax c ≤ currentPage c)%Z) ∧
  ∃ n : nat,
    number <$> getActivePages c (Some 95%Z) = seqZ 7 (Z.of_nat n) ∧
    (Z.of_nat n ≤ 5)%Z.
Proof.
  intros c. split; [split; vm_compute; congruence|].
  destruct (window_far_from_start c (Some 95%Z)
              ltac:(vm_compute; congruence) ltac:(vm_compute; congruence))
    as (n & Hw & Hn & _).
  exists n. split; [exact Hw | exact Hn].
Defined.

(** X3. Far enough from both ends the window is centred on the current
    page.  With [h = Math.floor(pagingMax / 2)], from page [2h + 1] on and
    as long as page [currentPage - h + pagingMax - 2] exists, the page
    buttons are the [pagingMax - 2] pages from [currentPage - h + 1] on;
    for an odd [pagingMax] these are the pages [currentPage - (h - 1)] to
    [currentPage + (h - 1)]. *)
Theorem window_centered_far_from_ends
    (c : MgtSearchResults) (t : Z) :
  (2 ≤ pagingMax c)%Z →
  (2 * (pagingMax c / 2) + 1 ≤ currentPage c)%Z →
  (0 < size_ c)%Z →
  (currentPage c - pagingMax c / 2 + pagingMax c - 2
     ≤ - ((- t) / size_ c))%Z →
  number <$> getActivePages c (Some t) =
    seqZ (currentPage c - pagingMax c / 2 + 1) (pagingMax c - 2) ∧
  (pagingMax c mod 2 = 1 →
   centered_on (currentPage c) (number <$> getActivePages c (Some t)))%Z.
Proof.
  intros Hpm Hcp Hsize Hlast.
  set (hf := (pagingMax c / 2)%Z) in *.
  assert (Hdiv : (pagingMax c = 2 * hf + pagingMax c mod 2)%Z)
    by (apply Z.div_mod; lia).
  pose proof (Z.mod_pos_bound (pagingMax c) 2 ltac:(lia)) as Hmod.
  assert (Hfirst : getFirstPage c = (currentPage c - hf - 1)%Z).
  { unfold getFirstPage, floor_half. cbv zeta. fold hf.
    destruct (Z.leb_spec hf (currentPage c - hf - 1)); [reflexivity | lia]. }
  assert (Hwin : number <$> getActivePages c (Some t) =
                 seqZ (currentPage c - hf + 1) (pagingMax c - 2)).
  { unfold getActivePages. cbv zeta.
    rewrite (far_branch c ltac:(lia) ltac:(lia)), Hfirst.
    rewrite (pages_for_exact _ _ _ [] (Z.to_nat (pagingMax c - 2))).
    - simpl app. rewrite number_mkPage. f_equal; lia.
    - lia.
    - intros j Hj. rewrite length_pages_run.
      unfold ceil_quot. destruct (Z.eqb_spec (size_ c) 0); [lia|].
      simpl lt_jsnum.
      repeat (apply andb_true_intro; split); apply Z.ltb_lt; lia.
    - intros _. rewrite length_pages_run.
      apply andb_false_intro2. apply Z.ltb_ge. lia. }
  split; [exact Hwin|].
  intros Hodd. rewrite Hwin. exists (Z.to_nat (hf - 1)).
  f_equal; lia.
Qed.

Lemma window_centered_far_from_ends_witness :
  let c := with_currentPage 8 paging_example in
  ((2 ≤ pagingMax c)%Z ∧ (2 * (pagingMax c / 2) + 1 ≤ currentPage c)%Z ∧
   (0 < size_ c)%Z ∧ (pagingMax c mod 2 = 1)%Z) ∧
  number <$> getActivePages c (Some 95%Z) = [6; 7; 8; 9; 10]%Z ∧
  centered_on 8 (number <$> getActivePages c (Some 95%Z)).
Proof.
  intros c. split; [repeat split; vm_compute; congruence|].
  destruct (window_centered_far_from_ends c 95%Z
              ltac:(vm_compute; congruence) ltac:(vm_compute; congruence)
              ltac:(reflexivity) ltac:(vm_compute; congruence))
    as [Hw Hc].
  split; [exact Hw | exact (Hc eq_refl)].
Defined.

(** X4. There are never more page buttons than [pagingMax], and they are
    always consecutive pages from page 1 or later. *)
Theorem window_is_a_short_run
    (c : MgtSearchResults) (totalResults : option Z) :
  (0 ≤ pagingMax c)%Z →
  ∃ start n,
    number <$> getActivePages c totalResults = seqZ start n ∧
    (1 ≤ start)%Z ∧ (0 ≤ n ≤ pagingMax c)%Z.
Proof.
  intros Hpm.
  destruct (Z.lt_ge_cases (currentPage c) (pagingMax c)) as [Hlt | Hge].
  - exists 1%Z, (pagingMax c). split; [|lia].
    rewrite (getActivePages_near_start c totalResults Hpm Hlt).
    apply number_mkPage.
  - pose proof (getFirstPage_nonneg c Hpm) as Hfp.
    destruct (getActivePages_far c totalResults Hpm Hge) as (n & -> & Hn & _).
    exists (getFirstPage c + 2)%Z, (Z.of_nat n).
    split; [apply number_mkPage|]. lia.
Qed.

Lemma window_is_a_short_run_witness :
  let c := with_currentPage 9 paging_example in
  (0 ≤ pagingMax c)%Z ∧
  ∃ start n,
    number <$> getActivePages c (Some 95%Z) = seqZ start n ∧
    (1 ≤ start)%Z ∧ (0 ≤ n ≤ 7)%Z.
Proof.
  intros c. split; [vm_compute; congruence|].
  exact (window_is_a_short_run c (Some 95%Z) ltac:(vm_compute; congruence)).
Defined.

(** ** Where the controls of the footer lead *)

Lemma currentPage_goToPage (v : Z) (c : MgtSearchResults) :
  currentPage (fst (goToPage v c)) = v.
Proof.
  unfold goToPage, set_currentPage, currentPage. simpl.
  destruct (decide (_currentPage c = v)); simpl; auto.
Qed.

Lemma page_numbers_positive (c : MgtSearchResults) (totalResults : option Z) :
  (0 ≤ pagingMax c)%Z →
  Forall (λ p, 1 ≤ number p)%Z (getActivePages c totalResults).
Proof.
  intros Hpm. apply Forall_forall. intros p Hp.
  apply (list_elem_of_fmap_2 number) in Hp.
  destruct (Z.lt_ge_cases (currentPage c) (pagingMax c)) as [Hlt | Hge].
  - rewrite (getActivePages_near_start c totalResults Hpm Hlt) in Hp.
    rewrite number_mkPage in Hp. apply elem_of_seqZ in Hp. lia.
  - destruct (getActivePages_far c totalResults Hpm Hge) as (n & Hw & _ & Hall).
    rewrite Hw, number_mkPage in Hp. apply Hall in Hp. lia.
Qed.

(** The first-page button is only rendered from page [pagingMax] on. *)
Lemma first_page_button_far (c : MgtSearchResults) (totalResults : option Z)
    (dots : option Z) :
  (1 ≤ pagingMax c)%Z →
  renderFirstPage c (getActivePages c totalResults) = FirstPageButton dots →
  (pagingMax c ≤ currentPage c)%Z.
Proof.
  intros Hpm Hfirst.
  destruct (Z.lt_ge_cases (currentPage c) (pagingMax c)) as [Hlt | Hge];
    [|exact Hge].
  unfold renderFirstPage in Hfirst.
  rewrite (getActivePages_near_start c totalResults ltac:(lia) Hlt) in Hfirst.
  rewrite (seqZ_cons 1 (pagingMax c)) in Hfirst by lia.
  simpl in Hfirst. discriminate Hfirst.
Qed.

(** X5. With [pagingMax >= 2] and the current page at 1 or later, every
    control of a rendered footer (previous, first page, the ellipsis, the
    page buttons, next) leads to page 1 or a later page. *)
Theorem footer_controls_lead_to_pages
    (c : MgtSearchResults) (f : Footer) :
  (2 ≤ pagingMax c)%Z →
  (1 ≤ currentPage c)%Z →
  footerTemplate c = Ok (Some f) →
  Forall (λ target, 1 ≤ target)%Z (footer_targets c f).
Proof.
  intros Hpm Hcp Hf.
  unfold footerTemplate, renderFooter in Hf.
  destruct (pagingRequired c (first_container (response c))); [|discriminate].
  destruct (renderNextPage c) as [next|e]; [|discriminate].
  injection Hf as <-. unfold footer_targets. cbn [previousPage firstPage allPages nextPage].
  set (total := first_container (response c) ≫= total).
  unfold onPageBackClick, onFirstPageClick, onPageNextClick, onPageClick.
  rewrite !currentPage_goToPage.
  apply Forall_app. split.
  { unfold renderPreviousPage. destruct (Z.ltb_spec 1 (currentPage c));
      repeat constructor. lia. }
  apply Forall_app. split.
  { destruct (renderFirstPage c (getActivePages c total)) as [|dots] eqn:Hfirst;
      [constructor|].
    constructor; [lia|].
    pose proof (first_page_button_far c total dots ltac:(lia) Hfirst) as Hfar.
    unfold renderFirstPage in Hfirst.
    destruct (existsb _ _); [discriminate|]. injection Hfirst as <-.
    destruct (Z.ltb_spec 0 (currentPage c - floor_half (pagingMax c)));
      cbv iota beta; [|constructor].
    rewrite currentPage_goToPage. repeat constructor.
    unfold ceil_half.
    pose proof (Z.div_mod (- pagingMax c) 2 ltac:(lia)).
    pose proof (Z.mod_pos_bound (- pagingMax c) 2 ltac:(lia)). lia. }
  apply Forall_app. split.
  { unfold renderAllPages. rewrite <- list_fmap_compose.
    apply Forall_fmap.
    eapply Forall_impl; [apply (page_numbers_positive c total); lia|].
    intros p Hp. unfold compose. cbn [pb_number].
    rewrite currentPage_goToPage. exact Hp. }
  destruct next; repeat constructor. lia.
Qed.

Lemma footer_controls_lead_to_pages_witness :
  let c := with_currentPage 8 paging_example in
  ((2 ≤ pagingMax c)%Z ∧ (1 ≤ currentPage c)%Z) ∧
  ∃ f, footerTemplate c = Ok (Some f) ∧
       footer_targets c f = [7; 1; 4; 6; 7; 8; 9; 10; 9]%Z ∧
       Forall (λ target, 1 ≤ target)%Z (footer_targets c f).
Proof.
  intros c. split; [split; vm_compute; congruence|].
  eexists. split; [vm_compute; reflexivity|]. split; [reflexivity|].
  apply (footer_controls_lead_to_pages c);
    [vm_compute; congruence | vm_compute; congruence | reflexivity].
Defined.

(** X6. With a positive page size and the backend not announcing more
    results, the footer is not rendered on the last page, and whenever a
    footer is rendered it has the next-page control: [isLastPage] only
    hides that control when the backend announces more results. *)
Theorem footer_gone_on_last_page (c : MgtSearchResults) :
  (0 < size_ c)%Z →
  (first_container (response c) ≫= moreResultsAvailable) ≠ Some true →
  (isLastPage c = Ok true → footerTemplate c = Ok None) ∧
  (∀ f, footerTemplate c = Ok (Some f) → nextPage f = true).
Proof.
  intros Hsize Hmore.
  assert (Hkey : ∀ hc, first_container (response c) = Some hc →
            pagingRequired c (Some hc) = true →
            eq_jsnum (currentPage c) (ceil_quot (total hc) (size_ c)) = false).
  { intros hc Hc Hreq. rewrite Hc in Hmore. simpl in Hmore.
    unfold pagingRequired in Hreq. simpl in Hreq.
    destruct (moreResultsAvailable hc) as [[]|]; try congruence;
      simpl in Hreq;
      (destruct (total hc) as [t|]; simpl in *; [|discriminate];
       apply Z.ltb_lt in Hreq;
       destruct (Z.eqb_spec (size_ c) 0); [lia|]; simpl;
       apply Z.eqb_neq; intros Heq;
       pose proof (Z.div_mod (- t) (size_ c) ltac:(lia));
       pose proof (Z.mod_pos_bound (- t) (size_ c) Hsize); nia). }
  unfold footerTemplate, renderFooter, renderNextPage, isLastPage.
  destruct (first_container (response c)) as [hc|] eqn:Hc.
  - destruct (pagingRequired c (Some hc)) eqn:Hreq.
    + rewrite (Hkey hc eq_refl Hreq). split; [discriminate|].
      intros f [= <-]. reflexivity.
    + split; [reflexivity | discriminate].
  - split; [discriminate|]. unfold pagingRequired. simpl. discriminate.
Qed.

Lemma footer_gone_on_last_page_witness :
  let c := with_currentPage 10 paging_example in
  ((0 < size_ c)%Z ∧
   (first_container (response c) ≫= moreResultsAvailable) ≠ Some true ∧
   isLastPage c = Ok true) ∧
  footerTemplate c = Ok None.
Proof.
  intros c.
  assert (Hmore : (first_container (response c) ≫= moreResultsAvailable)
                  ≠ Some true) by (vm_compute; congruence).
  split; [split; [reflexivity | split; [exact Hmore | reflexivity]]|].
  destruct (footer_gone_on_last_page c ltac:(reflexivity) Hmore) as [Hlast _].
  apply Hlast. reflexivity.
Defined.

(** ** Every run of [loadState] *)

Lemma loadState_signed_out h c :
  signedIn h = false → loadState h c = (with_error None c, []).
Proof. intros Hs. unfold loadState. rewrite Hs. reflexivity. Qed.

Lemma loadState_no_query h c :
  signedIn h = true →
  truthy_str (queryString c) = false →
  loadState h c =
  (with_isRefreshing false (with_response None (with_error None c)),
   [EvDataChange None None]).
Proof.
  intros Hs Hq. unfold loadState. rewrite Hs. simpl negb. cbv iota.
  change (queryString (with_error None c)) with (queryString c). rewrite Hq.
  reflexivity.
Qed.

(** The cases of a run of a signed-in component with a query. *)
Ltac load_cases h c Hs Hq :=
  let r := fresh "r" in
  let e := fresh "e" in
  let hs := fresh "hs" in
  destruct (cacheResult h c) as [[r|]|e] eqn:Hc;
  [ destruct (loadState_cache_hit h c Hs Hq r Hc) as (Hresp & Herr & Htr)
  | destruct (post h (version c) (requestScopes c) (requestBody c))
      as [r|e] eqn:Hp;
    [ destruct (fetchThumbnail c) eqn:Hf;
      [ destruct (hits_of r) as [hs|] eqn:Hh;
        [ destruct (loadState_fetched_thumbnails h c Hs Hq r hs Hc Hp Hf Hh)
            as (Hresp & Herr & Htr)
        | destruct (loadState_fetched_no_hits h c Hs Hq r Hc Hp Hf Hh)
            as (Hresp & Herr & Htr) ]
      | destruct (loadState_fetched h c Hs Hq r Hc Hp Hf)
          as (Hresp & Herr & Htr) ]
    | destruct (loadState_post_throw h c Hs Hq e Hc Hp)
        as (Hresp & Herr & Htr) ]
  | destruct (loadState_cache_throw h c Hs Hq e Hc) as (Hresp & Herr & Htr) ].

(** X7. After any run of [loadState] the component does not hold a
    response and an error at once: an error is only ever left when there
    is nothing to show. *)
Theorem response_and_error_exclude (h : Host) (c : MgtSearchResults) :
  is_Some (response (fst (loadState h c))) →
  error (fst (loadState h c)) = None.
Proof.
  destruct (signedIn h) eqn:Hs;
    [|rewrite (loadState_signed_out h c Hs); reflexivity].
  destruct (truthy_str (queryString c)) eqn:Hq;
    [|rewrite (loadState_no_query h c Hs Hq); reflexivity].
  load_cases h c Hs Hq; rewrite Hresp, Herr; try reflexivity;
    intros [r' Hr']; rewrite Hr'; reflexivity.
Qed.

Lemma response_and_error_exclude_witness :
  let held := Examples.response_with [Examples.hit_file] in
  let c := Examples.component false false (Some held) in
  is_Some (response (fst (loadState Examples.host_offline c))) ∧
  error (fst (loadState Examples.host_offline c)) = None.
Proof.
  intros held c.
  assert (H : is_Some (response (fst (loadState Examples.host_offline c))))
    by (exists held; reflexivity).
  split; [exact H|].
  exact (response_and_error_exclude Examples.host_offline c H).
Defined.

(** X8. A run of a signed-in component ends by firing [dataChange] with
    the response and the error the component is left with, and with
    [isRefreshing] reset; a run without a signed-in provider fires nothing
    and leaves [isRefreshing] and the response as they were. *)
Theorem dataChange_reports_final_state (h : Host) (c : MgtSearchResults) :
  (signedIn h = true →
   last (snd (loadState h c)) =
     Some (EvDataChange (response (fst (loadState h c)))
                        (error (fst (loadState h c)))) ∧
   isRefreshing (fst (loadState h c)) = false) ∧
  (signedIn h = false →
   snd (loadState h c) = [] ∧
   isRefreshing (fst (loadState h c)) = isRefreshing c ∧
   response (fst (loadState h c)) = response c).
Proof.
  split; intros Hs.
  - unfold loadState. rewrite Hs. simpl negb. cbv iota.
    destruct (truthy_str (queryString (with_error None c))).
    + destruct (tryBlock h (with_error None c) (with_error None c, []))
        as [[c1 tr] r].
      split; [apply last_snoc | reflexivity].
    + split; reflexivity.
  - rewrite (loadState_signed_out h c Hs). auto.
Qed.

(** X9. No run of [loadState] sends the search request more than once,
    and a run without a signed-in provider or without a query string sends
    none. *)
Theorem at_most_one_request (h : Host) (c : MgtSearchResults) :
  (posts (snd (loadState h c)) ≤ 1)%nat ∧
  (signedIn h = false ∨ truthy_str (queryString c) = false →
   posts (snd (loadState h c)) = 0%nat).
Proof.
  destruct (signedIn h) eqn:Hs;
    [|rewrite (loadState_signed_out h c Hs); unfold posts; simpl;
      split; [lia | auto]].
  destruct (truthy_str (queryString c)) eqn:Hq;
    [|rewrite (loadState_no_query h c Hs Hq); split; [|reflexivity];
      unfold posts; simpl; lia].
  split; [|intros [H|H]; discriminate].
  destruct (cacheResult h c) as [[r|]|e] eqn:Hc.
  - rewrite (posts_cache_hit h c r Hs Hq Hc). lia.
  - rewrite (posts_cache_miss h c Hs Hq Hc). lia.
  - rewrite (posts_cache_throw h c e Hs Hq Hc). lia.
Qed.

(** *** What the events of a run can be *)

Lemma existsb_thumbnails (p : Event → bool) (evs : list Event) :
  (∀ i t, p (EvThumbnail i t) = false) →
  Forall (λ e, isThumbnail e = true) evs →
  existsb p evs = false.
Proof.
  intros Hp. induction 1 as [|e evs He _ IH]; [reflexivity|].
  simpl. rewrite IH, orb_false_r. destruct e; try discriminate He. apply Hp.
Qed.

Lemma existsb_augmentThumbnails (p : Event → bool) h hs :
  (∀ b reqs, p (EvExecuteAll b reqs) = false) →
  (∀ i t, p (EvThumbnail i t) = false) →
  existsb p (snd (augmentThumbnails h hs)) = false.
Proof.
  intros Hex Hth.
  destruct (augmentThumbnails_trace h hs)
    as (evs1 & rest & -> & H1 & _ & Hrest).
  simpl. rewrite Hex, List.existsb_app, (existsb_thumbnails p evs1 Hth H1).
  destruct Hrest as [-> | (evs2 & -> & H2 & _)]; [reflexivity|].
  simpl. rewrite Hex. apply (existsb_thumbnails p evs2 Hth H2).
Qed.

Lemma existsb_cacheEvents (p : Event → bool) h c :
  (∀ key, p (EvCacheGet key) = false) → existsb p (cacheEvents h c) = false.
Proof.
  intros Hp. destruct (cacheEvents_cases h c) as [-> | ->]; simpl;
    [reflexivity|]. rewrite Hp. reflexivity.
Qed.

Lemma existsb_storeEvents (p : Event → bool) h c key r :
  (∀ k payload, p (EvCachePut k payload) = false) →
  existsb p (storeEvents h c key r) = false.
Proof.
  intros Hp. unfold storeEvents.
  destruct r; [destruct (shouldUpdateCache h c)|]; simpl; rewrite ?Hp;
    reflexivity.
Qed.

Ltac no_such_event :=
  rewrite ?List.existsb_app;
  rewrite ?existsb_cacheEvents, ?existsb_storeEvents,
    ?existsb_augmentThumbnails by (intros; reflexivity);
  try reflexivity.

(** X10. A batch is executed, and a thumbnail attached, only in a run that
    has [fetchThumbnail] on and has sent the search request: never with
    thumbnails off, and never when the response comes from the cache. *)
Theorem batches_only_after_a_request
    (h : Host) (c : MgtSearchResults) :
  existsb isBatchEvent (snd (loadState h c)) = true →
  fetchThumbnail c = true ∧ posts (snd (loadState h c)) = 1%nat.
Proof.
  destruct (signedIn h) eqn:Hs;
    [|rewrite (loadState_signed_out h c Hs); discriminate].
  destruct (truthy_str (queryString c)) eqn:Hq;
    [|rewrite (loadState_no_query h c Hs Hq); discriminate].
  load_cases h c Hs Hq;
    try (rewrite Htr; no_such_event; discriminate).
  intros _. split; [reflexivity | exact (posts_cache_miss h c Hs Hq Hc)].
Qed.

Lemma batches_only_after_a_request_witness :
  let h := Examples.host_online Examples.hits_one_file in
  let c := Examples.component true false None in
  existsb isBatchEvent (snd (loadState h c)) = true ∧
  fetchThumbnail c = true ∧ posts (snd (loadState h c)) = 1%nat.
Proof.
  intros h c.
  assert (H : existsb isBatchEvent (snd (loadState h c)) = true)
    by (vm_compute; reflexivity).
  split; [exact H | exact (batches_only_after_a_request h c H)].
Defined.

Lemma elem_of_cacheEvents h c e :
  e ∈ cacheEvents h c → e = EvCacheGet (cacheKey c).
Proof.
  destruct (cacheEvents_cases h c) as [-> | ->]; intros H.
  - inversion H.
  - apply list_elem_of_singleton in H. exact H.
Qed.

Lemma elem_of_storeEvents h c key r k payload :
  EvCachePut k payload ∈ storeEvents h c key r →
  shouldUpdateCache h c = true ∧ k = key ∧
  ∃ body, r = Some body ∧ payload = JSON_stringify_response h body.
Proof.
  unfold storeEvents. destruct r as [body|]; [|intros H; inversion H].
  destruct (shouldUpdateCache h c); [|intros H; inversion H].
  intros H. apply list_elem_of_singleton in H. injection H as -> ->. eauto.
Qed.

Lemma cachePut_not_in_augmentThumbnails h hs k payload :
  EvCachePut k payload ∉ snd (augmentThumbnails h hs).
Proof.
  intros Hin.
  assert (H : existsb isCachePut (snd (augmentThumbnails h hs)) = true).
  { apply List.existsb_exists. exists (EvCachePut k payload).
    split; [apply list_elem_of_In, Hin | reflexivity]. }
  rewrite existsb_augmentThumbnails in H by reflexivity. discriminate H.
Qed.

(** X11. The store is written only by a run that has caching on and has
    sent the search request, under the key of that request, and what is
    written is the text of the very response the component is left with
    (thumbnails included).  A response read from the cache is never written
    back. *)
Theorem cache_is_written_after_a_request
    (h : Host) (c : MgtSearchResults) (k payload : string) :
  EvCachePut k payload ∈ snd (loadState h c) →
  shouldUpdateCache h c = true ∧
  k = cacheKey c ∧
  posts (snd (loadState h c)) = 1%nat ∧
  ∃ r, response (fst (loadState h c)) = Some r ∧
       payload = JSON_stringify_response h r.
Proof.
  destruct (signedIn h) eqn:Hs;
    [|rewrite (loadState_signed_out h c Hs); intros H; inversion H].
  destruct (truthy_str (queryString c)) eqn:Hq.
  2:{ rewrite (loadState_no_query h c Hs Hq). intros H.
      apply list_elem_of_singleton in H. discriminate H. }
  load_cases h c Hs Hq; intros Hin; rewrite Htr in Hin; rewrite Hresp;
    repeat (apply elem_of_app in Hin as [Hin | Hin]);
    try (apply elem_of_cacheEvents in Hin; discriminate Hin);
    try (apply list_elem_of_singleton in Hin; discriminate Hin);
    try (exfalso; exact (cachePut_not_in_augmentThumbnails _ _ _ _ Hin));
    try (apply elem_of_cons in Hin as [Hin | Hin]; [discriminate Hin|];
         apply list_elem_of_singleton in Hin; discriminate Hin);
    apply elem_of_storeEvents in Hin as (Hu & -> & body & Hbody & ->);
    (split; [exact Hu|]; split; [reflexivity|];
     split; [exact (posts_cache_miss h c Hs Hq Hc)|];
     exists body; split; [exact Hbody | reflexivity]).
Qed.

Lemma cache_is_written_after_a_request_witness :
  let hs := Examples.hits_one_file in
  let h := Examples.host_online hs in
  let c := Examples.component true true None in
  let k := cacheKey c in
  EvCachePut k "<response>" ∈ snd (loadState h c) ∧
  shouldUpdateCache h c = true ∧
  posts (snd (loadState h c)) = 1%nat.
Proof.
  intros hs h c k.
  assert (H : EvCachePut k "<response>" ∈ snd (loadState h c)).
  { apply list_elem_of_In. vm_compute. do 5 right. left. reflexivity. }
  split; [exact H|].
  destruct (cache_is_written_after_a_request h c k "<response>" H)
    as (Hu & _ & Hp & _).
  split; [exact Hu | exact Hp].
Defined.

(** ** Empty queries and refreshes *)

Lemma queryString_set_queryString v c :
  queryString (fst (set_queryString v c)) = v.
Proof.
  unfold set_queryString, queryString.
  destruct (decide (_queryString c = v)); simpl; auto.
Qed.

(** X12. Assigning an empty (or undefined, or null) query string and loading
    clears the component: it is left with no response and no error, and
    the run reaches nothing outside the component, neither the store nor
    the search endpoint. *)
Theorem empty_query_clears_without_request
    (h : Host) (c : MgtSearchResults) (v : nullable string) :
  signedIn h = true →
  truthy_str v = false →
  let run := loadState h (fst (set_queryString v c)) in
  response (fst run) = None ∧
  error (fst run) = None ∧
  existsb isExternal (snd run) = false.
Proof.
  intros Hs Hv run. subst run.
  rewrite (loadState_no_query h _ Hs)
    by (rewrite queryString_set_queryString; exact Hv).
  repeat split.
Qed.

Lemma empty_query_clears_without_request_witness :
  let held := Examples.response_with [Examples.hit_file] in
  let h := Examples.host_online Examples.hits_one_file in
  let c := Examples.component true true (Some held) in
  (signedIn h = true ∧ truthy_str (Val EmptyString) = false ∧
   response c = Some held) ∧
  response (fst (loadState h (fst (set_queryString (Val EmptyString) c))))
    = None.
Proof.
  intros held h c. split; [repeat split|].
  exact (proj1 (empty_query_clears_without_request h c (Val EmptyString)
                  eq_refl eq_refl)).
Defined.

Lemma isRefreshing_loadState h c :
  signedIn h = true → isRefreshing (fst (loadState h c)) = false.
Proof.
  intros Hs. unfold loadState. rewrite Hs. simpl negb. cbv iota.
  destruct (truthy_str (queryString (with_error None c))); [|reflexivity].
  destruct (tryBlock h (with_error None c) (with_error None c, []))
    as [[c1 tr] r]. reflexivity.
Qed.

(** X13. A load that follows [refresh] does not read the store, whatever
    the cache settings, and sends the search request once; it leaves
    [isRefreshing] reset.  After a hard refresh a failing request is the
    component's error state, the earlier response being gone. *)
Theorem refresh_bypasses_the_cache
    (h : Host) (c : MgtSearchResults) (hardRefresh : bool) :
  signedIn h = true →
  truthy_str (queryString c) = true →
  let run := loadState h (fst (refresh hardRefresh c)) in
  existsb isCacheGet (snd run) = false ∧
  posts (snd run) = 1%nat ∧
  isRefreshing (fst run) = false ∧
  (hardRefresh = true →
   ∀ e, post h (version c) (requestScopes c) (requestBody c) = Throw e →
        error (fst run) = Some e ∧ response (fst run) = None).
Proof.
  intros Hs Hq run. subst run.
  set (c1 := fst (refresh hardRefresh c)).
  assert (Hq1 : truthy_str (queryString c1) = true).
  { unfold c1, refresh, clearState. destruct hardRefresh; exact Hq. }
  assert (Hr : shouldRetrieveCache h c1 = false).
  { unfold shouldRetrieveCache, c1, refresh, clearState.
    destruct hardRefresh; simpl; rewrite andb_false_r; reflexivity. }
  destruct (cacheStage_disabled h c1 Hr) as [Hmiss Hev].
  split; [|split; [|split]].
  - load_cases h c1 Hs Hq1; try congruence;
      rewrite Htr, Hev; simpl; no_such_event.
  - exact (posts_cache_miss h c1 Hs Hq1 Hmiss).
  - apply (isRefreshing_loadState h c1 Hs).
  - intros -> e Hp.
    assert (Hp1 : post h (version c1) (requestScopes c1) (requestBody c1)
                  = Throw e) by exact Hp.
    destruct (loadState_post_throw h c1 Hs Hq1 e Hmiss Hp1) as (H1 & H2 & _).
    split; [exact H2 | exact H1].
Qed.

Lemma refresh_bypasses_the_cache_witness :
  let h := Examples.host_cached 5000 in
  let c := Examples.component false true None in
  (signedIn h = true ∧ truthy_str (queryString c) = true ∧
   shouldRetrieveCache h c = true) ∧
  posts (snd (loadState h c)) = 0%nat ∧
  posts (snd (loadState h (fst (refresh false c)))) = 1%nat ∧
  existsb isCacheGet (snd (loadState h (fst (refresh false c)))) = false.
Proof.
  intros h c. split; [repeat split|].
  split; [vm_compute; reflexivity|].
  destruct (refresh_bypasses_the_cache h c false eq_refl eq_refl)
    as (Hget & Hposts & _).
  split; [exact Hposts | exact Hget].
Defined.

(** ** What the merge of thumbnails keeps *)

Lemma lookup_key_from_inv hs :
  ∀ j key i element,
    lookup_key_from j hs key = Some (i, element) →
    ∃ k, i = (j + k)%nat ∧ hs !! k = Some element ∧ key = toString i.
Proof.
  induction hs as [|x hs IH]; intros j key i element H; [discriminate|].
  simpl in H. destruct (String.eqb (toString j) key) eqn:E.
  - injection H as <- <-. apply String.eqb_eq in E.
    exists 0%nat. rewrite Nat.add_0_r. auto.
  - apply IH in H as (k & -> & Hk & ->). exists (S k).
    split; [lia|]. split; [exact Hk | f_equal; lia].
Qed.

Lemma lookup_key_inv hs key i element :
  lookup_key hs key = Some (i, element) →
  hs !! i = Some element ∧ key = toString i.
Proof.
  intros H. apply lookup_key_from_inv in H as (k & -> & Hk & ->). auto.
Qed.

Lemma without_thumbnail_set_thumbnail t element :
  without_thumbnail (set_thumbnail t element) = without_thumbnail element.
Proof. reflexivity. Qed.

Lemma augmentEntries_keeps (entries : BatchMap) :
  ∀ hs, without_thumbnail <$> fst (fst (augmentEntries hs entries))
        = without_thumbnail <$> hs.
Proof.
  induction entries as [|[key v] rest IH]; intros hs; [reflexivity|].
  simpl. destruct (lookup_key hs key) as [[i result]|] eqn:Hk; [|reflexivity].
  apply lookup_key_inv in Hk as [Hi _].
  specialize (IH (<[i:=set_thumbnail (thumbnailFor result v) result]> hs)).
  destruct (augmentEntries _ rest) as [[hs' evs] r]. simpl in *.
  rewrite IH, list_fmap_insert, without_thumbnail_set_thumbnail.
  apply list_insert_id. rewrite list_lookup_fmap, Hi. reflexivity.
Qed.

Lemma augmentResponse_keeps hs m :
  without_thumbnail <$> fst (fst (augmentResponse hs m))
  = without_thumbnail <$> hs.
Proof.
  unfold augmentResponse. destruct m as [[|e es]|]; try reflexivity.
  apply augmentEntries_keeps.
Qed.

Lemma augmentThumbnails_keeps h hs :
  without_thumbnail <$> fst (augmentThumbnails h hs) = without_thumbnail <$> hs.
Proof.
  unfold augmentThumbnails. destruct (buildBatches 0 hs) as [b bb].
  destruct (executeAll h b) as [m1|e]; [|reflexivity].
  pose proof (augmentResponse_keeps hs m1) as H1.
  destruct (augmentResponse hs m1) as [[hs1 evs1] [u|e]]; simpl in H1;
    [|exact H1].
  destruct (executeAllBeta h bb) as [m2|e]; [|exact H1].
  pose proof (augmentResponse_keeps hs1 m2) as H2.
  destruct (augmentResponse hs1 m2) as [[hs2 evs2] r2]. simpl in *.
  congruence.
Qed.

(** X14. Whatever the two batches answer (answers to requests never made,
    repeated keys, failures), the augmentation neither adds, removes nor
    reorders hits, and changes nothing of a hit but its thumbnail. *)
Theorem augmentation_touches_only_thumbnails
    (h : Host) (hs : list SearchHit) :
  without_thumbnail <$> fst (augmentThumbnails h hs) = without_thumbnail <$> hs ∧
  length (fst (augmentThumbnails h hs)) = length hs.
Proof.
  pose proof (augmentThumbnails_keeps h hs) as H. split; [exact H|].
  apply (f_equal length) in H. rewrite !length_fmap in H. exact H.
Qed.

(** X15. Thumbnails are merged by index, not by position in the batch
    response: two responses with the same entries in another order (the
    keys distinct and naming hits) leave the same hits. *)
Theorem merge_is_by_index
    (hs : list SearchHit) (entries1 entries2 : BatchMap) :
  entries1 ≡ₚ entries2 →
  NoDup entries1.*1 →
  (∀ key, key ∈ entries1.*1 → ∃ i, key = toString i ∧ is_Some (hs !! i)) →
  fst (fst (augmentEntries hs entries1)) = fst (fst (augmentEntries hs entries2)) ∧
  snd (augmentEntries hs entries1) = Ok () ∧
  snd (augmentEntries hs entries2) = Ok ().
Proof.
  intros Hperm Hnd1 Hk1.
  assert (Hpk : entries1.*1 ≡ₚ entries2.*1) by (by apply fmap_Permutation).
  assert (Hnd2 : NoDup entries2.*1) by (by rewrite <- Hpk).
  assert (Hk2 : ∀ key, key ∈ entries2.*1 →
                  ∃ i, key = toString i ∧ is_Some (hs !! i)).
  { intros key Hkey. apply Hk1. by rewrite Hpk. }
  destruct (augmentEntries_spec entries1 hs Hnd1 Hk1) as (Hr1 & _ & Hin1 & Hout1).
  destruct (augmentEntries_spec entries2 hs Hnd2 Hk2) as (Hr2 & _ & Hin2 & Hout2).
  split; [|split; assumption].
  apply list_eq. intros i.
  destruct (decide (toString i ∈ entries1.*1)) as [Hin | Hnin].
  - apply list_elem_of_fmap in Hin as ([key v] & Hkey & Hmem).
    simpl in Hkey. subst key.
    destruct (Hin1 i v Hmem) as (el1 & He1 & ->).
    assert (Hmem2 : (toString i, v) ∈ entries2) by (by rewrite <- Hperm).
    destruct (Hin2 i v Hmem2) as (el2 & He2 & ->). congruence.
  - rewrite (Hout1 i Hnin). symmetry. apply Hout2. by rewrite <- Hpk.
Qed.

Lemma merge_is_by_index_witness :
  let hs := Examples.hits_file_and_page in
  let a := ("0", {| content := {| content_url := Some "u0";
                                  content_thumbnailWebUrl := None |} |}) in
  let b := ("1", {| content := {| content_url := None;
                                  content_thumbnailWebUrl := Some "u1" |} |}) in
  ([a; b] ≡ₚ [b; a] ∧ NoDup [a; b].*1) ∧
  fst (fst (augmentEntries hs [a; b])) = fst (fst (augmentEntries hs [b; a])).
Proof.
  intros hs a b.
  assert (Hp : [a; b] ≡ₚ [b; a]) by apply Permutation_swap.
  assert (Hn : NoDup [a; b].*1).
  { simpl. apply NoDup_cons. split; [|apply NoDup_singleton].
    intros H. apply list_elem_of_singleton in H. discriminate H. }
  split; [split; [exact Hp | exact Hn]|].
  apply (merge_is_by_index hs [a; b] [b; a] Hp Hn).
  intros key Hkey. simpl in Hkey.
  apply elem_of_cons in Hkey as [-> | Hkey];
    [exists 0%nat; split; [reflexivity | eexists; reflexivity]|].
  apply list_elem_of_singleton in Hkey as ->.
  exists 1%nat. split; [reflexivity | eexists; reflexivity].
Defined.

(** ** An answer that names no hit *)

Lemma lookup_key_from_None_length hs :
  ∀ hs' j key, length hs = length hs' →
    lookup_key_from j hs key = None → lookup_key_from j hs' key = None.
Proof.
  induction hs as [|x hs IH]; intros [|x' hs'] j key Hlen H;
    try discriminate Hlen; [reflexivity|].
  simpl in *. destruct (String.eqb (toString j) key); [discriminate|].
  apply (IH hs' (S j) key); [lia | exact H].
Qed.

Lemma augmentEntries_app (l1 l2 : BatchMap) :
  ∀ hs,
    augmentEntries hs (l1 ++ l2) =
    match snd (augmentEntries hs l1) with
    | Ok _ =>
        (fst (fst (augmentEntries (fst (fst (augmentEntries hs l1))) l2)),
         snd (fst (augmentEntries hs l1)) ++
         snd (fst (augmentEntries (fst (fst (augmentEntries hs l1))) l2)),
         snd (augmentEntries (fst (fst (augmentEntries hs l1))) l2))
    | Throw e =>
        (fst (fst (augmentEntries hs l1)), snd (fst (augmentEntries hs l1)),
         Throw e)
    end.
Proof.
  induction l1 as [|[key v] l1 IH]; intros hs.
  - simpl. destruct (augmentEntries hs l2) as [[hs2 ev2] r2]. reflexivity.
  - simpl. destruct (lookup_key hs key) as [[i result]|]; [|reflexivity].
    rewrite IH.
    destruct (augmentEntries (<[i:=_]> hs) l1) as [[hs1 ev1] [u|e]]; simpl;
      reflexivity.
Qed.

(** X16. When the answers of the v1.0 batch hold a key that names no hit,
    the merge stops there without an error: the answers before it stay
    attached, the answers after it are dropped, and the beta batch is not
    executed at all. *)
Theorem answer_for_no_hit_stops_the_merge
    (h : Host) (hs : list SearchHit) (good rest : BatchMap)
    (key : string) (v : BatchResponse) :
  executeAll h (fst (buildBatches 0 hs)) = Ok (Some (good ++ (key, v) :: rest)) →
  snd (augmentEntries hs good) = Ok () →
  lookup_key hs key = None →
  augmentThumbnails h hs =
  (fst (fst (augmentEntries hs good)),
   EvExecuteAll false (fst (buildBatches 0 hs)) :: snd (fst (augmentEntries hs good))).
Proof.
  intros Hex Hgood Hkey. unfold augmentThumbnails.
  destruct (buildBatches 0 hs) as [b bb]. simpl fst in *. rewrite Hex.
  assert (Hlen : length hs = length (fst (fst (augmentEntries hs good)))).
  { pose proof (augmentEntries_keeps good hs) as H.
    apply (f_equal length) in H. rewrite !length_fmap in H. auto. }
  assert (Haug : augmentResponse hs (Some (good ++ (key, v) :: rest)) =
                 (fst (fst (augmentEntries hs good)),
                  snd (fst (augmentEntries hs good)),
                  Throw (TypeError "Cannot read properties of undefined"))).
  { unfold augmentResponse.
    destruct (good ++ (key, v) :: rest) as [|e0 es0] eqn:Hl;
      [destruct good; discriminate Hl|].
    rewrite <- Hl, augmentEntries_app, Hgood. simpl.
    unfold lookup_key in *.
    rewrite (lookup_key_from_None_length hs _ 0 key Hlen Hkey). simpl.
    rewrite app_nil_r. reflexivity. }
  rewrite Haug. reflexivity.
Qed.

Lemma answer_for_no_hit_stops_the_merge_witness :
  let hs := Examples.hits_file_and_page in
  let v := {| content := {| content_url := Some "u";
                            content_thumbnailWebUrl := None |} |} in
  let h := Examples.host 0 None (Ok None)
             (Ok (Some (Examples.response_with hs)))
             (λ _, Ok (Some [("0", v); ("7", v); ("1", v)]))
             (Examples.batch_ok Examples.thumbs) in
  (lookup_key hs "7" = None ∧ snd (augmentEntries hs [("0", v)]) = Ok ()) ∧
  augmentThumbnails h hs =
  ([set_thumbnail {| url := Some "u" |} Examples.hit_file; Examples.hit_page],
   [EvExecuteAll false (fst (buildBatches 0 hs));
    EvThumbnail 0 {| url := Some "u" |}]).
Proof.
  intros hs v h. split; [split; vm_compute; reflexivity|].
  exact (answer_for_no_hit_stops_the_merge h hs [("0", v)] [("1", v)] "7" v
           eq_refl eq_refl eq_refl).
Defined.

(** ** The requests of the two batches *)

Lemma buildBatches_id_range hs :
  ∀ j key,
    key ∈ req_id <$> fst (buildBatches j hs) ∨
    key ∈ req_id <$> snd (buildBatches j hs) →
    ∃ i, key = toString (j + i).
Proof.
  intros j key [H | H]; apply list_elem_of_fmap in H as (req & -> & Hreq).
  - apply buildBatches_fst in Hreq as (i & el & _ & _ & _ & ->). eauto.
  - apply buildBatches_snd in Hreq as (i & el & _ & _ & _ & ->). eauto.
Qed.

Lemma buildBatches_distinct hs :
  ∀ j, NoDup (req_id <$> fst (buildBatches j hs) ++ snd (buildBatches j hs)) ∧
       length (fst (buildBatches j hs) ++ snd (buildBatches j hs)) =
       length (List.filter (λ el, eligible (resource el)) hs).
Proof.
  induction hs as [|x hs IH]; intros j.
  - simpl. split; [constructor | reflexivity].
  - destruct (IH (S j)) as [Hnd Hlen].
    assert (Hfresh : toString j ∉
              req_id <$> fst (buildBatches (S j) hs) ++ snd (buildBatches (S j) hs)).
    { intros H. rewrite fmap_app in H. apply elem_of_app in H.
      apply buildBatches_id_range in H as (i & Hi).
      apply toString_inj in Hi. lia. }
    simpl. destruct (buildBatches (S j) hs) as [b bb]. simpl in *.
    destruct (eligible (resource x)); [destruct (isListItem (resource x))|];
      simpl.
    + split; [|rewrite length_app in *; simpl; lia].
      rewrite fmap_app, fmap_cons. simpl.
      rewrite fmap_app in Hnd, Hfresh.
      apply NoDup_app in Hnd as (H1 & H2 & H3).
      apply not_elem_of_app in Hfresh as [Hf1 Hf2].
      apply NoDup_app. split; [exact H1|]. split.
      * intros k Hk Hk'. apply elem_of_cons in Hk' as [-> | Hk'];
          [exact (Hf1 Hk) | exact (H2 k Hk Hk')].
      * apply NoDup_cons. split; assumption.
    + split; [|simpl; lia]. apply NoDup_cons. split; assumption.
    + split; assumption.
Qed.

(** X17. The requests of the two batches have distinct ids, across both
    batches, and there is exactly one request for every eligible hit. *)
Theorem one_request_per_eligible_hit (hs : list SearchHit) :
  NoDup (req_id <$> fst (buildBatches 0 hs) ++ snd (buildBatches 0 hs)) ∧
  length (fst (buildBatches 0 hs) ++ snd (buildBatches 0 hs)) =
  length (List.filter (λ el, eligible (resource el)) hs).
Proof. exact (buildBatches_distinct hs 0). Qed.

(** ** The kind of a result *)

Lemma split_on_nonempty sep s : split_on sep s ≠ [].
Proof.
  destruct s as [|ch rest]; simpl; [discriminate|].
  destruct (Ascii.eqb ch sep); [discriminate|].
  destruct (split_on sep rest); discriminate.
Qed.

Lemma split_on_free sep s : has_char sep s = false → split_on sep s = [s].
Proof.
  induction s as [|ch rest IH]; simpl; [reflexivity|].
  intros H. apply orb_false_elim in H as [H1 H2].
  rewrite H1, (IH H2). reflexivity.
Qed.

Lemma split_on_app sep (a b : string) :
  split_on sep (a +:+ String sep b) = split_on sep a ++ split_on sep b.
Proof.
  induction a as [|ch rest IH]; simpl.
  - rewrite Ascii.eqb_refl. reflexivity.
  - rewrite IH. destruct (Ascii.eqb ch sep); [reflexivity|].
    pose proof (split_on_nonempty sep rest) as Hne.
    destruct (split_on sep rest) as [|seg segs]; [congruence | reflexivity].
Qed.

Lemma last_split_on_app sep (prefix s : string) :
  last (split_on sep (prefix +:+ String sep s)) = last (split_on sep s).
Proof.
  rewrite split_on_app, last_app.
  pose proof (split_on_nonempty sep s) as Hne.
  destruct (last (split_on sep s)) eqn:E; [reflexivity|].
  apply last_None in E. congruence.
Qed.

(** X18. [getResourceType] is the part of [@odata.type] after its last
    dot, and the whole of it when it has no dot: the custom template looked
    up for a hit of type [#microsoft.graph.<kind>] is [result-<kind>]. *)
Theorem resource_type_is_after_the_last_dot (r : Resource) (name : string) :
  has_char dot name = false →
  (odata_type r = name ∨ ∃ prefix, odata_type r = prefix +:+ String dot name) →
  getResourceType r = name.
Proof.
  intros Hfree Htype. unfold getResourceType.
  destruct Htype as [-> | [prefix ->]].
  - rewrite (split_on_free dot name Hfree). reflexivity.
  - rewrite last_split_on_app, (split_on_free dot name Hfree). reflexivity.
Qed.

Lemma resource_type_is_after_the_last_dot_witness :
  (has_char dot "bookmark" = false ∧
   odata_type (resource Examples.hit_file) = "#microsoft.graph.driveItem") ∧
  getResourceType (resource Examples.hit_file) = "driveItem" ∧
  getResourceType {| odata_type := "#microsoft.graph.search.bookmark";
                     id := "b"; size := None; webUrl := None;
                     parentReference := Examples.parent;
                     thumbnail := None |} = "bookmark".
Proof.
  split; [split; reflexivity|]. split.
  - apply (resource_type_is_after_the_last_dot _ "driveItem");
      [reflexivity | right; exists "#microsoft.graph"; reflexivity].
  - apply (resource_type_is_after_the_last_dot _ "bookmark");
      [reflexivity | right; exists "#microsoft.graph.search"; reflexivity].
Defined.

(** X19. A thumbnail is only requested for a hit that a thumbnail can be
    shown for: unless a custom template takes the hit over, every eligible
    hit is rendered by one of the two views that display
    [resource.thumbnail.url]. *)
Theorem eligible_hits_can_show_thumbnails
    (hasTemplate : string → bool) (element : SearchHit) :
  eligible (resource element) = true →
  hasTemplate ("result-" +:+ getResourceType (resource element)) = false →
  shows_thumbnail (renderResult hasTemplate element) = true.
Proof.
  intros He Ht. unfold renderResult. cbv zeta. rewrite Ht.
  unfold eligible in He. apply andb_prop in He as [_ He].
  apply orb_prop in He as [He | He]; apply String.eqb_eq in He;
    rewrite He; reflexivity.
Qed.

Lemma eligible_hits_can_show_thumbnails_witness :
  (eligible (resource Examples.hit_page) = true) ∧
  renderResult (λ _, false) Examples.hit_page = ListItemView.
Proof.
  split; [reflexivity|].
  pose proof (eligible_hits_can_show_thumbnails (λ _, false) Examples.hit_page
                eq_refl eq_refl) as H.
  destruct (renderResult (λ _, false) Examples.hit_page) eqn:E;
    try discriminate H; [discriminate E | reflexivity].
Defined.

(** ** Cache keys of different queries *)

Lemma string_length_app (a b : string) :
  String.length (a +:+ b) = (String.length a + String.length b)%nat.
Proof. induction a as [|ch a IH]; simpl; [|rewrite IH]; reflexivity. Qed.

Lemma string_app_inv_tail (a b s : string) : a +:+ s = b +:+ s → a = b.
Proof.
  revert b. induction a as [|ch a IH]; intros [|ch' b] H.
  - reflexivity.
  - apply (f_equal String.length) in H.
    rewrite !string_length_app in H. simpl in H. lia.
  - apply (f_equal String.length) in H.
    rewrite !string_length_app in H. simpl in H. lia.
  - simpl in H. injection H as -> H. f_equal. apply IH, H.
Qed.

(** Reading back the escape of a character gives the character. *)
Lemma unescape_head_escape_char (ch : ascii) (rest : string) :
  unescape_head (escape_char ch +:+ rest) = Some (ch, rest).
Proof.
  destruct ch as [[] [] [] [] [] [] [] []]; reflexivity.
Qed.

Lemma escape_inj (s1 s2 : string) : escape s1 = escape s2 → s1 = s2.
Proof.
  revert s2. induction s1 as [|c1 s1 IH]; intros [|c2 s2] H; simpl in H.
  - reflexivity.
  - apply (f_equal unescape_head) in H.
    rewrite unescape_head_escape_char in H. discriminate H.
  - apply (f_equal unescape_head) in H.
    rewrite unescape_head_escape_char in H. discriminate H.
  - apply (f_equal unescape_head) in H.
    rewrite !unescape_head_escape_char in H.
    injection H as -> H. f_equal. apply IH, H.
Qed.

Lemma quote_inj (s1 s2 : string) : quote s1 = quote s2 → s1 = s2.
Proof.
  unfold quote. intros [= H]. apply string_app_inv_tail in H.
  apply escape_inj, H.
Qed.

Lemma concat_inj_head sep (x1 x2 : string) (T : list string) :
  String.concat sep (x1 :: T) = String.concat sep (x2 :: T) → x1 = x2.
Proof.
  destruct T as [|t T]; simpl; [auto|]. apply string_app_inv_tail.
Qed.

Lemma concat_inj_second sep (a x1 x2 : string) (T : list string) :
  String.concat sep (a :: x1 :: T) = String.concat sep (a :: x2 :: T) →
  x1 = x2.
Proof.
  change (String.concat sep (a :: x1 :: T))
    with (a +:+ sep +:+ String.concat sep (x1 :: T)).
  change (String.concat sep (a :: x2 :: T))
    with (a +:+ sep +:+ String.concat sep (x2 :: T)).
  intros H. apply (inj (String.app a)) in H. apply (inj (String.app sep)) in H.
  apply (concat_inj_head sep x1 x2 T H).
Qed.

Lemma obj_text_inj (l1 l2 : list string) :
  obj_text l1 = obj_text l2 → String.concat "," l1 = String.concat "," l2.
Proof.
  unfold obj_text. intros H. apply (inj (String.app "{")) in H.
  apply string_app_inv_tail in H. exact H.
Qed.

(** The key of a component with query string [q], with the place of [q]
    in it laid open. *)
Lemma cacheKey_layout (c : MgtSearchResults) :
  ∃ (e ets : string) (T T' : list string),
    ∀ q, cacheKey (with_queryString (Val q) c) =
         obj_text
           [e;
            quote "requestOptions" +:+ ":" +:+
            obj_text
              (ets ::
               (quote "query" +:+ ":" +:+
                obj_text ((quote "queryString" +:+ ":" +:+ quote q) :: T'))
               :: T)].
Proof.
  eexists (quote "endpoint" +:+ ":" +:+ quote (version c +:+ SEARCH_ENDPOINT)).
  eexists (quote "entityTypes" +:+ ":" +:+
           default EmptyString (stringify (jstrings (_entityTypes c)))).
  eexists (omap (λ p, (λ s, quote (fst p) +:+ ":" +:+ s) <$> stringify (snd p))
             ([("from", num_or_undefined (from c));
               ("size", num_or_undefined (size_ c));
               ("fields", getFields c);
               ("enableTopResults", bool_or_undefined (enableTopResults c))] ++
              (if includes "externalItem" (_entityTypes c)
               then [("contentSources", opt_strings (contentSources c))]
               else []))).
  eexists (omap (λ p, (λ s, quote (fst p) +:+ ":" +:+ s) <$> stringify (snd p))
             (if String.eqb (version c) "beta"
              then [("queryTemplate", str_or_undefined (queryTemplate c))]
              else [])).
  intros q. reflexivity.
Qed.

(** X20. Two components that differ only in their query string never have
    the same cache key: what was cached for one query is not served for
    another. *)
Theorem cache_key_tells_queries_apart
    (c : MgtSearchResults) (q1 q2 : string) :
  q1 ≠ q2 →
  cacheKey (with_queryString (Val q1) c) ≠
  cacheKey (with_queryString (Val q2) c).
Proof.
  intros Hne Heq. apply Hne.
  destruct (cacheKey_layout c) as (e & ets & T & T' & Hkey).
  rewrite !Hkey in Heq.
  apply obj_text_inj, concat_inj_second in Heq.
  do 2 apply (inj (String.app _)) in Heq.
  apply obj_text_inj, concat_inj_second in Heq.
  do 2 apply (inj (String.app _)) in Heq.
  apply obj_text_inj, concat_inj_head in Heq.
  do 2 apply (inj (String.app _)) in Heq.
  apply quote_inj, Heq.
Qed.

Lemma cache_key_tells_queries_apart_witness :
  "contoso" ≠ "Contoso" ∧
  cacheKey (with_queryString (Val "contoso") initial) ≠
  cacheKey (with_queryString (Val "Contoso") initial).
Proof.
  assert (H : "contoso" ≠ "Contoso") by discriminate.
  split; [exact H|].
  exact (cache_key_tells_queries_apart initial "contoso" "Contoso" H).
Defined.

(** ** mgt-teams-provider *)

Lemma concat_split_on (sep : ascii) (s : string) :
  String.concat (String sep EmptyString) (split_on sep s) = s.
Proof.
  induction s as [|ch rest IH]; [reflexivity|].
  simpl split_on. pose proof (split_on_nonempty sep rest) as Hne.
  destruct (Ascii.eqb_spec ch sep) as [-> | Hch].
  - destruct (split_on sep rest) as [|seg segs] eqn:E; [congruence|].
    change (String.concat (String sep EmptyString) (EmptyString :: seg :: segs))
      with (String sep (String.concat (String sep EmptyString) (seg :: segs))).
    rewrite IH. reflexivity.
  - destruct (split_on sep rest) as [|seg segs] eqn:E; [congruence|].
    destruct segs as [|seg' segs].
    + simpl in *. rewrite IH. reflexivity.
    + change (String.concat (String sep EmptyString)
                (String ch seg :: seg' :: segs))
        with (String ch (String.concat (String sep EmptyString)
                           (seg :: seg' :: segs))).
      rewrite IH. reflexivity.
Qed.

Lemma split_on_segments_free (sep : ascii) (s : string) :
  Forall (λ seg, has_char sep seg = false) (split_on sep s).
Proof.
  induction s as [|ch rest IH]; simpl; [repeat constructor|].
  pose proof (split_on_nonempty sep rest) as Hne.
  destruct (Ascii.eqb ch sep) eqn:E; [constructor; [reflexivity | exact IH]|].
  destruct (split_on sep rest) as [|seg segs]; [congruence|].
  apply Forall_cons in IH as [Hseg Hsegs].
  constructor; [|exact Hsegs]. simpl. rewrite E, Hseg. reflexivity.
Qed.

(** X21. [initializeProvider] creates a provider exactly when both the
    client id and the popup url are set.  The configuration then carries
    them; its scopes, when it has any, are the pieces of the [scopes]
    attribute between the commas, none of them lost (joined with commas
    they give the attribute back); and its base url is only ever one that
    [validateBaseURL] returned for the [base-url] attribute. *)
Theorem initializeProvider_config
    (validateBaseURL : string → option string) (p : Teams.MgtTeamsProvider) :
  (is_Some (Teams.initializeProvider validateBaseURL p) ↔
   Teams.clientId p ≠ EmptyString ∧ Teams.authPopupUrl p ≠ EmptyString) ∧
  ∀ cfg, Teams.initializeProvider validateBaseURL p = Some cfg →
    Teams.cfg_clientId cfg = Teams.clientId p ∧
    Teams.cfg_authPopupUrl cfg = Teams.authPopupUrl p ∧
    (∀ l, Teams.cfg_scopes cfg = Some l →
       ∃ s, Teams.scopes p = Some s ∧ String.concat "," l = s ∧
            Forall (λ seg, has_char Teams.comma seg = false) l) ∧
    (∀ u, Teams.cfg_baseURL cfg = Some u →
       u ≠ EmptyString ∧
       ∃ b, Teams.baseUrl p = Some b ∧ validateBaseURL b = Some u).
Proof.
  unfold Teams.initializeProvider. split.
  - destruct (Teams.clientId p) as [|a r]; simpl;
      [split; [intros [? [=]] | intros [H _]; congruence]|].
    destruct (Teams.authPopupUrl p) as [|a' r']; simpl;
      [split; [intros [? [=]] | intros [_ H]; congruence]|].
    split; [intros _; split; discriminate | intros _; eauto].
  - intros cfg H.
    destruct (truthy_str (Some (Teams.clientId p))
              && truthy_str (Some (Teams.authPopupUrl p))); [|discriminate].
    injection H as <-.
    cbn [Teams.cfg_clientId Teams.cfg_authPopupUrl Teams.cfg_scopes
         Teams.cfg_baseURL].
    repeat split.
    + intros l Hl. destruct (Teams.scopes p) as [[|a r]|]; try discriminate.
      change (if (a =? Teams.comma)%char then _ else _)
        with (split_on Teams.comma (String a r)) in Hl.
      destruct (0 <? length (split_on Teams.comma (String a r)))%nat;
        [|discriminate].
      injection Hl as <-.
      exists (String a r). split; [reflexivity|].
      split; [exact (concat_split_on Teams.comma (String a r))
             |exact (split_on_segments_free Teams.comma (String a r))].
    + destruct (Teams.baseUrl p) as [[|a r]|]; try discriminate.
      destruct (validateBaseURL (String a r)) as [[|a' r']|]; try discriminate.
      congruence.
    + destruct (Teams.baseUrl p) as [[|a r]|]; try discriminate.
      destruct (validateBaseURL (String a r)) as [[|a' r']|] eqn:E;
        try discriminate.
      injection H as <-. eauto.
Qed.

Example initializeProvider_sample :
  Teams.initializeProvider (λ u, Some u)
    {| Teams.clientId := "abc"; Teams.authPopupUrl := "/auth.html";
       Teams.authority := None;
       Teams.scopes := Some "user.read,people.read";
       Teams.baseUrl := None |} =
  Some {| Teams.cfg_authPopupUrl := "/auth.html"; Teams.cfg_clientId := "abc";
          Teams.cfg_scopes := Some ["user.read"; "people.read"];
          Teams.cfg_msalOptions := None; Teams.cfg_baseURL := None |}.
Proof. reflexivity. Qed.

(** ** mgt-dot-options *)

Lemma handle_called m e :
  DotOptions.called (DotOptions.handle m e) =
  DotOptions.called m ++ option_list (DotOptions.chosen e).
Proof.
  destruct e as [| code | name | name code |]; simpl;
    rewrite ?app_nil_r; try reflexivity.
  - destruct (String.eqb code "Enter"); simpl; rewrite ?app_nil_r; reflexivity.
  - destruct (String.eqb code "Enter" || String.eqb code "Space"); simpl;
      rewrite ?app_nil_r; reflexivity.
Qed.

Lemma handle_closes m e :
  DotOptions.closes e = true →
  DotOptions.open (DotOptions.handle m e) = Some false.
Proof.
  destruct e as [| code | name | name code |]; simpl; try discriminate;
    try reflexivity.
  destruct (String.eqb code "Enter" || String.eqb code "Space"); simpl;
    [reflexivity | discriminate].
Qed.

(** X22. Over any sequence of events on the dot menu, the handlers of the
    options run once for each choice of an option (a click, or Enter or
    Space on it) and in that order, and for nothing else; and right after
    a choice or a click elsewhere the menu is closed, whatever happened
    before. *)
Theorem dot_menu_runs_choices_and_closes
    (m : DotOptions.Menu) (es : list DotOptions.DomEvent) :
  DotOptions.called (DotOptions.handle_all m es) =
    DotOptions.called m ++ omap DotOptions.chosen es ∧
  (∀ e, DotOptions.closes e = true →
        DotOptions.open (DotOptions.handle_all m (es ++ [e])) = Some false).
Proof.
  split.
  - revert m. induction es as [|e es IH]; intros m; simpl.
    + rewrite app_nil_r. reflexivity.
    + unfold DotOptions.handle_all in *. simpl. rewrite IH, handle_called.
      rewrite <- app_assoc. f_equal.
      destruct (DotOptions.chosen e); reflexivity.
  - intros e He. unfold DotOptions.handle_all. rewrite foldl_app. simpl.
    apply handle_closes, He.
Qed.
